(** * multi_rooms_chat_back: a shallow embedding of the real-time core

  The development follows the packages of the repository:
  - [models]      : the row and wire records (internal/models);
  - [db]          : the SQL surface consumed by the core (internal/db/db.go)
                    over a relational state built from the schema
                    (migrations: messages, message_reads, room_members);
  - [persistence] : the batched message writer (internal/persistence);
  - [rooms]       : the room manager and the per-connection client
                    (internal/rooms/manager.go, client.go);
  - [api]         : the WebSocket upgrade handler (internal/api/websocket.go).

  Identifiers are 128-bit UUIDs, modelled as [N]; instants are nanoseconds
    on the [Z] line, as Go's [time.Time]/[time.Duration] count them. *)

From Stdlib Require Import ZArith String Ascii List Bool Lia DecimalString Permutation.
From stdpp Require Import base option gmap strings list fin_maps.

Open Scope Z_scope.

(* ===================================================================== *)
(** * Time *)
(* ===================================================================== *)

Module time.

Definition Nanosecond : Z := 1.
Definition Millisecond : Z := 1000000 * Nanosecond.
Definition Second : Z := 1000 * Millisecond.
Definition Minute : Z := 60 * Second.
Definition Hour : Z := 60 * Minute.

Definition minDuration : Z := - 2 ^ 63.
Definition maxDuration : Z := 2 ^ 63 - 1.

(** [t.Sub(u)]: the duration t-u, saturated to the int64 range of
    [time.Duration]. *)
Definition Sub (t u : Z) : Z :=
  let d := t - u in
  if d <? minDuration then minDuration
  else if maxDuration <? d then maxDuration
  else d.

(** [t.Add(d)]. *)
Definition Add (t d : Z) : Z := t + d.

End time.

(* ===================================================================== *)
(** * internal/models *)
(* ===================================================================== *)

Module models.

(** [models.Message]. The pointer fields ([*int64], [*time.Time]) are
    options; [ID] is an int64. *)
Record Message := mkMessage {
  ID : Z;
  RoomID : N;
  UserID : N;
  Content : string;
  MessageType : string;
  FileURL : string;
  ParentID : option Z;
  EditedAt : option Z;
  DeletedAt : option Z;
  CreatedAt : Z
}.

(** The zero value of the struct, what [var msg models.Message] holds. *)
Definition zeroMessage : Message :=
  mkMessage 0 0%N 0%N "" "" "" None None None 0.

(** [models.MessageRead]. *)
Record MessageRead := mkMessageRead {
  MessageID : Z;
  ReaderID : N;
  ReadAt : Z
}.

Definition set_ID_CreatedAt (m : Message) (id created : Z) : Message :=
  mkMessage id (RoomID m) (UserID m) (Content m) (MessageType m)
            (FileURL m) (ParentID m) (EditedAt m) (DeletedAt m) created.

End models.

(* ===================================================================== *)
(** * Go strings built at run time *)
(* ===================================================================== *)

Module gostring.

Definition byte_of (z : Z) : ascii := ascii_of_N (Z.to_N (z mod 256)).

(** [string(rune(r))]: the UTF-8 encoding of code point [r]; surrogates
    and values outside the Unicode range become U+FFFD. *)
Definition string_of_rune (r : Z) : string :=
  if (0 <=? r) && (r <? 128) then
    String (byte_of r) EmptyString
  else if (128 <=? r) && (r <? 2048) then
    String (byte_of (192 + r / 64))
      (String (byte_of (128 + r mod 64)) EmptyString)
  else if ((2048 <=? r) && (r <? 55296)) || ((57344 <=? r) && (r <? 65536)) then
    String (byte_of (224 + r / 4096))
      (String (byte_of (128 + (r / 64) mod 64))
        (String (byte_of (128 + r mod 64)) EmptyString))
  else if (65536 <=? r) && (r <? 1114112) then
    String (byte_of (240 + r / 262144))
      (String (byte_of (128 + (r / 4096) mod 64))
        (String (byte_of (128 + (r / 64) mod 64))
          (String (byte_of (128 + r mod 64)) EmptyString)))
  else
    String (byte_of 239) (String (byte_of 191) (String (byte_of 189) EmptyString)).

(** [fmt.Sprintf("%d", n)] for a non-negative [n]. *)
Definition itoa (n : nat) : string :=
  NilZero.string_of_uint (Nat.to_uint n).

Definition is_digit (c : ascii) : bool :=
  let n := nat_of_ascii c in (48 <=? n)%nat && (n <=? 57)%nat.

Definition digit_val (c : ascii) : nat := (nat_of_ascii c - 48)%nat.

End gostring.

(* ===================================================================== *)
(** * The SQL front end: numbered placeholders *)
(* ===================================================================== *)

Module sql.
Import gostring.

(** What the server's lexer does with [$]: a parameter token is [$]
    followed by one or more decimal digits. The queries of this
    repository contain no dollar-quoted literal, so any other character
    after a [$] is a syntax error. *)
Inductive lexstate :=
| Outside
| AfterDollar
| InParam (n : nat).

(** The parameter numbers of a text in order of appearance, or [None]
    when the text does not lex. *)
Fixpoint params_from (s : string) (st : lexstate) : option (list nat) :=
  match s with
  | EmptyString =>
      match st with
      | Outside => Some []
      | AfterDollar => None
      | InParam n => Some [n]
      end
  | String c rest =>
      match st with
      | Outside =>
          if Ascii.eqb c "$" then params_from rest AfterDollar
          else params_from rest Outside
      | AfterDollar =>
          if is_digit c then params_from rest (InParam (digit_val c))
          else None
      | InParam n =>
          if is_digit c then params_from rest (InParam (10 * n + digit_val c))
          else if Ascii.eqb c "$" then cons n <$> params_from rest AfterDollar
          else cons n <$> params_from rest Outside
      end
  end.

Definition params (text : string) : option (list nat) :=
  params_from text Outside.

(** Preparing a statement with [nargs] bound arguments: the text must
    lex, every parameter number must be at least 1, and the highest one
    must be [nargs] (the driver refuses a call whose argument count
    differs from the number of parameters of the statement). *)
Definition prepares (text : string) (nargs : nat) : bool :=
  match params text with
  | None => false
  | Some ps =>
      forallb (fun p => (1 <=? p)%nat) ps
      && (fold_right Nat.max 0%nat ps =? nargs)%nat
  end.

(** Binding a text argument. The database is a UTF8 one (the server of
    the deployment is Neon's PostgreSQL), and the server refuses a text
    value that has a zero byte or is not well-formed UTF-8. [utf8_from
    need lo hi s]: [need] continuation bytes are still due, the next of
    them between [lo] and [hi]; the ranges are those of the encoding
    (no overlong form, no surrogate, nothing above U+10FFFF). *)
Fixpoint utf8_from (need : nat) (lo hi : N) (s : string) : bool :=
  match s with
  | EmptyString => (need =? 0)%nat
  | String c rest =>
      let b := N_of_ascii c in
      match need with
      | O =>
          if (b =? 0)%N then false
          else if (b <? 128)%N then utf8_from 0 128 191 rest
          else if (194 <=? b)%N && (b <=? 223)%N then utf8_from 1 128 191 rest
          else if (b =? 224)%N then utf8_from 2 160 191 rest
          else if (b =? 237)%N then utf8_from 2 128 159 rest
          else if (225 <=? b)%N && (b <=? 239)%N then utf8_from 2 128 191 rest
          else if (b =? 240)%N then utf8_from 3 144 191 rest
          else if (241 <=? b)%N && (b <=? 243)%N then utf8_from 3 128 191 rest
          else if (b =? 244)%N then utf8_from 3 128 143 rest
          else false
      | S need' =>
          if (lo <=? b)%N && (b <=? hi)%N then utf8_from need' 128 191 rest
          else false
      end
  end.

Definition text_accepted (s : string) : bool := utf8_from 0 128 191 s.

End sql.

(* ===================================================================== *)
(** * Sorting rows (ORDER BY) *)
(* ===================================================================== *)

Module rows.

Section Sort.
Context {A : Type} (before : A -> A -> bool).

Fixpoint insert_by (x : A) (l : list A) : list A :=
  match l with
  | [] => [x]
  | y :: l' => if before x y then x :: y :: l' else y :: insert_by x l'
  end.

Fixpoint sort_by (l : list A) : list A :=
  match l with
  | [] => []
  | x :: l' => insert_by x (sort_by l')
  end.

End Sort.

End rows.

(* ===================================================================== *)
(** * internal/db *)
(* ===================================================================== *)

Module db.
Import models.

Inductive error :=
| ErrConn                       (* the server cannot be reached *)
| ErrNoRows                     (* pgx.ErrNoRows from Scan *)
| ErrSyntax                     (* the statement does not prepare *)
| ErrEncoding                   (* a text argument is not valid in the encoding *)
| ErrLimit                      (* LIMIT must not be negative *)
| ErrCheck (constraint : string)
| ErrForeignKey (constraint : string).

(** The relational state behind the pool: the tables of the schema the
    core touches, the BIGSERIAL sequence of [messages.id], and whether the
    server can be reached at all. [messages] and [message_reads] keep
    their rows in insertion order. The role of the pool is the one that
    ran the migration: it owns the tables, so the row-level policies of
    the schema do not apply to it. Values are within the size limits of
    the server. *)
Record Database := mkDatabase {
  online : bool;
  users : gset N;
  rooms : gset N;
  room_members : gset (N * N);
  messages : list Message;
  messages_id_seq : Z;
  message_reads : list MessageRead
}.

Definition set_online (b : bool) (d : Database) : Database :=
  mkDatabase b (users d) (rooms d) (room_members d) (messages d)
             (messages_id_seq d) (message_reads d).

Definition set_messages (d : Database) (ms : list Message) (seq : Z) : Database :=
  mkDatabase (online d) (users d) (rooms d) (room_members d) ms seq
             (message_reads d).

Definition set_message_reads (d : Database) (rs : list MessageRead) : Database :=
  mkDatabase (online d) (users d) (rooms d) (room_members d) (messages d)
             (messages_id_seq d) rs.

(** ** Room members *)

(** [SELECT EXISTS(SELECT 1 FROM room_members WHERE room_id = $1 AND
    user_id = $2)], scanned into [exists]; on error [exists] keeps its
    zero value. *)
Definition IsRoomMember (d : Database) (roomID userID : N) : bool * option error :=
  if online d
  then (bool_decide ((roomID, userID) ∈ room_members d), None)
  else (false, Some ErrConn).

(** ** Messages *)

Definition live (m : Message) : bool :=
  match DeletedAt m with
  | None => true
  | Some _ => false
  end.

(** [SELECT ... FROM messages WHERE id = $1 AND deleted_at IS NULL]; the
    function returns [&msg] in every case, the zero message when Scan
    fails. *)
Definition GetMessageByID (d : Database) (messageID : Z) : Message * option error :=
  if online d then
    match List.find (fun m => (ID m =? messageID) && live m) (messages d) with
    | Some m => (m, None)
    | None => (zeroMessage, Some ErrNoRows)
    end
  else (zeroMessage, Some ErrConn).

(** [pool.Query(ctx, text, args...)]: the statement is prepared with the
    bound arguments, then [run] (the relational reading of the text) is
    evaluated. *)
Definition Query {A : Type} (d : Database) (text : string) (nargs : nat)
    (run : error + A) : error + A :=
  if online d then
    if sql.prepares text nargs then run else inl ErrSyntax
  else inl ErrConn.

(** [LIMIT n]. *)
Definition limit_rows (limit : Z) (l : list Message) : error + list Message :=
  if limit <? 0 then inl ErrLimit else inr (firstn (Z.to_nat limit) l).

Definition newer_first (a b : Message) : bool := CreatedAt b <=? CreatedAt a.

(** The raw string of the source, its line breaks and indentation
    collapsed to single spaces. *)
Definition GetRoomMessages_base : string :=
  "SELECT id, room_id, user_id, content, message_type, file_url, parent_id, edited_at, deleted_at, created_at FROM messages WHERE room_id = $1 AND deleted_at IS NULL".

(** The text and the number of arguments [GetRoomMessages] hands to the
    pool. *)
Definition GetRoomMessages_query (before : Z) : string * nat :=
  let query := GetRoomMessages_base in
  let args := 1%nat in
  let '(query, args) :=
    if 0 <? before then (query +:+ " AND id < $2", S args) else (query, args) in
  let query := query +:+ " ORDER BY created_at DESC LIMIT $"
                     +:+ gostring.string_of_rune (Z.of_nat args + 1) in
  (query, S args).

Definition GetRoomMessages (d : Database) (roomID : N) (limit before : Z)
    : list Message * option error :=
  let '(query, nargs) := GetRoomMessages_query before in
  let selected :=
    List.filter (fun m => (RoomID m =? roomID)%N && live m
                          && (if 0 <? before then ID m <? before else true))
                (messages d) in
  match Query d query nargs (limit_rows limit (rows.sort_by newer_first selected)) with
  | inl err => ([], Some err)
  | inr messages => (messages, None)
  end.

Definition valid_message_type (t : string) : bool :=
  String.eqb t "text" || String.eqb t "image" || String.eqb t "file".

Definition message_exists (d : Database) (id : Z) : bool :=
  existsb (fun m => ID m =? id) (messages d).

(** [INSERT INTO messages (room_id, user_id, content, message_type,
    file_url, parent_id) VALUES ($1..$6) RETURNING id, created_at], run
    through [db.pool.QueryRow]: the statement takes a connection of the
    pool for itself and is committed on its own when it succeeds. The id
    comes from the sequence (a failed insert still consumes a value),
    [created_at] is the server's [NOW()], [edited_at] and [deleted_at] are
    NULL. The constraints are those of the schema: the CHECK on
    [message_type] and the foreign keys to rooms, users and messages.
    A text argument the server does not accept fails the statement when
    it is bound, before anything is evaluated. On success Scan stores the
    id and the creation time in [msg]. *)
Definition CreateMessage (d : Database) (now : Z) (msg : Message)
    : Database * Message * option error :=
  if online d then
    if negb (sql.text_accepted (Content msg) && sql.text_accepted (MessageType msg)
             && sql.text_accepted (FileURL msg))
    then (d, msg, Some ErrEncoding) else
    let id := messages_id_seq d + 1 in
    let burnt := set_messages d (messages d) id in
    if negb (valid_message_type (MessageType msg)) then
      (burnt, msg, Some (ErrCheck "messages_message_type_check"))
    else if negb (bool_decide (RoomID msg ∈ rooms d)) then
      (burnt, msg, Some (ErrForeignKey "messages_room_id_fkey"))
    else if negb (bool_decide (UserID msg ∈ users d)) then
      (burnt, msg, Some (ErrForeignKey "messages_user_id_fkey"))
    else if negb (match ParentID msg with
                  | None => true
                  | Some p => message_exists d p
                  end) then
      (burnt, msg, Some (ErrForeignKey "messages_parent_id_fkey"))
    else
      let row := mkMessage id (RoomID msg) (UserID msg) (Content msg)
                           (MessageType msg) (FileURL msg) (ParentID msg)
                           None None now in
      (set_messages d (messages d ++ [row]) id, set_ID_CreatedAt msg id now, None)
  else (d, msg, Some ErrConn).

Section FullTextSearch.

(** The text-search machinery of the server is outside the repository:
    [tsv_matches content q] stands for [tsv @@ plainto_tsquery('english',
    q)] on the generated column of a row with that content, and [ts_rank]
    for the rank of the row, of which only the order is used. *)
Variable tsv_matches : string -> string -> bool.
Variable ts_rank : string -> string -> Z.

Definition SearchMessages_base : string :=
  "SELECT id, room_id, user_id, content, message_type, file_url, parent_id, edited_at, deleted_at, created_at FROM messages WHERE room_id = $1 AND deleted_at IS NULL AND tsv @@ plainto_tsquery('english', $2)".

(** The text and the number of arguments [SearchMessages] hands to the
    pool. *)
Definition SearchMessages_query (senderID : option N) (beforeTime afterTime : option Z)
    : string * nat :=
  let baseQuery := SearchMessages_base in
  let paramIndex := 3%nat in
  let '(baseQuery, paramIndex) :=
    match senderID with
    | Some _ => (baseQuery +:+ " AND user_id = $" +:+ gostring.itoa paramIndex, S paramIndex)
    | None => (baseQuery, paramIndex)
    end in
  let '(baseQuery, paramIndex) :=
    match beforeTime with
    | Some _ => (baseQuery +:+ " AND created_at < $" +:+ gostring.itoa paramIndex, S paramIndex)
    | None => (baseQuery, paramIndex)
    end in
  let '(baseQuery, paramIndex) :=
    match afterTime with
    | Some _ => (baseQuery +:+ " AND created_at > $" +:+ gostring.itoa paramIndex, S paramIndex)
    | None => (baseQuery, paramIndex)
    end in
  let baseQuery :=
    baseQuery +:+ " ORDER BY ts_rank(tsv, plainto_tsquery('english', $2)) DESC, created_at DESC LIMIT $"
              +:+ gostring.itoa paramIndex in
  (baseQuery, paramIndex).

Definition search_selects (roomID : N) (query : string) (senderID : option N)
    (beforeTime afterTime : option Z) (m : Message) : bool :=
  (RoomID m =? roomID)%N && live m && tsv_matches (Content m) query
  && match senderID with Some s => (UserID m =? s)%N | None => true end
  && match beforeTime with Some t => CreatedAt m <? t | None => true end
  && match afterTime with Some t => t <? CreatedAt m | None => true end.

(** [ORDER BY ts_rank(...) DESC, created_at DESC]. *)
Definition best_first (query : string) (a b : Message) : bool :=
  let ra := ts_rank (Content a) query in
  let rb := ts_rank (Content b) query in
  (rb <? ra) || ((rb =? ra) && (CreatedAt b <=? CreatedAt a)).

Definition SearchMessages (d : Database) (roomID : N) (query : string) (limit : Z)
    (senderID : option N) (beforeTime afterTime : option Z)
    : list Message * option error :=
  let '(text, nargs) := SearchMessages_query senderID beforeTime afterTime in
  let selected :=
    List.filter (search_selects roomID query senderID beforeTime afterTime)
                (messages d) in
  match Query d text nargs
              (if sql.text_accepted query
               then limit_rows limit (rows.sort_by (best_first query) selected)
               else inl ErrEncoding) with
  | inl err => ([], Some err)
  | inr messages => (messages, None)
  end.

End FullTextSearch.

(** ** Read receipts *)

Definition same_receipt (messageID : Z) (userID : N) (r : MessageRead) : bool :=
  (MessageID r =? messageID) && (ReaderID r =? userID)%N.

Definition receipts_of (d : Database) (messageID : Z) (userID : N) : list MessageRead :=
  List.filter (same_receipt messageID userID) (message_reads d).

(** [INSERT INTO message_reads (message_id, user_id) VALUES ($1, $2) ON
    CONFLICT DO NOTHING]: a row with the same primary key (message_id,
    user_id) makes the statement a successful no-op; otherwise the row is
    inserted with [read_at = NOW()], provided the foreign keys to
    messages and users hold. *)
Definition MarkMessageRead (d : Database) (now : Z) (messageID : Z) (userID : N)
    : Database * option error :=
  if online d then
    if existsb (same_receipt messageID userID) (message_reads d) then (d, None)
    else if negb (message_exists d messageID) then
      (d, Some (ErrForeignKey "message_reads_message_id_fkey"))
    else if negb (bool_decide (userID ∈ users d)) then
      (d, Some (ErrForeignKey "message_reads_user_id_fkey"))
    else
      (set_message_reads d (message_reads d ++ [mkMessageRead messageID userID now]), None)
  else (d, Some ErrConn).

(** ** Transactions *)

(** A [pgx.Tx] obtained from [pool.Begin]: it owns a connection of its
    own, and the rows written through it stay pending until Commit.
    Rollback drops them. *)
Record Tx := mkTx {
  pending : list Message
}.

Definition Begin (d : Database) : error + Tx :=
  if online d then inr (mkTx []) else inl ErrConn.

Definition Commit (d : Database) (x : Tx) : Database * option error :=
  if online d
  then (set_messages d (messages d ++ pending x) (messages_id_seq d), None)
  else (d, Some ErrConn).

Definition Rollback (d : Database) (x : Tx) : Database := d.

End db.

(* ===================================================================== *)
(** * internal/persistence: the message writer *)
(* ===================================================================== *)

Module persistence.
Import models.

Definition maxRetries : nat := 5.
Definition initialBackoff : Z := 100 * time.Millisecond.

(** The [message_delivered] event published after a commit. *)
Record Delivered := mkDelivered {
  message_id : Z;
  room_id : N;
  user_id : N;
  timestamp : Z;
  content : string
}.

(** What [writeBatch] acts on: the durable store, the reachability of the
    server at each of the coming round trips (a transient fault is a
    [false]; once the list is used up the server stays as it is), the
    clock, and the two Redis effects, the sorted-set entries (room,
    score in milliseconds, member) and the publications on
    [messages_delivered]. *)
Record World := mkWorld {
  store : db.Database;
  net : list bool;
  clock : Z;
  cached : list (N * Z * Z);
  published : list Delivered
}.

Definition with_store (w : World) (d : db.Database) : World :=
  mkWorld d (net w) (clock w) (cached w) (published w).

(** The next round trip to the server. *)
Definition dial (w : World) : World :=
  match net w with
  | [] => w
  | up :: rest =>
      mkWorld (db.set_online up (store w)) rest (clock w) (cached w) (published w)
  end.

(** [time.Sleep(d)]. *)
Definition Sleep (w : World) (d : Z) : World :=
  mkWorld (store w) (net w) (clock w + d) (cached w) (published w).

(** [initialBackoff * time.Duration(math.Pow(2, float64(i)))]. *)
Definition backoff (i : nat) : Z := initialBackoff * 2 ^ Z.of_nat i.

(** The inner loop of an attempt: [mw.db.CreateMessage(ctx, msg)] for each
    message in order, stopping at the first error. The messages are
    pointers, so the ones already inserted keep the id and creation time
    Scan gave them. *)
Fixpoint insert_each (w : World) (batch : list Message)
    : World * list Message * option db.error :=
  match batch with
  | [] => (w, [], None)
  | msg :: rest =>
      let w := dial w in
      let '(d, msg', err) := db.CreateMessage (store w) (clock w) msg in
      let w := with_store w d in
      match err with
      | Some e => (w, msg' :: rest, Some e)
      | None =>
          let '(w, rest', err') := insert_each w rest in
          (w, msg' :: rest', err')
      end
  end.

(** [cacheMessage]: ZADD room:<id>:messages with the creation time in
    milliseconds as score. *)
Definition cacheMessage (w : World) (msg : Message) : World :=
  mkWorld (store w) (net w) (clock w)
          (cached w ++ [(RoomID msg, CreatedAt msg / 1000000, ID msg)])
          (published w).

Definition publish (w : World) (msg : Message) : World :=
  mkWorld (store w) (net w) (clock w) (cached w)
          (published w ++ [mkDelivered (ID msg) (RoomID msg) (UserID msg)
                                       (CreatedAt msg) (Content msg)]).

Definition announce (w : World) (batch : list Message) : World :=
  fold_left (fun w msg => publish (cacheMessage w msg) msg) batch w.

Inductive outcome :=
| Persisted
| GaveUp (lastErr : option db.error).

(** The retry loop of [writeBatch], from attempt [i] with [left] attempts
    to go ([i + left = maxRetries]). *)
Fixpoint attempts (left i : nat) (lastErr : option db.error)
    (w : World) (batch : list Message) : World * list Message * outcome :=
  match left with
  | O => (w, batch, GaveUp lastErr)
  | S left' =>
      let w := dial w in
      match db.Begin (store w) with
      | inl e =>
          attempts left' (S i) (Some e) (Sleep w (backoff i)) batch
      | inr x =>
          let '(w, batch, err) := insert_each w batch in
          match err with
          | Some e =>
              let w := dial w in
              let w := with_store w (db.Rollback (store w) x) in
              attempts left' (S i) (Some e) (Sleep w (backoff i)) batch
          | None =>
              let w := dial w in
              match db.Commit (store w) x with
              | (_, Some e) =>
                  attempts left' (S i) (Some e) (Sleep w (backoff i)) batch
              | (d, None) =>
                  (announce (with_store w d) batch, batch, Persisted)
              end
          end
      end
  end.

Definition writeBatch (w : World) (batch : list Message)
    : World * list Message * outcome :=
  match batch with
  | [] => (w, batch, Persisted)
  | _ => attempts maxRetries 0 None w batch
  end.

(** ** The queue *)

Definition queueCapacity : nat := 1000.

(** The two channels of [MessageWriter] a producer sees: the buffered
    [messageQueue] and [done], closed by [Stop]. *)
Record MessageWriter := mkMessageWriter {
  messageQueue : list Message;
  done : bool
}.

Definition running (mw : MessageWriter) : Prop := done mw = false.

Inductive selected :=
| Sent (mw : MessageWriter)     (* case mw.messageQueue <- msg *)
| Stopped                       (* case <-mw.done *)
| Parked.                       (* no case ready; there is no default *)

(** One evaluation of the [select] of [QueueMessage]. When both cases are
    ready the runtime chooses; [pick] is its choice. *)
Definition QueueMessage_select (pick : bool) (mw : MessageWriter) (msg : Message)
    : selected :=
  let can_send := (length (messageQueue mw) <? queueCapacity)%nat in
  let sent := Sent (mkMessageWriter (messageQueue mw ++ [msg]) (done mw)) in
  match can_send, done mw with
  | true, true => if pick then sent else Stopped
  | true, false => sent
  | false, true => Stopped
  | false, false => Parked
  end.

(** What the other goroutines may do to the two channels while a producer
    is parked. *)
Inductive other :=
| Receive                        (* batchWriter takes a message *)
| Close                          (* Stop closes done *)
| Elsewhere.                     (* anything that touches neither channel *)

Definition act (o : other) (mw : MessageWriter) : MessageWriter :=
  match o with
  | Receive => mkMessageWriter (tail (messageQueue mw)) (done mw)
  | Close => mkMessageWriter (messageQueue mw) true
  | Elsewhere => mw
  end.

Inductive returned :=
| Enqueued (mw : MessageWriter)
| Dropped (mw : MessageWriter)
| StillParked (mw : MessageWriter).

(** A call of [QueueMessage] against a schedule of the other goroutines:
    the select is evaluated, and a parked producer is woken to evaluate it
    again after each step of the others. *)
Fixpoint QueueMessage (pick : bool) (others : list other)
    (mw : MessageWriter) (msg : Message) : returned :=
  match QueueMessage_select pick mw msg with
  | Sent mw' => Enqueued mw'
  | Stopped => Dropped mw
  | Parked =>
      match others with
      | [] => StillParked mw
      | o :: others' => QueueMessage pick others' (act o mw) msg
      end
  end.

End persistence.

(* ===================================================================== *)
(** * internal/rooms *)
(* ===================================================================== *)

Module rooms.
Import models.

(** ** Frames and events *)

(** A decoded JSON value ([interface{}] after [json.Unmarshal]); a number
    is the float64 the decoder produced, kept as the fraction it is equal
    to. Objects nested in a frame keep their fields as a list. *)
#[warnings="-register-all"]
Inductive JSON :=
| JNull
| JBool (b : bool)
| JNumber (num : Z) (den : positive)
| JString (s : string)
| JArray (items : list JSON)
| JObject (fields : list (string * JSON)).

(** What travels through [Room.broadcast] and [Client.send]
    ([interface{}] in the source). *)
Inductive Event :=
| UserEvent (type : string) (user_id room_id : N)     (* join / leave *)
| TypingUpdate (user_id : N) (is_typing : bool)
| Frame (msg : gmap string JSON)                       (* re-broadcast as is *)
| Payload (p : string).                                (* from the sync engine *)

(** ** Clients *)

Definition sendCapacity : nat := 256.
Definition broadcastCapacity : nat := 256.

(** [Client]: [room] is the id of the room the client points to, [send]
    the buffered outbound channel with its closed flag. *)
Record Client := mkClient {
  room : N;
  userID : N;
  send : list Event;
  closed : bool
}.

Definition NewClient (roomID userID : N) : Client :=
  mkClient roomID userID [] false.

(** [select { case client.send <- message: default: }]. *)
Definition offer (message : Event) (c : Client) : Client :=
  if (length (send c) <? sendCapacity)%nat
  then mkClient (room c) (userID c) (send c ++ [message]) (closed c)
  else c.

(** [close(client.send)]. *)
Definition close_send (c : Client) : Client :=
  mkClient (room c) (userID c) (send c) true.

(** ** Rooms *)

(** [Room]: the clients are keyed by their address, [broadcast] is the
    buffered inbox, [typingTrackers] maps a user to the instant of the
    last typing_start. *)
Record Room := mkRoom {
  ID : N;
  clients : gmap nat Client;
  broadcast : list Event;
  broadcast_closed : bool;
  typingTrackers : gmap N Z
}.

Definition set_clients (r : Room) (cs : gmap nat Client) : Room :=
  mkRoom (ID r) cs (broadcast r) (broadcast_closed r) (typingTrackers r).

Definition set_broadcast (r : Room) (q : list Event) : Room :=
  mkRoom (ID r) (clients r) q (broadcast_closed r) (typingTrackers r).

Definition set_typingTrackers (r : Room) (t : gmap N Z) : Room :=
  mkRoom (ID r) (clients r) (broadcast r) (broadcast_closed r) t.

(** How a send on the inbox of a room ends. *)
Inductive sending :=
| Buffered (r : Room)           (* the event is last in the buffer *)
| Blocks                        (* the buffer is full: the sender waits *)
| Panics.                       (* the inbox is closed: send on closed channel *)

(** [r.broadcast <- event]: a send on a closed channel panics, whatever
    is in the buffer; on an open one it goes through when the buffer has
    room and blocks otherwise. *)
Definition broadcast_send (r : Room) (event : Event) : sending :=
  if broadcast_closed r then Panics
  else if (length (broadcast r) <? broadcastCapacity)%nat
  then Buffered (set_broadcast r (broadcast r ++ [event]))
  else Blocks.

(** The room after a send that went through; [None] when the send does
    not complete (the sender blocks, or panics). *)
Definition send_broadcast (r : Room) (event : Event) : option Room :=
  match broadcast_send r event with
  | Buffered r => Some r
  | Blocks | Panics => None
  end.

(** [HandleTypingEvent]. *)
Definition HandleTypingEvent (r : Room) (now : Z) (userID : N) (isTyping : bool)
    : option Room :=
  let trackers :=
    if isTyping then <[userID := now]> (typingTrackers r)
    else delete userID (typingTrackers r) in
  send_broadcast (set_typingTrackers r trackers) (TypingUpdate userID isTyping).

(** The ticker case of [handleRoom]: entries whose age exceeds three
    seconds are deleted. *)
Definition typingExpiry : Z := 3 * time.Second.
Definition tickPeriod : Z := 5 * time.Second.

Definition stale (now lastTyping : Z) : bool :=
  typingExpiry <? time.Sub now lastTyping.

Definition expire_typing (now : Z) (r : Room) : Room :=
  set_typingTrackers r
    (filter (fun kv => stale now (snd kv) = false) (typingTrackers r)).

(** The broadcast case of [handleRoom], after the message was received:
    every client is offered the message without blocking. *)
Definition fan_out (message : Event) (r : Room) : Room :=
  set_clients r (offer message <$> clients r).

(** ** The manager *)

(** [Manager]: the registry map, the last-activity map, the
    [unregisterRoom] channel, and the one-shot probes that are asleep
    (the instant each wakes, and the room id it will send). *)
Record Manager := mkManager {
  rooms : gmap N Room;
  lastActivity : gmap N Z;
  unregisterRoom : list N;
  probes : list (Z * N)
}.

Definition NewManager : Manager := mkManager ∅ ∅ [] [].

Definition set_rooms (m : Manager) (rs : gmap N Room) : Manager :=
  mkManager rs (lastActivity m) (unregisterRoom m) (probes m).

Definition touch (m : Manager) (roomID : N) (now : Z) : Manager :=
  mkManager (rooms m) (<[roomID := now]> (lastActivity m))
            (unregisterRoom m) (probes m).

(** [GetOrCreateRoom]. *)
Definition GetOrCreateRoom (m : Manager) (now : Z) (roomID : N) : Manager :=
  match rooms m !! roomID with
  | Some _ => touch m roomID now
  | None =>
      let room := mkRoom roomID ∅ [] false ∅ in
      touch (set_rooms m (<[roomID := room]> (rooms m))) roomID now
  end.

(** [removeRoom]: the entry is deleted whenever it exists and the inbox of
    the room is closed; the function also returns the room it removed. *)
Definition removeRoom (m : Manager) (roomID : N) : Manager * option Room :=
  match rooms m !! roomID with
  | Some room =>
      (set_rooms m (delete roomID (rooms m)),
       Some (mkRoom (ID room) (clients room) (broadcast room) true
                    (typingTrackers room)))
  | None => (m, None)
  end.

(** [Manager.Stop]: the inbox of every room is closed; the rooms stay in
    the registry. *)
Definition Stop (m : Manager) : Manager :=
  set_rooms m ((fun room => mkRoom (ID room) (clients room) (broadcast room) true
                                   (typingTrackers room)) <$> rooms m).

(** [BroadcastUserEvent]: a send to the inbox of the room the registry
    holds under [roomID], if any. *)
Definition BroadcastUserEvent (m : Manager) (roomID userID : N) (eventType : string)
    : option Manager :=
  match rooms m !! roomID with
  | Some room =>
      room' ← send_broadcast room (UserEvent eventType userID roomID);
      Some (set_rooms m (<[roomID := room']> (rooms m)))
  | None => Some m
  end.

Definition emptyRoomGrace : Z := 1 * time.Minute.

Definition schedule_probe (m : Manager) (now : Z) (roomID : N) : Manager :=
  mkManager (rooms m) (lastActivity m) (unregisterRoom m)
            (probes m ++ [(now + emptyRoomGrace, roomID)]).

(** The cases of [handleRoom] for the room the registry holds under
    [roomID]; [p] is the address of the client. A step is [None] when
    the send of the loop to its own inbox does not complete. The
    unregister case also returns the client it detached, whose [send] it
    closed. *)
Definition handle_register (m : Manager) (now : Z) (roomID : N) (p : nat) (c : Client)
    : option Manager :=
  match rooms m !! roomID with
  | Some room =>
      let room := set_clients room (<[p := c]> (clients room)) in
      let m := set_rooms m (<[roomID := room]> (rooms m)) in
      let m := touch m roomID now in
      BroadcastUserEvent m roomID (userID c) "join"
  | None => Some m
  end.

Definition handle_unregister (m : Manager) (now : Z) (roomID : N) (p : nat)
    : option (Manager * option Client) :=
  match rooms m !! roomID with
  | Some room =>
      '(m, gone) ← match clients room !! p with
                   | Some c =>
                       let room := set_clients room (delete p (clients room)) in
                       let m := set_rooms m (<[roomID := room]> (rooms m)) in
                       m ← BroadcastUserEvent m roomID (userID c) "leave";
                       Some (m, Some (close_send c))
                   | None => Some (m, None)
                   end;
      room ← rooms m !! roomID;
      if bool_decide (size (clients room) = 0%nat)
      then Some (schedule_probe m now roomID, gone)
      else Some (m, gone)
  | None => Some (m, None)
  end.

Definition handle_broadcast (m : Manager) (now : Z) (roomID : N) : Manager :=
  match rooms m !! roomID with
  | Some room =>
      match broadcast room with
      | message :: rest =>
          let m := touch m roomID now in
          let room := fan_out message (set_broadcast room rest) in
          set_rooms m (<[roomID := room]> (rooms m))
      | [] => m
      end
  | None => m
  end.

Definition handle_tick (m : Manager) (now : Z) (roomID : N) : Manager :=
  match rooms m !! roomID with
  | Some room => set_rooms m (<[roomID := expire_typing now room]> (rooms m))
  | None => m
  end.

(** A probe whose minute has passed sends its room id on
    [unregisterRoom] (a probe that finds the channel full waits and sends
    later; the model lets it through). *)
Definition probe_wakes (m : Manager) (now : Z) : Manager :=
  let '(due, asleep) := List.partition (fun pr => fst pr <=? now) (probes m) in
  mkManager (rooms m) (lastActivity m) (unregisterRoom m ++ map snd due) asleep.

(** The [unregisterRoom] case of [Manager.Start]. *)
Definition Start_unregisterRoom (m : Manager) : Manager * option Room :=
  match unregisterRoom m with
  | roomID :: rest =>
      removeRoom (mkManager (rooms m) (lastActivity m) rest (probes m)) roomID
  | [] => (m, None)
  end.

Definition evictionInterval : Z := 1 * time.Minute.
Definition inactivityThreshold : Z := 10 * time.Minute.

(** The body of the sweep for one entry of [lastActivity]. *)
Definition evict_one (now : Z) (m : Manager) (entry : N * Z) : Manager :=
  let '(roomID, lastActive) := entry in
  if inactivityThreshold <? time.Sub now lastActive then
    match rooms m !! roomID with
    | Some room =>
        if bool_decide (size (clients room) = 0%nat)
        then mkManager (delete roomID (rooms m)) (delete roomID (lastActivity m))
                       (unregisterRoom m) (probes m)
        else m
    | None => m
    end
  else m.

(** One tick of [evictColdRooms]: the loop over [lastActivity]. *)
Definition evictColdRooms (m : Manager) (now : Z) : Manager :=
  fold_left (evict_one now) (map_to_list (lastActivity m)) m.

(** ** The read pump *)

(** The calls [readPump] makes on its collaborators for one frame. *)
Inductive effect :=
| Log (line : string)
| QueueMessage (msg : Message)                (* c.messageWriter.QueueMessage(msg) *)
| TypingEvent (userID : N) (isTyping : bool)  (* c.room.HandleTypingEvent(...) *)
| MarkMessageRead (messageID : Z) (userID : N)
| ToBroadcast (msg : gmap string JSON).       (* c.room.broadcast <- msg *)

(** The effects that put an event in the inbox of the local room. *)
Definition reaches_room (e : effect) : bool :=
  match e with
  | TypingEvent _ _ | ToBroadcast _ => true
  | Log _ | QueueMessage _ | MarkMessageRead _ _ => false
  end.

(** [v.(string)] and [v.(float64)] on a field that may be absent. *)
Definition as_string (v : option JSON) : option string :=
  match v with
  | Some (JString s) => Some s
  | _ => None
  end.

Definition as_float64 (v : option JSON) : option (Z * positive) :=
  match v with
  | Some (JNumber num den) => Some (num, den)
  | _ => None
  end.

(** [int64(f)]: truncation towards zero when the result is an int64. For
    a value outside the range the language leaves the result to the
    implementation; the model gives that of amd64, where the conversion
    yields the smallest int64. *)
Definition int64_of_float64 (f : Z * positive) : Z :=
  let q := Z.quot (fst f) (Z.pos (snd f)) in
  if (- 2 ^ 63 <=? q) && (q <? 2 ^ 63) then q else - 2 ^ 63.

Definition handleChatMessage (c : Client) (now : Z)
    (content messageType fileURL : string) : list effect :=
  let msg := mkMessage 0 (room c) (userID c) content messageType fileURL
                       None None None now in
  [QueueMessage msg].

Definition handleRead (c : Client) (messageID : Z) : list effect :=
  [MarkMessageRead messageID (userID c)].

(** The body of the loop of [readPump] for one frame read without error;
    [decoded] is the result of [json.Unmarshal] into a map, [None] when it
    fails, and [now] the reading of the clock. *)
Definition readPump_frame (c : Client) (now : Z)
    (decoded : option (gmap string JSON)) : list effect :=
  match decoded with
  | None => [Log "error unmarshaling message"]
  | Some msg =>
      match as_string (msg !! "type") with
      | None => [Log "message type not found or invalid"]
      | Some messageType =>
          if String.eqb messageType "message" then
            match as_string (msg !! "content") with
            | None => [Log "message content not found or invalid"]
            | Some content =>
                let fileURL := default "" (as_string (msg !! "file_url")) in
                let chatMessageType := default "" (as_string (msg !! "message_type")) in
                handleChatMessage c now content chatMessageType fileURL
            end
          else if String.eqb messageType "typing_start" then
            [TypingEvent (userID c) true]
          else if String.eqb messageType "typing_stop" then
            [TypingEvent (userID c) false]
          else if String.eqb messageType "read" then
            match as_float64 (msg !! "message_id") with
            | None => [Log "message_id for read receipt not found or invalid"]
            | Some messageID => handleRead c (int64_of_float64 messageID)
            end
          else if String.eqb messageType "message_edited"
                  || String.eqb messageType "message_deleted" then
            [ToBroadcast msg]
          else if String.eqb messageType "reaction_added"
                  || String.eqb messageType "reaction_removed" then
            [ToBroadcast msg]
          else [Log ("unknown message type: " +:+ messageType)]
      end
  end.

End rooms.

(* ===================================================================== *)
(** * internal/api: the WebSocket upgrade *)
(* ===================================================================== *)

Module api.

(** [auth.Claims], of which the handler reads the user id. *)
Record Claims := mkClaims {
  UserID : N;
  Username : string;
  Email : string
}.

(** The request as the handler reads it: its query parameters
    ([req.URL.Query().Get] gives the empty string for an absent one). *)
Record Request := mkRequest {
  query : gmap string string
}.

Definition Query_Get (req : Request) (key : string) : string :=
  default "" (query req !! key).

(** How the handler ends: an HTTP error, a failed handshake, or an
    upgraded connection, for which the handler goes on to
    [GetOrCreateRoom(roomID)], [NewClient] and [client.Start()]. *)
Inductive response :=
| HttpError (status : Z) (body : string)
| UpgradeFailed
| Upgraded (roomID userID : N).

Definition StatusBadRequest : Z := 400.
Definition StatusUnauthorized : Z := 401.
Definition StatusForbidden : Z := 403.

(** The handler got as far as calling [upgrader.Upgrade]. *)
Definition reaches_upgrade (r : response) : bool :=
  match r with
  | HttpError _ _ => false
  | UpgradeFailed | Upgraded _ _ => true
  end.

Section Handler.

(** Outside the repository: the JWT library behind [ValidateToken]
    (claims, or [None] for an error), [uuid.Parse], and the handshake of
    [upgrader.Upgrade]. *)
Variable ValidateToken : string -> option Claims.
Variable uuid_Parse : string -> option N.
Variable Upgrade : Request -> bool.

Definition WebSocketHandler (d : db.Database) (req : Request) : response :=
  let token := Query_Get req "token" in
  if String.eqb token "" then HttpError StatusUnauthorized "Missing token"
  else
    match ValidateToken token with
    | None => HttpError StatusUnauthorized "Invalid token"
    | Some claims =>
        let roomIDStr := Query_Get req "room_id" in
        if String.eqb roomIDStr "" then HttpError StatusBadRequest "Missing room_id"
        else
          match uuid_Parse roomIDStr with
          | None => HttpError StatusBadRequest "Invalid room_id"
          | Some roomID =>
              let '(isMember, err) := db.IsRoomMember d roomID (UserID claims) in
              if bool_decide (err ≠ None) || negb isMember
              then HttpError StatusForbidden "Not a member of this room"
              else if Upgrade req then Upgraded roomID (UserID claims)
              else UpgradeFailed
          end
    end.

End Handler.

End api.

(* ===================================================================== *)
(** * Properties of the SQL surface *)
(* ===================================================================== *)

Section PlaceholderLexing.
Import gostring sql.

Lemma fmap_cons_None (n : nat) (o : option (list nat)) :
  o = None -> cons n <$> o = None.
Proof. intros ->. reflexivity. Qed.

(** A text that ends with a [$] followed by one character that is not a
    decimal digit does not lex, whatever comes before. *)
Lemma params_from_dangling_dollar (c : ascii) :
  is_digit c = false ->
  forall (s : string) (st : lexstate),
    params_from (s +:+ String "$" (String c EmptyString)) st = None.
Proof.
  intros Hc. induction s as [|a s IH]; intros st.
  - destruct st; simpl; rewrite ?Hc; reflexivity.
  - simpl. destruct st.
    + destruct (Ascii.eqb a "$"); apply IH.
    + destruct (is_digit a); [apply IH | reflexivity].
    + destruct (is_digit a); [apply IH |].
      destruct (Ascii.eqb a "$"); apply fmap_cons_None, IH.
Qed.

End PlaceholderLexing.

(** ** Text arguments *)

Section TextArguments.
Import sql.

(** A text the server accepts has no zero byte. *)
Lemma utf8_from_no_zero (s : string) :
  forall need lo hi,
    (0 < lo)%N -> utf8_from need lo hi s = true ->
    forall c, In c (list_ascii_of_string s) -> c <> Ascii.zero.
Proof.
  induction s as [|a s IH]; simpl; intros need lo hi Hlo Hok c Hc; [tauto|].
  assert (Hhead : N_of_ascii a <> 0%N -> a <> Ascii.zero).
  { intros Hn ->. now apply Hn. }
  destruct need as [|need].
  - destruct (N.eqb_spec (N_of_ascii a) 0) as [|Hnz]; [discriminate|].
    destruct Hc as [<-|Hc]; [now apply Hhead|].
    repeat match type of Hok with
           | (if ?b then _ else _) = true => destruct b
           end;
      try discriminate; eapply IH; try exact Hok; try exact Hc; reflexivity.
  - destruct ((lo <=? N_of_ascii a)%N && (N_of_ascii a <=? hi)%N) eqn:Hrange;
      [|discriminate].
    apply andb_true_iff in Hrange as [Hge _]. apply N.leb_le in Hge.
    destruct Hc as [<-|Hc]; [apply Hhead; lia|].
    eapply IH; try exact Hok; try exact Hc. reflexivity.
Qed.

Lemma text_accepted_no_zero (s : string) :
  text_accepted s = true -> ~ In Ascii.zero (list_ascii_of_string s).
Proof.
  intros Hok Hin.
  now apply (utf8_from_no_zero s 0 128 191 ltac:(reflexivity) Hok Ascii.zero Hin).
Qed.

Example text_accepted_plain : text_accepted "hello again" = true.
Proof. reflexivity. Qed.

Example text_accepted_zero_byte :
  text_accepted (String "h" (String Ascii.zero "i")) = false.
Proof. reflexivity. Qed.

Example text_accepted_two_byte_form :
  text_accepted (String (ascii_of_N 195) (String (ascii_of_N 169) "")) = true.
Proof. reflexivity. Qed.

Example text_accepted_overlong_form :
  text_accepted (String (ascii_of_N 192) (String (ascii_of_N 128) "")) = false.
Proof. reflexivity. Qed.

Example text_accepted_surrogate :
  text_accepted
    (String (ascii_of_N 237) (String (ascii_of_N 160) (String (ascii_of_N 128) "")))
  = false.
Proof. reflexivity. Qed.

Example text_accepted_cut_short : text_accepted (String (ascii_of_N 195) "") = false.
Proof. reflexivity. Qed.

End TextArguments.

Section ReadPaths.
Import models db.

Lemma In_insert_by {A} (before : A -> A -> bool) (x y : A) (l : list A) :
  In y (rows.insert_by before x l) -> y = x \/ In y l.
Proof.
  induction l as [|z l IH]; simpl.
  - intros [->|[]]. now left.
  - destruct (before x z); simpl.
    + intros [->|[->|H]]; auto.
    + intros [->|H]; auto. destruct (IH H); auto.
Qed.

Lemma In_sort_by {A} (before : A -> A -> bool) (y : A) (l : list A) :
  In y (rows.sort_by before l) -> In y l.
Proof.
  induction l as [|x l IH]; simpl; [tauto|].
  intros H. apply In_insert_by in H as [->|H]; auto.
Qed.

Lemma In_firstn {A} (n : nat) (y : A) (l : list A) :
  In y (firstn n l) -> In y l.
Proof.
  revert l. induction n as [|n IH]; intros [|x l]; simpl; try tauto.
  intros [->|H]; auto.
Qed.

(** Whatever [Query] returns comes from the rows the relational reading
    selected. *)
Lemma In_limit_sorted (before : Message -> Message -> bool) (sel : Message -> bool)
    (d : Database) (text : string) (nargs : nat) (limit : Z)
    (out : list Message) (y : Message) :
  Query d text nargs
        (limit_rows limit (rows.sort_by before (List.filter sel (messages d))))
    = inr out ->
  In y out -> In y (messages d) /\ sel y = true.
Proof.
  unfold Query, limit_rows.
  destruct (online d); [|discriminate].
  destruct (sql.prepares text nargs); [|discriminate].
  destruct (limit <? 0); [discriminate|].
  intros [= <-] Hy.
  apply In_firstn, In_sort_by in Hy. now apply filter_In in Hy.
Qed.

End ReadPaths.

(** The query [GetRoomMessages] builds always ends with a [$] followed by
    the byte 2 (no [before]) or 3 (with [before]), never by a digit. *)
Lemma GetRoomMessages_query_shape (before : Z) :
  db.GetRoomMessages_query before =
    if 0 <? before
    then ((db.GetRoomMessages_base +:+ " AND id < $2"
            +:+ " ORDER BY created_at DESC LIMIT ")
            +:+ String "$" (String (ascii_of_nat 3) EmptyString), 3%nat)
    else ((db.GetRoomMessages_base +:+ " ORDER BY created_at DESC LIMIT ")
            +:+ String "$" (String (ascii_of_nat 2) EmptyString), 2%nat).
Proof.
  unfold db.GetRoomMessages_query. destruct (0 <? before); reflexivity.
Qed.

Lemma GetRoomMessages_query_rejected (before : Z) :
  sql.params (fst (db.GetRoomMessages_query before)) = None.
Proof.
  rewrite GetRoomMessages_query_shape. unfold sql.params.
  destruct (0 <? before); simpl fst;
    apply params_from_dangling_dollar; reflexivity.
Qed.

(** C10. For every room, limit and [before], the text [GetRoomMessages]
    builds ends its LIMIT clause with [$] followed by the control character
    U+0002 (U+0003 when [before > 0]) where the digit 2 (3) was meant; the
    text therefore has no valid numbered placeholder for the limit, the
    statement is refused, and the call returns an error and no message,
    whatever the store holds. *)
Theorem GetRoomMessages_always_errors :
  forall (d : db.Database) (roomID : N) (limit before : Z),
    let k := if 0 <? before then 3%nat else 2%nat in
    (exists pre : string,
        fst (db.GetRoomMessages_query before)
          = pre +:+ " LIMIT $" +:+ gostring.string_of_rune (Z.of_nat k)
        /\ gostring.string_of_rune (Z.of_nat k) = String (ascii_of_nat k) EmptyString
        /\ gostring.string_of_rune (Z.of_nat k) <> gostring.itoa k)
    /\ sql.params (fst (db.GetRoomMessages_query before)) = None
    /\ sql.prepares (fst (db.GetRoomMessages_query before))
                    (snd (db.GetRoomMessages_query before)) = false
    /\ exists e : db.error,
        db.GetRoomMessages d roomID limit before = ([], Some e).
Proof.
  intros d roomID limit before k.
  assert (Hrej := GetRoomMessages_query_rejected before).
  assert (Hprep : sql.prepares (fst (db.GetRoomMessages_query before))
                               (snd (db.GetRoomMessages_query before)) = false).
  { unfold sql.prepares. now rewrite Hrej. }
  split; [|split; [exact Hrej|split; [exact Hprep|]]].
  - subst k. unfold db.GetRoomMessages_query.
    destruct (0 <? before).
    + exists (db.GetRoomMessages_base +:+ " AND id < $2" +:+ " ORDER BY created_at DESC").
      split; [reflexivity | split; [reflexivity | discriminate]].
    + exists (db.GetRoomMessages_base +:+ " ORDER BY created_at DESC").
      split; [reflexivity | split; [reflexivity | discriminate]].
  - unfold db.GetRoomMessages.
    destruct (db.GetRoomMessages_query before) as [query nargs].
    simpl in Hprep. unfold db.Query. rewrite Hprep.
    destruct (db.online d); eauto.
Qed.

(** The statement [SearchMessages] builds with [fmt.Sprintf] does prepare,
    whichever optional filters are present. *)
Lemma SearchMessages_query_prepares
    (senderID : option N) (beforeTime afterTime : option Z) :
  let q := db.SearchMessages_query senderID beforeTime afterTime in
  sql.prepares (fst q) (snd q) = true.
Proof.
  destruct senderID, beforeTime, afterTime; vm_compute; reflexivity.
Qed.

(** ** Soft-deleted messages *)

Section Deleted.
Import models db.
Variable tsv_matches : string -> string -> bool.
Variable ts_rank : string -> string -> Z.

(** [m] is a message one of the three filtering read paths hands back. *)
Definition returned_by_read_path (d : Database) (m : Message) : Prop :=
  (exists messageID, fst (GetMessageByID d messageID) = m)
  \/ (exists roomID limit before,
        In m (fst (GetRoomMessages d roomID limit before)))
  \/ (exists roomID query limit senderID beforeTime afterTime,
        In m (fst (SearchMessages tsv_matches ts_rank d roomID query limit
                                  senderID beforeTime afterTime))).

Lemma live_DeletedAt (m : Message) : live m = true -> DeletedAt m = None.
Proof. unfold live. destruct (DeletedAt m); [discriminate | reflexivity]. Qed.

Lemma GetMessageByID_live (d : Database) (messageID : Z) :
  DeletedAt (fst (GetMessageByID d messageID)) = None.
Proof.
  unfold GetMessageByID. destruct (online d); [|reflexivity].
  destruct (List.find _ (messages d)) as [m|] eqn:Hfind; [|reflexivity].
  apply find_some in Hfind as [_ H]. simpl.
  apply andb_true_iff in H as [_ H]. now apply live_DeletedAt.
Qed.

Lemma GetRoomMessages_live (d : Database) (roomID : N) (limit before : Z) (m : Message) :
  In m (fst (GetRoomMessages d roomID limit before)) -> DeletedAt m = None.
Proof.
  unfold GetRoomMessages.
  destruct (GetRoomMessages_query before) as [query nargs].
  destruct (Query _ _ _ _) as [e|out] eqn:HQ; simpl; [tauto|].
  intros Hm. destruct (In_limit_sorted _ _ _ _ _ _ _ _ HQ Hm) as [_ H].
  apply andb_true_iff in H as [H _]. apply andb_true_iff in H as [_ H].
  now apply live_DeletedAt.
Qed.

Lemma SearchMessages_live (d : Database) (roomID : N) (query : string) (limit : Z)
    (senderID : option N) (beforeTime afterTime : option Z) (m : Message) :
  In m (fst (SearchMessages tsv_matches ts_rank d roomID query limit
                            senderID beforeTime afterTime)) ->
  DeletedAt m = None.
Proof.
  unfold SearchMessages.
  destruct (SearchMessages_query senderID beforeTime afterTime) as [text nargs].
  destruct (Query _ _ _ _) as [e|out] eqn:HQ; simpl; [tauto|].
  destruct (sql.text_accepted query);
    [|unfold Query in HQ; destruct (online d), (sql.prepares text nargs); discriminate].
  intros Hm. destruct (In_limit_sorted _ _ _ _ _ _ _ _ HQ Hm) as [_ H].
  unfold search_selects in H.
  do 4 (apply andb_true_iff in H as [H _]).
  apply andb_true_iff in H as [_ H].
  now apply live_DeletedAt.
Qed.

(** C7. Every message returned by [GetMessageByID], [GetRoomMessages] or
    [SearchMessages] has a null deleted-at; so a message whose deleted-at
    is set is returned by none of them. *)
Theorem read_paths_hide_deleted (d : Database) (m : Message) :
  returned_by_read_path d m -> DeletedAt m = None.
Proof.
  intros [[messageID <-]|[(roomID & limit & before & H)|H]].
  - apply GetMessageByID_live.
  - eapply GetRoomMessages_live, H.
  - destruct H as (roomID & query & limit & senderID & beforeTime & afterTime & H).
    eapply SearchMessages_live, H.
Qed.

End Deleted.

(** A store with one room, one user, a live message and a deleted one. *)
Definition store_two_messages : db.Database :=
  db.mkDatabase true {[ 7%N ]} {[ 1%N ]} {[ (1%N, 7%N) ]}
    [ models.mkMessage 1 1%N 7%N "hello" "text" "" None None None 1000;
      models.mkMessage 2 1%N 7%N "hello again" "text" "" None None (Some 3000) 2000 ]
    2 [].

Definition substring_matches (content q : string) : bool :=
  match index 0 q content with
  | Some _ => true
  | None => false
  end.

Definition no_rank (content q : string) : Z := 0.

Lemma read_paths_hide_deleted_witness :
  models.DeletedAt (fst (db.GetMessageByID store_two_messages 1)) = None.
Proof.
  apply (read_paths_hide_deleted substring_matches no_rank store_two_messages).
  left. exists 1. reflexivity.
Defined.

(** On that store the search does return the live row and only it, and
    asking for the deleted row by id gives the zero message and an error. *)
Example SearchMessages_returns_live_rows :
  db.SearchMessages substring_matches no_rank store_two_messages
                    1%N "hello" 10 None None None
  = ([ models.mkMessage 1 1%N 7%N "hello" "text" "" None None None 1000 ], None).
Proof. vm_compute. reflexivity. Qed.

Example GetMessageByID_deleted_row :
  db.GetMessageByID store_two_messages 2 = (models.zeroMessage, Some db.ErrNoRows).
Proof. vm_compute. reflexivity. Qed.

(** ** Read receipts *)

Section Receipts.
Import models db.

Lemma existsb_filter_nil {A} (f : A -> bool) (l : list A) :
  existsb f l = false -> List.filter f l = [].
Proof.
  induction l as [|x l IH]; simpl; [reflexivity|].
  destruct (f x); simpl; [discriminate | exact IH].
Qed.

Lemma existsb_filter_pos {A} (f : A -> bool) (l : list A) :
  existsb f l = true -> (1 <= length (List.filter f l))%nat.
Proof.
  induction l as [|x l IH]; simpl; [discriminate|].
  destruct (f x); simpl; [lia | exact IH].
Qed.

Lemma same_receipt_refl (messageID : Z) (userID : N) (now : Z) :
  same_receipt messageID userID (mkMessageRead messageID userID now) = true.
Proof.
  unfold same_receipt. simpl. rewrite Z.eqb_refl, N.eqb_refl. reflexivity.
Qed.

(** What one call does, by cases. *)
Lemma MarkMessageRead_cases (d : Database) (now : Z) (messageID : Z) (userID : N) :
  (MarkMessageRead d now messageID userID = (d, None)
     /\ existsb (same_receipt messageID userID) (message_reads d) = true)
  \/ (exists e, MarkMessageRead d now messageID userID = (d, Some e)
        /\ forall now', MarkMessageRead d now' messageID userID = (d, Some e))
  \/ (MarkMessageRead d now messageID userID
        = (set_message_reads d (message_reads d ++ [mkMessageRead messageID userID now]), None)
      /\ online d = true
      /\ existsb (same_receipt messageID userID) (message_reads d) = false).
Proof.
  unfold MarkMessageRead.
  destruct (online d) eqn:Hon; [|right; left; eauto].
  destruct (existsb _ (message_reads d)) eqn:Hex; [left; auto|].
  destruct (message_exists d messageID); simpl; [|right; left; eauto].
  destruct (bool_decide (userID ∈ users d)); simpl; [|right; left; eauto].
  right; right; auto.
Qed.

(** C9. Marking a message read is idempotent per (message, user): a second
    call leaves the store exactly as the first call left it; on a
    reachable store the first call succeeds for the id of a message and a
    user that exist, and whenever the first call succeeded the second
    succeeds too; the pair never has more than one receipt (given it had
    at most one before, as the primary key of the table ensures), and
    exactly one once a call has succeeded. *)
Theorem MarkMessageRead_idempotent
    (d : Database) (t1 t2 : Z) (messageID : Z) (userID : N) :
  let first := MarkMessageRead d t1 messageID userID in
  let second := MarkMessageRead (fst first) t2 messageID userID in
  fst second = fst first
  /\ (online d = true -> message_exists d messageID = true -> userID ∈ users d ->
      snd first = None)
  /\ (snd first = None -> snd second = None)
  /\ ((length (receipts_of d messageID userID) <= 1)%nat ->
      (length (receipts_of (fst second) messageID userID) <= 1)%nat
      /\ (snd first = None ->
          length (receipts_of (fst second) messageID userID) = 1%nat)).
Proof.
  intros first second. subst second first.
  assert (Hfirst : online d = true -> message_exists d messageID = true ->
                   userID ∈ users d ->
                   snd (MarkMessageRead d t1 messageID userID) = None).
  { intros Hon Hm Hu. unfold MarkMessageRead. rewrite Hon, Hm.
    rewrite (bool_decide_eq_true_2 _ Hu). simpl.
    destruct (existsb _ _); reflexivity. }
  destruct (MarkMessageRead_cases d t1 messageID userID)
    as [[H1 Hex]|[(e & H1 & Hall)|(H1 & Hon & Hex)]].
  - assert (H2 : MarkMessageRead d t2 messageID userID = (d, None)).
    { unfold MarkMessageRead in *.
      destruct (online d); [now rewrite Hex | discriminate]. }
    rewrite H1 in *. simpl in *. rewrite H2. simpl.
    split; [reflexivity|]. split; [exact Hfirst|]. split; [reflexivity|].
    intros Hle. split; [exact Hle|]. intros _.
    apply existsb_filter_pos in Hex. unfold receipts_of in *. lia.
  - rewrite H1 in *. simpl in *. rewrite (Hall t2). simpl.
    split; [reflexivity|]. split; [exact Hfirst|]. split; [discriminate|].
    intros Hle. split; [exact Hle | discriminate].
  - rewrite H1 in *. simpl in Hfirst |- *.
    set (d1 := set_message_reads d _).
    assert (Hex1 : existsb (same_receipt messageID userID) (message_reads d1) = true).
    { subst d1. simpl. rewrite existsb_app. simpl.
      rewrite same_receipt_refl. now rewrite orb_true_r. }
    assert (H2 : MarkMessageRead d1 t2 messageID userID = (d1, None)).
    { unfold MarkMessageRead. subst d1. simpl. rewrite Hon.
      simpl in Hex1. now rewrite Hex1. }
    rewrite H2. simpl. split; [reflexivity|]. split; [reflexivity|].
    split; [reflexivity|]. intros _.
    assert (Hone : length (receipts_of d1 messageID userID) = 1%nat).
    { subst d1. unfold receipts_of. simpl.
      rewrite List.filter_app, (existsb_filter_nil _ _ Hex). simpl.
      now rewrite same_receipt_refl. }
    split; [lia | intros _; exact Hone].
Qed.

End Receipts.

(** On the store above user 7 marks message 1 read twice: the first call
    succeeds and inserts, the second changes nothing. *)
Lemma MarkMessageRead_idempotent_witness :
  let first := db.MarkMessageRead store_two_messages 5000 1 7%N in
  let second := db.MarkMessageRead (fst first) 6000 1 7%N in
  snd first = None
  /\ fst second = fst first
  /\ snd second = None
  /\ length (db.receipts_of (fst second) 1 7%N) = 1%nat.
Proof.
  intros first second.
  destruct (MarkMessageRead_idempotent store_two_messages 5000 6000 1 7%N)
    as (Hsame & Hfst & Hok & Hone).
  assert (Hfirst : snd first = None).
  { apply Hfst; [reflexivity | reflexivity | vm_compute; set_solver]. }
  assert (Hpk : (length (db.receipts_of store_two_messages 1 7%N) <= 1)%nat)
    by (vm_compute; lia).
  split; [exact Hfirst|]. split; [exact Hsame|]. split; [exact (Hok Hfirst)|].
  exact (proj2 (Hone Hpk) Hfirst).
Defined.

(** A receipt for a message that does not exist violates the foreign key,
    on the first call and on every later one; the store is untouched. *)
Example MarkMessageRead_unknown_message :
  db.MarkMessageRead store_two_messages 5000 99 7%N
  = (store_two_messages, Some (db.ErrForeignKey "message_reads_message_id_fkey")).
Proof. vm_compute. reflexivity. Qed.

(* ===================================================================== *)
(** * Properties of the message writer *)
(* ===================================================================== *)

Section WriteBatch.
Import models db persistence.

(** A transaction of the writer never holds a row: nothing is written
    through it between Begin and Commit or Rollback. *)
Lemma Begin_pending (d : Database) (x : Tx) : Begin d = inr x -> pending x = [].
Proof. unfold Begin. destruct (online d); [intros [= <-]; reflexivity | discriminate]. Qed.

Lemma CreateMessage_appends (d : Database) (now : Z) (msg : Message) :
  exists added,
    messages (fst (fst (CreateMessage d now msg))) = messages d ++ added
    /\ (snd (CreateMessage d now msg) = None -> length added = 1%nat).
Proof.
  unfold CreateMessage.
  destruct (online d); [|exists []; simpl; rewrite app_nil_r; split; [reflexivity|discriminate]].
  repeat match goal with
         | |- context [if negb ?b then _ else _] => destruct b; simpl
         end;
    try (exists []; simpl; rewrite app_nil_r; split; [reflexivity|discriminate]).
  eexists [_]. split; reflexivity.
Qed.

Lemma dial_messages (w : World) : messages (store (dial w)) = messages (store w).
Proof. unfold dial. destruct (net w); reflexivity. Qed.

(** The rows [insert_each] writes are in the store as soon as each insert
    returns, whether or not a later insert of the batch fails. *)
Lemma insert_each_appends (batch : list Message) :
  forall w, exists added,
    messages (store (fst (fst (insert_each w batch)))) = messages (store w) ++ added.
Proof.
  induction batch as [|msg rest IH]; intros w; simpl.
  - exists []. now rewrite app_nil_r.
  - destruct (CreateMessage_appends (store (dial w)) (clock (dial w)) msg) as (a1 & Ha1 & _).
    destruct (CreateMessage _ _ msg) as [[d msg'] err]. simpl in Ha1.
    rewrite dial_messages in Ha1.
    destruct err as [e|]; simpl.
    + exists a1. exact Ha1.
    + destruct (IH (with_store (dial w) d)) as (a2 & Ha2).
      destruct (insert_each (with_store (dial w) d) rest) as [[w2 rest'] err']. simpl in *.
      exists (a1 ++ a2). now rewrite Ha2, Ha1, app_assoc.
Qed.

Lemma Rollback_keeps (d : Database) (x : Tx) : messages (Rollback d x) = messages d.
Proof. reflexivity. Qed.

(** In particular, once the first insert of a batch has succeeded its row
    is in the store at the end of the loop, whatever happens to the
    rest. *)
Lemma insert_each_keeps_first_row (w : World) (msg msg' : Message) (rest : list Message)
    (d : Database) :
  CreateMessage (store (dial w)) (clock (dial w)) msg = (d, msg', None) ->
  exists row added,
    messages (store (fst (fst (insert_each w (msg :: rest)))))
    = messages (store w) ++ row :: added.
Proof.
  intros Hfirst. simpl.
  destruct (CreateMessage_appends (store (dial w)) (clock (dial w)) msg) as (a1 & Ha1 & Hlen).
  rewrite Hfirst in *. simpl in *. rewrite dial_messages in Ha1.
  specialize (Hlen eq_refl).
  destruct a1 as [|row [|? ?]]; try discriminate.
  destruct (insert_each_appends rest (with_store (dial w) d)) as (a2 & Ha2).
  destruct (insert_each (with_store (dial w) d) rest) as [[w2 rest'] err']. simpl in *.
  exists row, a2. rewrite Ha2, Ha1. now rewrite <- app_assoc.
Qed.

End WriteBatch.

(** A store with user 7 a member of room 1 and no message yet, no
    transient fault ahead, and a batch of two messages from the same
    session: the second frame carried no [message_type], so its type is
    the empty string, which the CHECK constraint of the table refuses. *)
Definition empty_store : db.Database :=
  db.mkDatabase true {[ 7%N ]} {[ 1%N ]} {[ (1%N, 7%N) ]} [] 0 [].

Definition calm_world : persistence.World :=
  persistence.mkWorld empty_store [] 0 [] [].

Definition batch_with_bad_type : list models.Message :=
  [ models.mkMessage 0 1%N 7%N "hi" "text" "" None None None 5;
    models.mkMessage 0 1%N 7%N "oops" "" "" None None None 6 ].

(** C1. [writeBatch] on that batch: the insert of the second message fails
    in each of the five attempts and the writer gives up, yet the first
    message is in the durable store, once per attempt, because
    [CreateMessage] goes through the pool and not through the transaction
    that is rolled back. Nothing is announced. *)
Theorem writeBatch_failed_batch_leaves_rows :
  let '(w, _, out) := persistence.writeBatch calm_world batch_with_bad_type in
  out = persistence.GaveUp (Some (db.ErrCheck "messages_message_type_check"))
  /\ map models.Content (db.messages (persistence.store w)) = ["hi"; "hi"; "hi"; "hi"; "hi"]
  /\ map models.ID (db.messages (persistence.store w)) = [1; 3; 5; 7; 9]
  /\ db.messages (persistence.store calm_world) = []
  /\ persistence.published w = [].
Proof. vm_compute. repeat split; reflexivity. Qed.

(** With both types valid the same batch is stored once and announced. *)
Example writeBatch_good_batch :
  let '(w, _, out) :=
    persistence.writeBatch calm_world
      [ models.mkMessage 0 1%N 7%N "hi" "text" "" None None None 5;
        models.mkMessage 0 1%N 7%N "there" "text" "" None None None 6 ] in
  out = persistence.Persisted
  /\ map models.Content (db.messages (persistence.store w)) = ["hi"; "there"]
  /\ map persistence.message_id (persistence.published w) = [1; 2].
Proof. vm_compute. repeat split; reflexivity. Qed.

(** ** The queue *)

Section Queue.
Import models persistence.



Lemma select_parks_inv (pick : bool) (mw : MessageWriter) (msg : Message) :
  QueueMessage_select pick mw msg = Parked ->
  running mw /\ (queueCapacity <= length (messageQueue mw))%nat.
Proof.
  unfold running, QueueMessage_select.
  destruct (Nat.ltb_spec (length (messageQueue mw)) queueCapacity), (done mw), pick;
    try discriminate; auto.
Qed.






End Queue.





(* ===================================================================== *)
(** * Properties of the rooms *)
(* ===================================================================== *)

(** ** Slow clients *)

Section SlowClient.
Import rooms.

Definition backlogged (c : Client) : Prop := length (send c) = sendCapacity.

Lemma offer_backlogged (message : Event) (c : Client) :
  backlogged c -> offer message c = c.
Proof. unfold backlogged, offer. intros ->. now rewrite Nat.ltb_irrefl. Qed.

Lemma offer_roomy (message : Event) (c : Client) :
  (length (send c) < sendCapacity)%nat ->
  offer message c = mkClient (room c) (userID c) (send c ++ [message]) (closed c).
Proof.
  unfold offer. intros H. apply Nat.ltb_lt in H. now rewrite H.
Qed.

Lemma fan_out_lookup (message : Event) (r : Room) (p : nat) :
  clients (fan_out message r) !! p = offer message <$> clients r !! p.
Proof. unfold fan_out. simpl. apply lookup_fmap. Qed.

(** Broadcasts in a row, oldest first. *)
Definition fan_out_all (messages : list Event) (r : Room) : Room :=
  fold_left (fun r message => fan_out message r) messages r.

Lemma fan_out_all_backlogged (messages : list Event) :
  forall (r : Room) (p : nat) (c : Client),
    clients r !! p = Some c -> backlogged c ->
    clients (fan_out_all messages r) !! p = Some c.
Proof.
  induction messages as [|message rest IH]; intros r p c Hp Hc; simpl; [exact Hp|].
  apply IH; [|exact Hc].
  rewrite fan_out_lookup, Hp. simpl. now rewrite offer_backlogged.
Qed.

(** The property claimed of the broadcast: a client whose queue was full
    at three broadcasts in a row is then closed or detached. *)
Definition disconnects_after_three_drops : Prop :=
  forall (r : Room) (p : nat) (c : Client) (e1 e2 e3 : Event),
    clients r !! p = Some c -> backlogged c ->
    match clients (fan_out_all [e1; e2; e3] r) !! p with
    | Some c' => closed c' = true
    | None => True
    end.

(** C3, amended. A broadcast that finds the queue of a session full drops
    the frame for that session only: the session keeps its queue as it
    was, every session with room gets the frame at the end of its queue,
    and the set of attached sessions is the same. No count of drops is
    kept: after any number of consecutive drops the session is still
    attached, with the same queue and the same closed flag. *)
Theorem broadcast_drops_for_full_session_only
    (r : Room) (p : nat) (c : Client) (message : Event) (later : list Event) :
  clients r !! p = Some c -> backlogged c ->
  clients (fan_out message r) !! p = Some c
  /\ (forall q c', clients r !! q = Some c' ->
        (length (send c') < sendCapacity)%nat ->
        clients (fan_out message r) !! q
        = Some (mkClient (room c') (userID c') (send c' ++ [message]) (closed c')))
  /\ dom (clients (fan_out message r)) = dom (clients r)
  /\ clients (fan_out_all (message :: later) r) !! p = Some c.
Proof.
  intros Hp Hc. split; [|split; [|split]].
  - rewrite fan_out_lookup, Hp. simpl. now rewrite offer_backlogged.
  - intros q c' Hq Hroom. rewrite fan_out_lookup, Hq. simpl.
    now rewrite offer_roomy.
  - unfold fan_out. simpl. apply dom_fmap_L.
  - now apply fan_out_all_backlogged.
Qed.

End SlowClient.

(** A room with two attached sessions: client 1 has not read for a while
    and its queue holds 256 frames, client 2 keeps up. *)
Definition slow_client : rooms.Client :=
  rooms.mkClient 1%N 7%N (repeat (rooms.Payload "old") 256) false.

Definition fast_client : rooms.Client := rooms.mkClient 1%N 8%N [] false.

Definition room_with_slow_client : rooms.Room :=
  rooms.mkRoom 1%N (<[1%nat := slow_client]> {[ 2%nat := fast_client ]}) [] false ∅.

Lemma slow_client_backlogged : backlogged slow_client.
Proof. reflexivity. Qed.

Lemma broadcast_drops_for_full_session_only_witness :
  rooms.clients (rooms.fan_out (rooms.Payload "new") room_with_slow_client) !! 1%nat
    = Some slow_client
  /\ rooms.clients
       (fan_out_all [rooms.Payload "new"; rooms.Payload "b"; rooms.Payload "c"; rooms.Payload "d"]
                    room_with_slow_client) !! 1%nat
     = Some slow_client.
Proof.
  destruct (broadcast_drops_for_full_session_only room_with_slow_client 1 slow_client
              (rooms.Payload "new") [rooms.Payload "b"; rooms.Payload "c"; rooms.Payload "d"])
    as (H1 & _ & _ & H4).
  - reflexivity.
  - exact slow_client_backlogged.
  - split; [exact H1 | exact H4].
Defined.

(** C3, as claimed, fails: after three broadcasts dropped for client 1 it
    is attached and its channel is open. *)
Lemma three_drops_do_not_disconnect : ~ disconnects_after_three_drops.
Proof.
  intros H.
  specialize (H room_with_slow_client 1%nat slow_client
                (rooms.Payload "a") (rooms.Payload "b") (rooms.Payload "c")
                eq_refl slow_client_backlogged).
  rewrite (fan_out_all_backlogged _ room_with_slow_client 1%nat slow_client
             eq_refl slow_client_backlogged) in H.
  discriminate H.
Qed.

(** ** Typing indicators *)

Section Typing.
Import rooms.

(** The saturation of [Sub] does not change the comparison with three
    seconds. *)
Lemma stale_spec (now lastTyping : Z) :
  stale now lastTyping = true <-> typingExpiry < now - lastTyping.
Proof.
  assert (He : typingExpiry = 3000000000) by reflexivity.
  unfold stale, time.Sub, time.minDuration, time.maxDuration.
  rewrite He. cbv zeta.
  change (2 ^ 63) with 9223372036854775808.
  destruct (now - lastTyping <? _) eqn:E1;
    [|destruct (_ <? now - lastTyping) eqn:E2];
    rewrite Z.ltb_lt; rewrite ?Z.ltb_lt, ?Z.ltb_ge in *; lia.
Qed.

Lemma expire_typing_lookup (now : Z) (r : Room) (u : N) :
  typingTrackers (expire_typing now r) !! u
  = match typingTrackers r !! u with
    | Some t => if stale now t then None else Some t
    | None => None
    end.
Proof.
  unfold expire_typing. simpl.
  destruct (typingTrackers r !! u) as [t|] eqn:Hu.
  - destruct (stale now t) eqn:Hs.
    + apply map_lookup_filter_None. right. intros t' Ht'. simpl.
      rewrite Hu in Ht'. injection Ht' as <-. congruence.
    + apply map_lookup_filter_Some. split; [exact Hu | exact Hs].
  - apply map_lookup_filter_None. now left.
Qed.

(** A send goes through exactly on an open inbox with room. *)
Lemma send_broadcast_Some (r r' : Room) (event : Event) :
  send_broadcast r event = Some r'
  <-> broadcast_closed r = false
      /\ (length (broadcast r) < broadcastCapacity)%nat
      /\ r' = set_broadcast r (broadcast r ++ [event]).
Proof.
  unfold send_broadcast, broadcast_send.
  destruct (broadcast_closed r).
  - split; [discriminate | intros [? _]; discriminate].
  - destruct (Nat.ltb_spec (length (broadcast r)) broadcastCapacity) as [Hlt|Hge].
    + split; [intros [= <-]; auto | intros (_ & _ & ->); reflexivity].
    + split; [discriminate | intros (_ & Hlt & _); lia].
Qed.

Lemma HandleTypingEvent_start (r r' : Room) (t : Z) (u : N) :
  HandleTypingEvent r t u true = Some r' -> typingTrackers r' !! u = Some t.
Proof.
  unfold HandleTypingEvent. intros H.
  apply send_broadcast_Some in H as (_ & _ & ->).
  simpl. apply lookup_insert_eq.
Qed.

(** The ticker of [handleRoom]: [n] ticks, the first at [first], one every
    five seconds. *)
Fixpoint ticks (first : Z) (n : nat) (r : Room) : Room :=
  match n with
  | O => r
  | S n' => ticks (first + tickPeriod) n' (expire_typing first r)
  end.

(** The instant of the last of [n] ticks ([n > 0]). *)
Definition last_tick (first : Z) (n : nat) : Z :=
  first + (Z.of_nat n - 1) * tickPeriod.

Lemma ticks_keep_fresh (n : nat) :
  forall (first : Z) (r : Room) (u : N) (t : Z),
    typingTrackers r !! u = Some t ->
    last_tick first n - t <= typingExpiry ->
    typingTrackers (ticks first n r) !! u = Some t.
Proof.
  unfold last_tick.
  induction n as [|n IH]; intros first r u t Hu Hlast; cbn [ticks]; [exact Hu|].
  assert (Hp : 0 < tickPeriod) by reflexivity.
  apply IH.
  - rewrite expire_typing_lookup, Hu.
    destruct (stale first t) eqn:Hs; [|reflexivity].
    apply stale_spec in Hs. nia.
  - nia.
Qed.

(** The property claimed of the tracker: after a typing_start at [t] with
    nothing else from the user, some tick no later than [t] plus three
    seconds leaves the user out of the tracker. *)
Definition typing_expires_within_three_seconds : Prop :=
  forall (r r' : Room) (t : Z) (u : N) (first : Z),
    HandleTypingEvent r t u true = Some r' ->
    t <= first <= t + tickPeriod ->
    exists n : nat,
      (0 < n)%nat
      /\ last_tick first n <= t + 3 * time.Second
      /\ typingTrackers (ticks first n r') !! u = None.

(** C6, amended. After a typing_start at [t] with nothing else from the
    user, and without any typing_stop, the entry is removed by the first
    tick at which it is older than three seconds: no tick at or before
    [t] plus three seconds removes it, and with a tick every five seconds
    it is gone by the second tick after [t], later than three and at most
    eight seconds after the typing_start. *)
Theorem typing_entry_expires_at_first_stale_tick
    (r r' : Room) (t : Z) (u : N) (first : Z) :
  HandleTypingEvent r t u true = Some r' ->
  t <= first <= t + tickPeriod ->
  (forall n, last_tick first n <= t + typingExpiry ->
             typingTrackers (ticks first n r') !! u = Some t)
  /\ exists n : nat,
      (0 < n <= 2)%nat
      /\ t + typingExpiry < last_tick first n <= t + typingExpiry + tickPeriod
      /\ typingTrackers (ticks first n r') !! u = None
      /\ forall k, (k < n)%nat -> typingTrackers (ticks first k r') !! u = Some t.
Proof.
  intros Hstart Hfirst.
  apply HandleTypingEvent_start in Hstart.
  assert (Hp : tickPeriod = 5000000000) by reflexivity.
  assert (He : typingExpiry = 3000000000) by reflexivity.
  split.
  - intros n Hn. apply ticks_keep_fresh; [exact Hstart | lia].
  - destruct (stale first t) eqn:Hs.
    + exists 1%nat. unfold last_tick. simpl Z.of_nat.
      pose proof (proj1 (stale_spec first t) Hs).
      split; [lia|]. split; [lia|]. split.
      * cbn [ticks]. now rewrite expire_typing_lookup, Hstart, Hs.
      * intros k Hk. replace k with 0%nat by lia. exact Hstart.
    + exists 2%nat. unfold last_tick. simpl Z.of_nat.
      assert (Hfresh : first - t <= typingExpiry).
      { destruct (Z.le_gt_cases (first - t) typingExpiry) as [H|H]; [exact H|].
        apply stale_spec in H. congruence. }
      assert (Hs2 : stale (first + tickPeriod) t = true) by (apply stale_spec; lia).
      split; [lia|]. split; [lia|]. split.
      * cbn [ticks]. rewrite !expire_typing_lookup, Hstart, Hs. now rewrite Hs2.
      * intros k Hk.
        apply ticks_keep_fresh; [exact Hstart|]. unfold last_tick. lia.
Qed.

End Typing.

(** User 7 starts typing in a fresh room one second after the clock's
    origin; the ticker of the room fires at 5 s, 10 s, ... *)
Definition fresh_room : rooms.Room := rooms.mkRoom 1%N ∅ [] false ∅.

Definition typing_room : rooms.Room :=
  rooms.mkRoom 1%N ∅ [rooms.TypingUpdate 7%N true] false {[ 7%N := time.Second ]}.

Lemma typing_start_in_fresh_room :
  rooms.HandleTypingEvent fresh_room time.Second 7%N true = Some typing_room.
Proof. reflexivity. Qed.

Lemma typing_entry_expires_at_first_stale_tick_witness :
  exists n : nat,
    (0 < n <= 2)%nat
    /\ time.Second + rooms.typingExpiry < last_tick (5 * time.Second) n
    /\ rooms.typingTrackers (ticks (5 * time.Second) n typing_room) !! 7%N = None.
Proof.
  destruct (typing_entry_expires_at_first_stale_tick fresh_room typing_room
              time.Second 7%N (5 * time.Second))
    as (_ & n & Hn & Hlast & Hgone & _).
  - exact typing_start_in_fresh_room.
  - vm_compute. split; discriminate.
  - exists n. split; [exact Hn|]. split; [apply Hlast | exact Hgone].
Defined.

(** C6, as claimed, fails: in that run the first tick comes four seconds
    after the typing_start, and no tick at all falls within three. *)
Lemma typing_not_expired_within_three_seconds :
  ~ typing_expires_within_three_seconds.
Proof.
  intros H.
  destruct (H fresh_room typing_room time.Second 7%N (5 * time.Second)
              typing_start_in_fresh_room) as (n & Hn & Hlast & _).
  - vm_compute. split; discriminate.
  - unfold last_tick, rooms.tickPeriod, time.Second, time.Millisecond,
      time.Nanosecond in Hlast. lia.
Qed.

(** ** Eviction *)

Section Eviction.
Import rooms.

(** One entry of the sweep either leaves the binding of a room alone or
    deletes it, and then the room had no client. *)
Lemma evict_one_lookup (now : Z) (m : Manager) (entry : N * Z) (roomID : N) :
  rooms (evict_one now m entry) !! roomID = rooms m !! roomID
  \/ (rooms (evict_one now m entry) !! roomID = None
      /\ exists room, rooms m !! roomID = Some room /\ size (clients room) = 0%nat).
Proof.
  unfold evict_one. destruct entry as [k lastActive].
  destruct (_ <? _); [|now left].
  destruct (rooms m !! k) as [room|] eqn:Hk; [|now left].
  case_bool_decide as Hempty; [|now left]. simpl.
  destruct (decide (k = roomID)) as [->|Hne].
  - right. split; [apply lookup_delete_eq | eauto].
  - left. now apply lookup_delete_ne.
Qed.

(** The sweeper removes only rooms without clients, however long the
    others have been idle. *)
Lemma evictColdRooms_only_empty_rooms (m : Manager) (now : Z) (roomID : N) (room : Room) :
  rooms m !! roomID = Some room ->
  rooms (evictColdRooms m now) !! roomID = None ->
  size (clients room) = 0%nat.
Proof.
  unfold evictColdRooms. generalize (map_to_list (lastActivity m)) as entries.
  intros entries. revert m.
  induction entries as [|entry entries IH]; intros m Hin Hout; simpl in Hout.
  - congruence.
  - destruct (evict_one_lookup now m entry roomID) as [Hsame|(_ & room' & Hroom' & Hempty)].
    + apply (IH (evict_one now m entry)); [congruence | exact Hout].
    + congruence.
Qed.

(** [removeRoom] deletes the binding of any room the registry holds,
    whatever its client set. *)
Lemma removeRoom_ignores_clients (m : Manager) (roomID : N) (room : Room) :
  rooms m !! roomID = Some room ->
  rooms (fst (removeRoom m roomID)) !! roomID = None
  /\ exists removed, snd (removeRoom m roomID) = Some removed
                     /\ clients removed = clients room.
Proof.
  intros H. unfold removeRoom. rewrite H. simpl. split.
  - apply lookup_delete_eq.
  - eexists. split; reflexivity.
Qed.

(** The run: a first client connects to room 1 and leaves after ten
    seconds, which starts the one-minute probe; a second client connects
    at twenty seconds and stays; at seventy seconds the probe wakes and
    the manager handles its message. *)
Definition first_client : Client := NewClient 1%N 7%N.
Definition second_client : Client := NewClient 1%N 8%N.

Definition probe_race : option (Manager * option Room) :=
  let m := GetOrCreateRoom NewManager 0 1%N in
  m ← handle_register m 0 1%N 1%nat first_client;
  '(m, _) ← handle_unregister m (10 * time.Second) 1%N 1%nat;
  let m := GetOrCreateRoom m (20 * time.Second) 1%N in
  m ← handle_register m (20 * time.Second) 1%N 2%nat second_client;
  let m := probe_wakes m (70 * time.Second) in
  Some (Start_unregisterRoom m).

End Eviction.

(** C2. In that run the probe makes the manager remove room 1 from the
    registry while the second client is attached to it: [removeRoom] does
    not look at the client set. (The sweeper does:
    [evictColdRooms_only_empty_rooms].) *)
Theorem probe_removes_occupied_room :
  exists (m : rooms.Manager) (removed : rooms.Room),
    probe_race = Some (m, Some removed)
    /\ rooms.ID removed = 1%N
    /\ rooms.clients removed !! 2%nat = Some second_client
    /\ size (rooms.clients removed) = 1%nat
    /\ rooms.rooms m !! 1%N = None.
Proof.
  vm_compute. do 2 eexists. split; [reflexivity|].
  repeat split; vm_compute; reflexivity.
Qed.

(* ===================================================================== *)
(** * Properties of the session and of the upgrade *)
(* ===================================================================== *)

Section MessageFrames.
Import models rooms.

(** Handing a message to a running writer whose queue has room puts it
    last in the queue, at once. *)
Lemma QueueMessage_enqueues (pick : bool) (others : list persistence.other)
    (mw : persistence.MessageWriter) (m : Message) :
  persistence.running mw ->
  (length (persistence.messageQueue mw) < persistence.queueCapacity)%nat ->
  persistence.QueueMessage pick others mw m
  = persistence.Enqueued
      (persistence.mkMessageWriter (persistence.messageQueue mw ++ [m]) false).
Proof.
  unfold persistence.running. intros Hr Hlen. apply Nat.ltb_lt in Hlen.
  destruct others; simpl; unfold persistence.QueueMessage_select;
    rewrite Hlen, Hr; reflexivity.
Qed.

(** A frame of type "message" without the content its format requires
    is a malformed frame: it is logged and skipped. *)
Lemma message_frame_without_content (c : Client) (now : Z) (msg : gmap string JSON) :
  msg !! "type" = Some (JString "message") ->
  as_string (msg !! "content") = None ->
  readPump_frame c now (Some msg) = [Log "message content not found or invalid"].
Proof.
  intros Htype Hcontent. unfold readPump_frame. rewrite Htype. simpl.
  now rewrite Hcontent.
Qed.

(** C5. For every frame of type "message" (a frame of that type carries
    its content, a string, as the format requires), the session builds a
    Message whose room is the room of the session, whose author is the
    user of the session and whose creation time is the reading of the
    clock, and hands it to the writer's [QueueMessage] (which, on a
    running writer with room, puts it last in the queue); that call is
    the only effect of the frame: nothing is put in the inbox of the
    local room. *)
Theorem message_frame_is_queued_not_broadcast
    (c : Client) (now : Z) (msg : gmap string JSON) (content : string) :
  msg !! "type" = Some (JString "message") ->
  msg !! "content" = Some (JString content) ->
  exists m : Message,
    readPump_frame c now (Some msg) = [QueueMessage m]
    /\ RoomID m = room c
    /\ UserID m = userID c
    /\ CreatedAt m = now
    /\ Content m = content
    /\ Forall (fun e => reaches_room e = false) (readPump_frame c now (Some msg))
    /\ forall pick others mw,
         persistence.running mw ->
         (length (persistence.messageQueue mw) < persistence.queueCapacity)%nat ->
         persistence.QueueMessage pick others mw m
         = persistence.Enqueued
             (persistence.mkMessageWriter (persistence.messageQueue mw ++ [m]) false).
Proof.
  intros Htype Hcontent.
  unfold readPump_frame. rewrite Htype, Hcontent. simpl.
  unfold handleChatMessage. eexists. split; [reflexivity|].
  repeat (split; [reflexivity|]). split.
  - repeat constructor.
  - intros pick others mw. apply QueueMessage_enqueues.
Qed.

End MessageFrames.

(** The frame [{"type": "message", "content": "hi"}] on the session of
    user 7 in room 1, read at instant 42. *)
Definition hi_frame : gmap string rooms.JSON :=
  <["type" := rooms.JString "message"]> {[ "content" := rooms.JString "hi" ]}.

Lemma message_frame_is_queued_not_broadcast_witness :
  exists m : models.Message,
    rooms.readPump_frame first_client 42 (Some hi_frame) = [rooms.QueueMessage m]
    /\ models.RoomID m = 1%N
    /\ models.UserID m = 7%N
    /\ models.CreatedAt m = 42.
Proof.
  destruct (message_frame_is_queued_not_broadcast first_client 42 hi_frame "hi")
    as (m & Hrun & Hroom & Huser & Htime & _).
  - reflexivity.
  - reflexivity.
  - exists m. split; [exact Hrun|]. split; [exact Hroom|]. split; [exact Huser|exact Htime].
Defined.

Section Upgrade.
Import api.
Variable ValidateToken : string -> option Claims.
Variable uuid_Parse : string -> option N.
Variable Upgrade : Request -> bool.

Lemma IsRoomMember_granted (d : db.Database) (roomID userID : N) :
  db.IsRoomMember d roomID userID = (true, None)
  <-> db.online d = true /\ (roomID, userID) ∈ db.room_members d.
Proof.
  unfold db.IsRoomMember. destruct (db.online d).
  - case_bool_decide as Hin; split.
    + auto.
    + reflexivity.
    + discriminate.
    + intros [_ ?]. contradiction.
  - split; [discriminate | intros [? _]; discriminate].
Qed.

(** The handler got past the token and the room id of the request. *)
Definition identified (req : Request) (claims : Claims) (roomID : N) : Prop :=
  Query_Get req "token" <> ""
  /\ ValidateToken (Query_Get req "token") = Some claims
  /\ Query_Get req "room_id" <> ""
  /\ uuid_Parse (Query_Get req "room_id") = Some roomID.

Lemma WebSocketHandler_identified (d : db.Database) (req : Request)
    (claims : Claims) (roomID : N) :
  identified req claims roomID ->
  WebSocketHandler ValidateToken uuid_Parse Upgrade d req
  = let '(isMember, err) := db.IsRoomMember d roomID (UserID claims) in
    if bool_decide (err ≠ None) || negb isMember
    then HttpError StatusForbidden "Not a member of this room"
    else if Upgrade req then Upgraded roomID (UserID claims) else UpgradeFailed.
Proof.
  intros (Htok & Hval & Hroom & Hparse). unfold WebSocketHandler.
  apply String.eqb_neq in Htok. apply String.eqb_neq in Hroom.
  now rewrite Htok, Hval, Hroom, Hparse.
Qed.

(** C8. The handler reaches the upgrade exactly when the token is present
    and valid, the room id is present and parses, and the membership
    check answers true without error; and when the user the token names
    is not a member of the room, or the check fails, the answer is 403
    and the upgrade is not reached. *)
Theorem upgrade_only_for_members (d : db.Database) (req : Request) :
  (reaches_upgrade (WebSocketHandler ValidateToken uuid_Parse Upgrade d req) = true
   <-> exists claims roomID,
         identified req claims roomID
         /\ db.IsRoomMember d roomID (UserID claims) = (true, None))
  /\ (forall claims roomID,
        identified req claims roomID ->
        (roomID, UserID claims) ∉ db.room_members d \/ db.online d = false ->
        WebSocketHandler ValidateToken uuid_Parse Upgrade d req
          = HttpError StatusForbidden "Not a member of this room"
        /\ reaches_upgrade (WebSocketHandler ValidateToken uuid_Parse Upgrade d req)
           = false).
Proof.
  split.
  - split.
    + unfold WebSocketHandler, identified.
      destruct (String.eqb_spec (Query_Get req "token") ""); [discriminate|].
      destruct (ValidateToken _) as [claims|]; [|discriminate].
      destruct (String.eqb_spec (Query_Get req "room_id") ""); [discriminate|].
      destruct (uuid_Parse _) as [roomID|]; [|discriminate].
      destruct (db.IsRoomMember d roomID (UserID claims)) as [isMember err] eqn:Hmem.
      destruct err as [e|]; [discriminate|]. destruct isMember; [|discriminate].
      intros _. exists claims, roomID. auto.
    + intros (claims & roomID & Hid & Hmem).
      rewrite (WebSocketHandler_identified d req claims roomID Hid), Hmem. simpl.
      destruct (Upgrade req); reflexivity.
  - intros claims roomID Hid Hno.
    rewrite (WebSocketHandler_identified d req claims roomID Hid).
    assert (Hden : db.IsRoomMember d roomID (UserID claims) <> (true, None)).
    { rewrite IsRoomMember_granted. intros [Hon Hin].
      destruct Hno as [Hno|Hno]; [contradiction | congruence]. }
    destruct (db.IsRoomMember d roomID (UserID claims)) as [isMember [e|]].
    + split; reflexivity.
    + destruct isMember; [congruence | split; reflexivity].
Qed.

End Upgrade.

(** A token service that knows one token, for user 7, a parser that knows
    the ids of rooms 1 and 2, and a handshake that always succeeds. The
    store is the one above: user 7 is a member of room 1 only. *)
Definition one_token (token : string) : option api.Claims :=
  if String.eqb token "token-of-7" then Some (api.mkClaims 7%N "seven" "seven@example.org")
  else None.

Definition two_rooms (s : string) : option N :=
  if String.eqb s "room-1" then Some 1%N
  else if String.eqb s "room-2" then Some 2%N
  else None.

Definition request_for (room_id : string) : api.Request :=
  api.mkRequest (<["token" := "token-of-7"]> {[ "room_id" := room_id ]}).

Lemma upgrade_only_for_members_witness :
  api.WebSocketHandler one_token two_rooms (fun _ => true) empty_store (request_for "room-2")
  = api.HttpError api.StatusForbidden "Not a member of this room".
Proof.
  destruct (upgrade_only_for_members one_token two_rooms (fun _ => true)
              empty_store (request_for "room-2")) as [_ H].
  apply (H (api.mkClaims 7%N "seven" "seven@example.org") 2%N).
  - repeat split; try reflexivity; vm_compute; discriminate.
  - left. vm_compute. set_solver.
Defined.

Example upgrade_for_member :
  api.WebSocketHandler one_token two_rooms (fun _ => true) empty_store (request_for "room-1")
  = api.Upgraded 1%N 7%N.
Proof. vm_compute. reflexivity. Qed.

(* ===================================================================== *)
(** * The rest of the SQL surface over the same tables *)
(* ===================================================================== *)

Module queries.
Import models db.

Definition set_room_members (d : Database) (ms : gset (N * N)) : Database :=
  mkDatabase (online d) (users d) (rooms d) ms (messages d)
             (messages_id_seq d) (message_reads d).

Definition valid_role (role : string) : bool :=
  String.eqb role "admin" || String.eqb role "member" || String.eqb role "moderator".

(** [INSERT INTO room_members (room_id, user_id, role) VALUES ($1, $2, $3)
    ON CONFLICT (room_id, user_id) DO NOTHING]. The CHECK on [role] is
    evaluated on the proposed row before the conflict is looked for; the
    foreign keys to rooms and users are checked for a row that is
    inserted. No query of the repository reads the role back, and the
    table keeps the pairs. *)
Definition AddRoomMember (d : Database) (roomID userID : N) (role : string)
    : Database * option error :=
  if online d then
    if negb (sql.text_accepted role) then (d, Some ErrEncoding)
    else if negb (valid_role role) then (d, Some (ErrCheck "room_members_role_check"))
    else if bool_decide ((roomID, userID) ∈ room_members d) then (d, None)
    else if negb (bool_decide (roomID ∈ rooms d)) then
      (d, Some (ErrForeignKey "room_members_room_id_fkey"))
    else if negb (bool_decide (userID ∈ users d)) then
      (d, Some (ErrForeignKey "room_members_user_id_fkey"))
    else (set_room_members d ({[ (roomID, userID) ]} ∪ room_members d), None)
  else (d, Some ErrConn).

(** [DELETE FROM room_members WHERE room_id = $1 AND user_id = $2]. *)
Definition RemoveRoomMember (d : Database) (roomID userID : N)
    : Database * option error :=
  if online d
  then (set_room_members d (room_members d ∖ {[ (roomID, userID) ]}), None)
  else (d, Some ErrConn).

Definition with_content (m : Message) (content : string) (edited : Z) : Message :=
  mkMessage (ID m) (RoomID m) (UserID m) content (MessageType m) (FileURL m)
            (ParentID m) (Some edited) (DeletedAt m) (CreatedAt m).

Definition with_deleted (m : Message) (deleted : Z) : Message :=
  mkMessage (ID m) (RoomID m) (UserID m) (Content m) (MessageType m) (FileURL m)
            (ParentID m) (EditedAt m) (Some deleted) (CreatedAt m).

(** [UPDATE messages SET content = $1, edited_at = NOW() WHERE id = $2 AND
    user_id = $3 AND deleted_at IS NULL]. An update that matches no row is
    not an error; a content the server does not accept as text is. *)
Definition EditMessage (d : Database) (now : Z) (messageID : Z) (userID : N)
    (newContent : string) : Database * option error :=
  if online d then
    if negb (sql.text_accepted newContent) then (d, Some ErrEncoding) else
    (set_messages d
       (map (fun m => if (ID m =? messageID) && (UserID m =? userID)%N && live m
                      then with_content m newContent now else m)
            (messages d))
       (messages_id_seq d), None)
  else (d, Some ErrConn).

(** [UPDATE messages SET deleted_at = NOW() WHERE id = $1 AND user_id = $2]
    (no condition on [deleted_at]). *)
Definition SoftDeleteMessage (d : Database) (now : Z) (messageID : Z) (userID : N)
    : Database * option error :=
  if online d then
    (set_messages d
       (map (fun m => if (ID m =? messageID) && (UserID m =? userID)%N
                      then with_deleted m now else m)
            (messages d))
       (messages_id_seq d), None)
  else (d, Some ErrConn).

(** [SELECT message_id, user_id, read_at FROM message_reads WHERE
    message_id = $1]. *)
Definition GetMessageReads (d : Database) (messageID : Z)
    : list MessageRead * option error :=
  if online d
  then (List.filter (fun r => MessageID r =? messageID) (message_reads d), None)
  else ([], Some ErrConn).

End queries.

Section Members.
Import db queries.

(** The three roles are plain ASCII, which the server takes as text. *)
Lemma valid_role_text (role : string) :
  valid_role role = true -> sql.text_accepted role = true.
Proof.
  unfold valid_role. rewrite !orb_true_iff, !String.eqb_eq.
  intros [[->| ->]| ->]; reflexivity.
Qed.

Lemma AddRoomMember_outcome (d : Database) (roomID userID : N) (role : string) :
  (exists e, AddRoomMember d roomID userID role = (d, Some e))
  \/ (AddRoomMember d roomID userID role = (d, None)
      /\ online d = true /\ (roomID, userID) ∈ room_members d)
  \/ (AddRoomMember d roomID userID role
        = (set_room_members d ({[ (roomID, userID) ]} ∪ room_members d), None)
      /\ online d = true /\ roomID ∈ rooms d /\ userID ∈ users d).
Proof.
  unfold AddRoomMember.
  destruct (online d); [|left; eauto].
  destruct (sql.text_accepted role); simpl; [|left; eauto].
  destruct (valid_role role); simpl; [|left; eauto].
  case_bool_decide as Hin; [right; left; auto|].
  case_bool_decide as Hr; simpl; [|left; eauto].
  case_bool_decide as Hu; simpl; [|left; eauto].
  right; right; auto.
Qed.

(** X1. Membership round trip: once [AddRoomMember] has returned without
    error the pair is a member ([IsRoomMember] answers true), whether it
    was inserted or already there; after [RemoveRoomMember] on a reachable
    store it is not, whether or not it was one; and neither call changes
    the membership of any other (room, user) pair. *)
Theorem membership_add_remove_lookup
    (d : Database) (roomID userID : N) (role : string) :
  (snd (AddRoomMember d roomID userID role) = None ->
   IsRoomMember (fst (AddRoomMember d roomID userID role)) roomID userID = (true, None))
  /\ (online d = true ->
      RemoveRoomMember d roomID userID
        = (fst (RemoveRoomMember d roomID userID), None)
      /\ IsRoomMember (fst (RemoveRoomMember d roomID userID)) roomID userID
         = (false, None))
  /\ (forall r u, (r, u) <> (roomID, userID) ->
        IsRoomMember (fst (AddRoomMember d roomID userID role)) r u = IsRoomMember d r u
        /\ IsRoomMember (fst (RemoveRoomMember d roomID userID)) r u
           = IsRoomMember d r u).
Proof.
  split; [|split].
  - destruct (AddRoomMember_outcome d roomID userID role)
      as [[e H]|[(H & Hon & Hin)|(H & Hon & _ & _)]]; rewrite H; simpl.
    + discriminate.
    + intros _. unfold IsRoomMember. rewrite Hon.
      now rewrite (bool_decide_eq_true_2 _ Hin).
    + intros _. unfold IsRoomMember. simpl. rewrite Hon.
      rewrite bool_decide_eq_true_2; [reflexivity|].
      apply elem_of_union_l. now apply elem_of_singleton.
  - intros Hon. unfold RemoveRoomMember, IsRoomMember. rewrite Hon. simpl.
    rewrite Hon. split; [reflexivity|].
    rewrite bool_decide_eq_false_2; [reflexivity|].
    rewrite elem_of_difference, elem_of_singleton. tauto.
  - intros r u Hne. split.
    + destruct (AddRoomMember_outcome d roomID userID role)
        as [[e H]|[(H & _)|(H & _)]]; rewrite H; simpl; try reflexivity.
      unfold IsRoomMember. simpl. destruct (online d); [|reflexivity].
      f_equal. apply bool_decide_ext.
      rewrite elem_of_union, elem_of_singleton. intuition congruence.
    + unfold RemoveRoomMember, IsRoomMember.
      destruct (online d) eqn:Hon; simpl; rewrite ?Hon; [|reflexivity].
      f_equal. apply bool_decide_ext.
      rewrite elem_of_difference, elem_of_singleton. intuition congruence.
Qed.

End Members.

(** On the store with user 7 in room 1: user 7 is added to room 1 again
    (a no-op), then removed. *)
Lemma membership_add_remove_lookup_witness :
  db.IsRoomMember (fst (queries.AddRoomMember empty_store 1%N 7%N "member")) 1%N 7%N
    = (true, None)
  /\ db.IsRoomMember (fst (queries.RemoveRoomMember empty_store 1%N 7%N)) 1%N 7%N
     = (false, None).
Proof.
  destruct (membership_add_remove_lookup empty_store 1%N 7%N "member")
    as (Hadd & Hrem & _).
  split.
  - apply Hadd. vm_compute. reflexivity.
  - apply Hrem. reflexivity.
Defined.

Section EditAndDelete.
Import models db queries.

Lemma set_messages_same (d : Database) :
  set_messages d (messages d) (messages_id_seq d) = d.
Proof. destruct d. reflexivity. Qed.

Lemma map_unchanged {A} (g : A -> A) (l : list A) :
  (forall x, In x l -> g x = x) -> map g l = l.
Proof.
  induction l as [|x l IH]; simpl; intros H; [reflexivity|].
  rewrite (H x) by now left. rewrite IH; [reflexivity|].
  intros y Hy. apply H. now right.
Qed.

Lemma find_map_stable {A} (f : A -> bool) (g : A -> A) (l : list A) :
  (forall x, f (g x) = f x) -> (forall x, f x = true -> g x = x) ->
  List.find f (map g l) = List.find f l.
Proof.
  intros Hf Hg. induction l as [|x l IH]; simpl; [reflexivity|].
  rewrite Hf. destruct (f x) eqn:Hx; [now rewrite Hg | exact IH].
Qed.

Lemma find_none_all {A} (f : A -> bool) (l : list A) :
  (forall x, In x l -> f x = false) -> List.find f l = None.
Proof.
  induction l as [|x l IH]; simpl; intros H; [reflexivity|].
  rewrite (H x) by now left. apply IH. intros y Hy. apply H. now right.
Qed.

(** With unique ids two rows of the table with the same id are the same
    row. *)
Lemma same_id_same_row (l : list Message) (a b : Message) :
  NoDup (map ID l) -> In a l -> In b l -> ID a = ID b -> a = b.
Proof.
  induction l as [|x l IH]; simpl; [tauto|].
  intros Hnd [->|Ha] [->|Hb] Hid; auto.
  - apply NoDup_cons_1_1 in Hnd as Hx. exfalso. apply Hx.
    rewrite Hid. apply list_elem_of_In, in_map, Hb.
  - apply NoDup_cons_1_1 in Hnd as Hx. exfalso. apply Hx.
    rewrite <- Hid. apply list_elem_of_In, in_map, Ha.
  - apply IH; auto. now apply NoDup_cons_1_2 in Hnd.
Qed.


(** X3. After [SoftDeleteMessage] by its author on a reachable store with
    unique message ids, [GetMessageByID] no longer finds the message (zero
    message and a no-rows error), while every other id is answered as
    before; and a call for an id none of whose rows belongs to the user
    leaves the store exactly as it was. *)
Theorem SoftDeleteMessage_hides_the_message
    (d : Database) (now : Z) (messageID : Z) (userID : N) :
  online d = true ->
  NoDup (map ID (messages d)) ->
  let d' := fst (SoftDeleteMessage d now messageID userID) in
  ((exists m, In m (messages d) /\ ID m = messageID /\ UserID m = userID) ->
   GetMessageByID d' messageID = (zeroMessage, Some ErrNoRows))
  /\ (forall other, other <> messageID ->
        GetMessageByID d' other = GetMessageByID d other)
  /\ ((forall m, In m (messages d) -> ID m = messageID -> UserID m <> userID) ->
      d' = d).
Proof.
  intros Hon Hnd. unfold SoftDeleteMessage. rewrite Hon. simpl.
  split; [|split].
  - intros (m0 & Hm0 & Hid0 & Hu0).
    unfold GetMessageByID. simpl. rewrite Hon.
    rewrite find_none_all; [reflexivity|].
    intros x Hx. apply in_map_iff in Hx as (m & <- & Hm).
    destruct (Z.eqb_spec (ID m) messageID) as [Hid|Hid].
    + assert (m = m0) by (eapply same_id_same_row; eauto; congruence). subst m0.
      rewrite Hu0, N.eqb_refl. simpl. now rewrite Hid, Z.eqb_refl.
    + simpl. apply Z.eqb_neq in Hid. now rewrite Hid.
  - intros other Hne. unfold GetMessageByID. simpl. rewrite Hon.
    rewrite find_map_stable; [reflexivity| |].
    + intros m. destruct ((ID m =? messageID) && (UserID m =? userID)%N) eqn:Hsel;
        [|reflexivity].
      apply andb_true_iff in Hsel as [Hid _]. apply Z.eqb_eq in Hid.
      assert (Hoff : (messageID =? other) = false) by (apply Z.eqb_neq; congruence).
      simpl. now rewrite Hid, Hoff.
    + intros m Hf. apply andb_true_iff in Hf as [Hid _]. apply Z.eqb_eq in Hid.
      destruct (Z.eqb_spec (ID m) messageID); [congruence | reflexivity].
  - intros Hnone. rewrite map_unchanged; [apply set_messages_same|].
    intros m Hm.
    destruct ((ID m =? messageID) && (UserID m =? userID)%N) eqn:Hsel; [|reflexivity].
    apply andb_true_iff in Hsel as [Hid Hu].
    apply Z.eqb_eq in Hid. apply N.eqb_eq in Hu.
    exfalso. exact (Hnone m Hm Hid Hu).
Qed.

(** X4. A receipt is listed once it is marked: after a [MarkMessageRead]
    that returned no error, [GetMessageReads] of that message returns a
    receipt of that user; and [GetMessageReads] returns receipts of the
    requested message only. *)
Theorem marked_receipt_is_listed (d : Database) (now : Z) (messageID : Z) (userID : N) :
  (snd (MarkMessageRead d now messageID userID) = None ->
   exists r,
     In r (fst (GetMessageReads (fst (MarkMessageRead d now messageID userID)) messageID))
     /\ MessageID r = messageID /\ ReaderID r = userID)
  /\ (forall r, In r (fst (GetMessageReads d messageID)) -> MessageID r = messageID).
Proof.
  split.
  - destruct (MarkMessageRead_cases d now messageID userID)
      as [[H Hex]|[(e & H & _)|(H & Hon & _)]]; rewrite H; simpl;
      [| discriminate |]; intros _.
    + assert (Hon : online d = true).
      { unfold MarkMessageRead in H. destruct (online d); [reflexivity|discriminate]. }
      apply existsb_exists in Hex as (r & Hr & Hsame).
      apply andb_true_iff in Hsame as [Hm Hu].
      apply Z.eqb_eq in Hm. apply N.eqb_eq in Hu.
      exists r. unfold GetMessageReads. rewrite Hon. simpl.
      split; [|auto]. apply filter_In. split; [exact Hr | now apply Z.eqb_eq].
    + exists (mkMessageRead messageID userID now).
      unfold GetMessageReads. simpl. rewrite Hon. simpl.
      split; [|auto]. apply filter_In. split.
      * apply in_or_app. right. now left.
      * apply Z.eqb_refl.
  - intros r. unfold GetMessageReads. destruct (online d); simpl; [|tauto].
    intros Hr. apply filter_In in Hr as [_ Hr]. now apply Z.eqb_eq.
Qed.

End EditAndDelete.


Lemma SoftDeleteMessage_hides_the_message_witness :
  db.GetMessageByID (fst (queries.SoftDeleteMessage store_two_messages 9000 1 7%N)) 1
  = (models.zeroMessage, Some db.ErrNoRows).
Proof.
  apply (SoftDeleteMessage_hides_the_message store_two_messages 9000 1 7%N).
  - reflexivity.
  - simpl. apply NoDup_cons_2.
    { rewrite list_elem_of_In. simpl. intuition discriminate. }
    apply NoDup_cons_2; [|apply NoDup_nil_2].
    rewrite list_elem_of_In. simpl. tauto.
  - eexists. split; [left; reflexivity|]. split; reflexivity.
Defined.

Lemma marked_receipt_is_listed_witness :
  exists r,
    In r (fst (queries.GetMessageReads
                 (fst (db.MarkMessageRead store_two_messages 5000 1 7%N)) 1))
    /\ models.MessageID r = 1 /\ models.ReaderID r = 7%N.
Proof.
  apply (marked_receipt_is_listed store_two_messages 5000 1 7%N).
  vm_compute. reflexivity.
Defined.

(* ===================================================================== *)
(** * More on the message writer *)
(* ===================================================================== *)

Section WriterInvariants.
Import models db persistence.

(** The ids of a list are strictly increasing from left to right. *)
Fixpoint increasing (l : list Z) : Prop :=
  match l with
  | [] => True
  | x :: rest => Forall (fun y => x < y) rest /\ increasing rest
  end.

(** The rows of [messages] are in increasing id order and no id is above
    the last value of the sequence. *)
Definition ids_in_order (d : Database) : Prop :=
  increasing (map ID (messages d))
  /\ Forall (fun m => ID m <= messages_id_seq d) (messages d).

Lemma increasing_snoc (l : list Z) (x : Z) :
  increasing l -> Forall (fun y => y < x) l -> increasing (l ++ [x]).
Proof.
  induction l as [|a l IH]; simpl; intros Hinc Hall.
  - split; [constructor | exact I].
  - destruct Hinc as [Ha Hl].
    apply Forall_cons in Hall as [Hax Hall]. split.
    + apply Forall_app. split; [exact Ha | now constructor].
    + now apply IH.
Qed.

(** The row an accepted insert writes. *)
Definition row_for (msg : Message) (id now : Z) : Message :=
  mkMessage id (RoomID msg) (UserID msg) (Content msg) (MessageType msg)
            (FileURL msg) (ParentID msg) None None now.

Lemma CreateMessage_cases (d : Database) (now : Z) (msg : Message) :
  (exists e, CreateMessage d now msg = (d, msg, Some e))
  \/ (exists e, CreateMessage d now msg
                = (set_messages d (messages d) (messages_id_seq d + 1), msg, Some e))
  \/ (CreateMessage d now msg
      = (set_messages d (messages d ++ [row_for msg (messages_id_seq d + 1) now])
                      (messages_id_seq d + 1),
         set_ID_CreatedAt msg (messages_id_seq d + 1) now, None)
      /\ online d = true).
Proof.
  unfold CreateMessage. destruct (online d); [|left; eauto].
  destruct (negb (_ && _ && _)); [left; eauto|].
  right.
  repeat match goal with
         | |- context [if negb ?b then _ else _] => destruct b; simpl
         end; eauto.
Qed.

Lemma CreateMessage_keeps_ids_in_order (d : Database) (now : Z) (msg : Message) :
  ids_in_order d -> ids_in_order (fst (fst (CreateMessage d now msg))).
Proof.
  intros [Hinc Hbound].
  destruct (CreateMessage_cases d now msg) as [[e0 H]|[[e H]|[H _]]]; rewrite H; simpl.
  - split; assumption.
  - split; simpl; [exact Hinc|].
    eapply Forall_impl; [exact Hbound|]. simpl. intros m Hm. lia.
  - split; simpl.
    + rewrite map_app. simpl. apply increasing_snoc; [exact Hinc|].
      apply Forall_map. eapply Forall_impl; [exact Hbound|]. simpl. intros m Hm. lia.
    + apply Forall_app. split.
      * eapply Forall_impl; [exact Hbound|]. simpl. intros m Hm. lia.
      * constructor; [simpl; lia | constructor].
Qed.

(** X5. Ids are handed out in increasing order: on a table whose ids are
    in increasing order and not above the sequence, [CreateMessage] keeps
    that so whether it succeeds or fails, and when it succeeds the id Scan
    stores in the message is the next value of the sequence, greater than
    the id of every row already there, and the new row, with that id and
    the server's time, is the last of the table and is not deleted. *)
Theorem CreateMessage_assigns_increasing_ids (d : Database) (now : Z) (msg : Message) :
  ids_in_order d ->
  let '(d', msg', err) := CreateMessage d now msg in
  ids_in_order d'
  /\ (err = None ->
      ID msg' = messages_id_seq d + 1
      /\ CreatedAt msg' = now
      /\ Forall (fun m => ID m < ID msg') (messages d)
      /\ exists row, messages d' = messages d ++ [row]
                     /\ ID row = ID msg' /\ CreatedAt row = now
                     /\ DeletedAt row = None /\ Content row = Content msg).
Proof.
  intros Hids.
  pose proof (CreateMessage_keeps_ids_in_order d now msg Hids) as Hkeep.
  destruct Hids as [Hinc Hbound].
  assert (Hbelow : Forall (fun m => ID m < messages_id_seq d + 1) (messages d)).
  { eapply Forall_impl; [exact Hbound|]. simpl. intros m Hm. lia. }
  destruct (CreateMessage_cases d now msg) as [[e0 H]|[[e H]|[H _]]];
    rewrite H in *; simpl in Hkeep; (split; [exact Hkeep|]); try discriminate.
  intros _. simpl. split; [reflexivity|]. split; [reflexivity|].
  split; [exact Hbelow|].
  eexists. split; [reflexivity|]. simpl. auto.
Qed.

(** ** What the retry loop does to the store *)

(** A property of the store that neither the reachability flag nor an
    insert disturbs. *)
Definition kept_by_inserts (P : Database -> Prop) : Prop :=
  (forall d up, P d -> P (set_online up d))
  /\ (forall d now msg, P d -> P (fst (fst (CreateMessage d now msg)))).

Lemma dial_keeps (P : Database -> Prop) (w : World) :
  kept_by_inserts P -> P (store w) -> P (store (dial w)).
Proof.
  intros [Hon _] H. unfold dial. destruct (net w); simpl; auto.
Qed.

Lemma insert_each_keeps (P : Database -> Prop) (batch : list Message) :
  kept_by_inserts P ->
  forall w, P (store w) -> P (store (fst (fst (insert_each w batch)))).
Proof.
  intros HP. induction batch as [|msg rest IH]; intros w Hw; simpl; [exact Hw|].
  pose proof (dial_keeps P w HP Hw) as Hd.
  pose proof (proj2 HP (store (dial w)) (clock (dial w)) msg Hd) as Hc.
  destruct (CreateMessage (store (dial w)) (clock (dial w)) msg) as [[d msg'] err].
  simpl in Hc. destruct err as [e|]; simpl; [exact Hc|].
  specialize (IH (with_store (dial w) d) Hc).
  destruct (insert_each (with_store (dial w) d) rest) as [[w2 rest'] err'].
  exact IH.
Qed.

Lemma Commit_empty (d : Database) (x : Tx) :
  pending x = [] -> fst (Commit d x) = d.
Proof.
  intros Hx. unfold Commit. destruct (online d); [|reflexivity]. simpl.
  rewrite Hx, app_nil_r. destruct d. reflexivity.
Qed.

Lemma announce_store (batch : list Message) :
  forall w, store (announce w batch) = store w.
Proof.
  unfold announce. induction batch as [|m rest IH]; intros w; simpl; [reflexivity|].
  now rewrite IH.
Qed.

Lemma attempts_keeps (P : Database -> Prop) (batch : list Message) :
  kept_by_inserts P ->
  forall left i lastErr w,
    P (store w) -> P (store (fst (fst (attempts left i lastErr w batch)))).
Proof.
  intros HP left. revert batch.
  induction left as [|left IH]; intros batch i lastErr w Hw; simpl; [exact Hw|].
  pose proof (dial_keeps P w HP Hw) as Hd.
  destruct (Begin (store (dial w))) as [e|x] eqn:HB.
  - apply IH. exact Hd.
  - pose proof (insert_each_keeps P batch HP (dial w) Hd) as Hi.
    destruct (insert_each (dial w) batch) as [[w1 batch1] err]. simpl in Hi.
    pose proof (dial_keeps P w1 HP Hi) as Hd1.
    destruct err as [e|].
    + apply IH. exact Hd1.
    + pose proof (Commit_empty (store (dial w1)) x (Begin_pending _ _ HB)) as HC.
      destruct (Commit (store (dial w1)) x) as [d [e|]]; simpl in HC; subst d.
      * apply IH. exact Hd1.
      * simpl. rewrite announce_store. exact Hd1.
Qed.

(** X6. [writeBatch] changes the store only by inserting: whatever the
    faults and however many attempts it takes, the users, rooms,
    memberships and read receipts are as before, the rows that were in
    [messages] are still there, unchanged and in the same order, followed
    by the rows added, and ids in increasing order stay in increasing
    order. *)
Theorem writeBatch_only_inserts (w : World) (batch : list Message) :
  let d := store w in
  let d' := store (fst (fst (writeBatch w batch))) in
  users d' = users d /\ rooms d' = rooms d
  /\ room_members d' = room_members d /\ message_reads d' = message_reads d
  /\ (exists added, messages d' = messages d ++ added)
  /\ (ids_in_order d -> ids_in_order d').
Proof.
  set (P := fun d' : Database =>
              users d' = users (store w) /\ rooms d' = rooms (store w)
              /\ room_members d' = room_members (store w)
              /\ message_reads d' = message_reads (store w)
              /\ (exists added, messages d' = messages (store w) ++ added)).
  assert (HP : kept_by_inserts P).
  { split.
    - intros d up Hd. exact Hd.
    - intros d now msg (Hu & Hr & Hm & Hrd & added & Hadd).
      destruct (CreateMessage_cases d now msg) as [[e0 H]|[[e H]|[H _]]];
        rewrite H; simpl; repeat split; auto; try (now exists added).
      exists (added ++ [row_for msg (messages_id_seq d + 1) now]).
      now rewrite Hadd, app_assoc. }
  assert (HI : kept_by_inserts ids_in_order).
  { split.
    - intros d up Hd. exact Hd.
    - intros d now msg Hd. now apply CreateMessage_keeps_ids_in_order. }
  assert (H0 : P (store w)).
  { unfold P. repeat split; auto. exists []. now rewrite app_nil_r. }
  unfold writeBatch. destruct batch as [|m batch].
  - simpl. destruct H0 as (Hu & Hr & Hm & Hrd & Hadd).
    split; [exact Hu|]. split; [exact Hr|]. split; [exact Hm|].
    split; [exact Hrd|]. split; [exact Hadd|]. auto.
  - pose proof (attempts_keeps P (m :: batch) HP maxRetries 0%nat None w H0)
      as (Hu & Hr & Hm & Hrd & Hadd).
    split; [exact Hu|]. split; [exact Hr|]. split; [exact Hm|].
    split; [exact Hrd|]. split; [exact Hadd|].
    intros Hids. now apply attempts_keeps.
Qed.

End WriterInvariants.

Lemma empty_store_ids_in_order : ids_in_order empty_store.
Proof. split; constructor. Qed.

Lemma CreateMessage_assigns_increasing_ids_witness :
  models.ID (snd (fst (db.CreateMessage empty_store 77
                         (models.mkMessage 0 1%N 7%N "hi" "text" "" None None None 5))))
  = 1.
Proof.
  pose proof (CreateMessage_assigns_increasing_ids empty_store 77
                (models.mkMessage 0 1%N 7%N "hi" "text" "" None None None 5)
                empty_store_ids_in_order) as H.
  destruct (db.CreateMessage empty_store 77 _) as [[d' msg'] err] eqn:HC.
  assert (err = None) by (vm_compute in HC; congruence).
  exact (proj1 (proj2 H H0)).
Defined.

Lemma writeBatch_only_inserts_witness :
  ids_in_order
    (persistence.store (fst (fst (persistence.writeBatch calm_world batch_with_bad_type)))).
Proof.
  apply (writeBatch_only_inserts calm_world batch_with_bad_type).
  exact empty_store_ids_in_order.
Defined.

Section WriterEffects.
Import models db persistence.

Definition delivered_of (m : Message) : Delivered :=
  mkDelivered (ID m) (RoomID m) (UserID m) (CreatedAt m) (Content m).

Definition cache_entry_of (m : Message) : N * Z * Z :=
  (RoomID m, CreatedAt m / 1000000, ID m).

(** The row behind a message that carries the id and time Scan gave it. *)
Definition row_of (m : Message) : Message := row_for m (ID m) (CreatedAt m).

(** The sum of the sleeps of [left] failed attempts from attempt [i]. *)
Fixpoint total_backoff (left i : nat) : Z :=
  match left with
  | O => 0
  | S left' => backoff i + total_backoff left' (S i)
  end.

Lemma backoff_pos (i : nat) : 0 < backoff i.
Proof.
  unfold backoff, initialBackoff, time.Millisecond, time.Nanosecond.
  assert (0 < 2 ^ Z.of_nat i) by (apply Z.pow_pos_nonneg; lia). lia.
Qed.

Lemma total_backoff_nonneg (left : nat) : forall i, 0 <= total_backoff left i.
Proof.
  induction left as [|left IH]; intros i; simpl; [lia|].
  pose proof (backoff_pos i). pose proof (IH (S i)). lia.
Qed.

Lemma dial_rest (w : World) :
  clock (dial w) = clock w /\ cached (dial w) = cached w
  /\ published (dial w) = published w
  /\ messages (store (dial w)) = messages (store w)
  /\ messages_id_seq (store (dial w)) = messages_id_seq (store w).
Proof. unfold dial. destruct (net w); simpl; auto. Qed.

Lemma insert_each_rest (batch : list Message) :
  forall w,
    let r := insert_each w batch in
    clock (fst (fst r)) = clock w /\ cached (fst (fst r)) = cached w
    /\ published (fst (fst r)) = published w
    /\ length (snd (fst r)) = length batch.
Proof.
  induction batch as [|msg rest IH]; intros w; simpl; [auto|].
  destruct (dial_rest w) as (Hc & Hca & Hp & _).
  destruct (CreateMessage (store (dial w)) (clock (dial w)) msg) as [[d msg'] err].
  destruct err as [e|]; simpl; [auto|].
  specialize (IH (with_store (dial w) d)).
  destruct (insert_each (with_store (dial w) d) rest) as [[w2 rest'] err'].
  simpl in *. destruct IH as (-> & -> & -> & ->). auto.
Qed.

(** When every insert of the loop succeeds, the rows written are those of
    the messages in batch order, with ids above the sequence's starting
    value and increasing. *)
Lemma insert_each_success (batch : list Message) :
  forall w w1 batch1,
    insert_each w batch = (w1, batch1, None) ->
    messages (store w1) = messages (store w) ++ map row_of batch1
    /\ increasing (map ID batch1)
    /\ Forall (fun m => messages_id_seq (store w) < ID m) batch1.
Proof.
  induction batch as [|msg rest IH]; intros w w1 batch1; simpl.
  - intros [= <- <-]. simpl. rewrite app_nil_r. repeat split; constructor.
  - destruct (dial_rest w) as (_ & _ & _ & Hm & Hs).
    destruct (CreateMessage_cases (store (dial w)) (clock (dial w)) msg)
      as [[e0 H]|[[e H]|[H _]]]; rewrite H; try discriminate.
    set (id := messages_id_seq (store (dial w)) + 1) in *.
    set (d := set_messages _ _ id).
    specialize (IH (with_store (dial w) d)).
    destruct (insert_each (with_store (dial w) d) rest) as [[w2 rest'] err'].
    intros [= <- <- ->].
    destruct (IH w2 rest' eq_refl) as (Hrows & Hinc & Habove).
    simpl in Hrows, Habove. subst d. simpl in Hrows, Habove.
    split; [|split].
    + rewrite Hrows, Hm. simpl. now rewrite <- app_assoc.
    + simpl. split; [|exact Hinc]. apply Forall_map. exact Habove.
    + constructor; [simpl; unfold id; lia|].
      eapply Forall_impl; [exact Habove|]. simpl. unfold id. intros m Hlt. lia.
Qed.

Lemma announce_effects (batch : list Message) :
  forall w,
    clock (announce w batch) = clock w
    /\ cached (announce w batch) = cached w ++ map cache_entry_of batch
    /\ published (announce w batch) = published w ++ map delivered_of batch.
Proof.
  unfold announce.
  induction batch as [|m rest IH]; intros w; simpl.
  - now rewrite !app_nil_r.
  - destruct (IH (publish (cacheMessage w m) m)) as (-> & -> & ->). simpl.
    now rewrite <- !app_assoc.
Qed.

(** Everything one run of the retry loop does besides the inserts. *)
Lemma attempts_effects (left : nat) :
  forall (batch : list Message) (i : nat) (lastErr : option error) (w : World),
    let r := attempts left i lastErr w batch in
    let w' := fst (fst r) in
    let batch' := snd (fst r) in
    length batch' = length batch
    /\ match snd r with
       | GaveUp _ =>
           clock w' = clock w + total_backoff left i
           /\ cached w' = cached w /\ published w' = published w
       | Persisted =>
           clock w <= clock w' <= clock w + total_backoff left i
           /\ cached w' = cached w ++ map cache_entry_of batch'
           /\ published w' = published w ++ map delivered_of batch'
           /\ increasing (map ID batch')
           /\ Forall (fun m => In (row_of m) (messages (store w'))) batch'
       end.
Proof.
  induction left as [|left IH]; intros batch i lastErr w; simpl.
  - split; [reflexivity|]. split; [lia | auto].
  - destruct (dial_rest w) as (Hc & Hca & Hp & _).
    pose proof (backoff_pos i) as Hb.
    pose proof (total_backoff_nonneg left (S i)) as Ht.
    assert (Hnext : forall e w0 b0,
               clock w0 = clock w -> cached w0 = cached w ->
               published w0 = published w -> length b0 = length batch ->
               let r := attempts left (S i) e (Sleep w0 (backoff i)) b0 in
               length (snd (fst r)) = length batch
               /\ match snd r with
                  | GaveUp _ =>
                      clock (fst (fst r)) = clock w + (backoff i + total_backoff left (S i))
                      /\ cached (fst (fst r)) = cached w
                      /\ published (fst (fst r)) = published w
                  | Persisted =>
                      clock w <= clock (fst (fst r))
                        <= clock w + (backoff i + total_backoff left (S i))
                      /\ cached (fst (fst r)) = cached w ++ map cache_entry_of (snd (fst r))
                      /\ published (fst (fst r))
                         = published w ++ map delivered_of (snd (fst r))
                      /\ increasing (map ID (snd (fst r)))
                      /\ Forall (fun m => In (row_of m) (messages (store (fst (fst r)))))
                                (snd (fst r))
                  end).
    { intros e w0 b0 Hc0 Hca0 Hp0 Hl0. simpl.
      destruct (IH b0 (S i) e (Sleep w0 (backoff i))) as (Hlen & Hrest).
      split; [congruence|].
      destruct (snd (attempts left (S i) e (Sleep w0 (backoff i)) b0));
        simpl in Hrest; rewrite Hc0, Hca0, Hp0 in Hrest.
      - destruct Hrest as (Hcl & Hrest). split; [lia | exact Hrest].
      - destruct Hrest as (Hcl & Hrest). split; [lia | exact Hrest]. }
    destruct (Begin (store (dial w))) as [e|x] eqn:HB.
    + apply Hnext; auto.
    + destruct (insert_each_rest batch (dial w)) as (Hc1 & Hca1 & Hp1 & Hl1).
      destruct (insert_each (dial w) batch) as [[w1 batch1] err] eqn:HI.
      simpl in Hc1, Hca1, Hp1, Hl1.
      destruct (dial_rest w1) as (Hc2 & Hca2 & Hp2 & Hm2 & _).
      destruct err as [e|].
      * apply Hnext; simpl; congruence.
      * pose proof (Commit_empty (store (dial w1)) x (Begin_pending _ _ HB)) as HC.
        destruct (Commit (store (dial w1)) x) as [d [e|]]; simpl in HC; subst d.
        -- apply Hnext; simpl; congruence.
        -- simpl. split; [exact Hl1|].
           destruct (announce_effects batch1 (with_store (dial w1) (store (dial w1))))
             as (Ha1 & Ha2 & Ha3).
           rewrite Ha1, Ha2, Ha3, announce_store. simpl.
           destruct (insert_each_success batch (dial w) w1 batch1 HI)
             as (Hrows & Hinc & _).
           split; [lia|]. split; [congruence|]. split; [congruence|].
           split; [exact Hinc|].
           apply Forall_forall. intros m Hm. rewrite Hm2, Hrows.
           apply in_or_app. right. apply in_map. now apply list_elem_of_In.
Qed.

(** X7. However it ends, [writeBatch] sleeps at most 3.1 seconds in all
    (100, 200, 400, 800 and 1600 ms after the five attempts); when it
    gives up it has slept exactly that long and has cached and published
    nothing. *)
Theorem writeBatch_backoff_is_bounded (w : World) (batch : list Message) :
  let r := writeBatch w batch in
  let w' := fst (fst r) in
  clock w <= clock w' <= clock w + 3100 * time.Millisecond
  /\ (forall e, snd r = GaveUp e ->
        clock w' = clock w + 3100 * time.Millisecond
        /\ cached w' = cached w /\ published w' = published w).
Proof.
  assert (Htotal : total_backoff maxRetries 0 = 3100 * time.Millisecond) by reflexivity.
  unfold writeBatch. destruct batch as [|m batch].
  - simpl. split; [unfold time.Millisecond, time.Nanosecond; lia | discriminate].
  - destruct (attempts_effects maxRetries (m :: batch) 0%nat None w) as (_ & H).
    rewrite Htotal in H.
    destruct (snd (attempts maxRetries 0 None w (m :: batch))) as [|e'] eqn:Hout.
    + split; [tauto | discriminate].
    + destruct H as (Hc & Hrest). split; [|intros e _; auto].
      unfold time.Millisecond, time.Nanosecond in *. lia.
Qed.

(** X8. What [writeBatch] announces is what it stored: when it reports
    success it has published one [message_delivered] event per message of
    the batch, in batch order with increasing ids, and each event carries
    the id, room, author, content and creation time of a row that is in
    the store, not deleted; the sorted-set entries are written for the
    same messages. *)
Theorem writeBatch_announces_stored_rows (w : World) (batch : list Message) :
  let r := writeBatch w batch in
  let w' := fst (fst r) in
  let batch' := snd (fst r) in
  snd r = Persisted ->
  length batch' = length batch
  /\ published w' = published w ++ map delivered_of batch'
  /\ cached w' = cached w ++ map cache_entry_of batch'
  /\ increasing (map ID batch')
  /\ Forall (fun m =>
               exists row, In row (messages (store w'))
                           /\ ID row = ID m /\ RoomID row = RoomID m
                           /\ UserID row = UserID m /\ Content row = Content m
                           /\ CreatedAt row = CreatedAt m /\ DeletedAt row = None)
            batch'.
Proof.
  unfold writeBatch. destruct batch as [|m batch].
  - simpl. intros _. rewrite !app_nil_r. repeat split; constructor.
  - destruct (attempts_effects maxRetries (m :: batch) 0%nat None w) as (Hlen & H).
    intros Hout. rewrite Hout in H.
    destruct H as (_ & Hca & Hp & Hinc & Hrows).
    split; [exact Hlen|]. split; [exact Hp|]. split; [exact Hca|].
    split; [exact Hinc|].
    eapply Forall_impl; [exact Hrows|]. simpl.
    intros m' Hin. exists (row_of m'). split; [exact Hin|]. repeat split.
Qed.

End WriterEffects.

Lemma writeBatch_announces_stored_rows_witness :
  map persistence.message_id
      (persistence.published
         (fst (fst (persistence.writeBatch calm_world
                      [ models.mkMessage 0 1%N 7%N "hi" "text" "" None None None 5 ]))))
  = [1].
Proof.
  destruct (writeBatch_announces_stored_rows calm_world
              [ models.mkMessage 0 1%N 7%N "hi" "text" "" None None None 5 ])
    as (_ & Hp & _).
  - vm_compute. reflexivity.
  - rewrite Hp. vm_compute. reflexivity.
Defined.

(* ===================================================================== *)
(** * The batching loop of the writer *)
(* ===================================================================== *)

Module batching.
Import models.

Definition batchSize : nat := 50.

(** What the [select] of [batchWriter] wakes up on: the context or [done],
    a value from [messageQueue] (possibly a nil pointer), or the ticker. *)
Inductive wake :=
| CtxDone
| Done
| Received (msg : option Message)
| Tick.

Section Loop.
Context {S : Type}.

(** [mw.writeBatch(ctx, batch)], for its effect on the state [S]. *)
Variable writeBatch : S -> list Message -> S.

(** [batchWriter]: the loop run on the wake-ups in the order the runtime
    chose them, from the current [batch]. It returns the state, the batch
    still pending, and whether the function has returned. *)
Fixpoint batchWriter (wakes : list wake) (batch : list Message) (s : S)
    : S * list Message * bool :=
  match wakes with
  | [] => (s, batch, false)
  | CtxDone :: _ | Done :: _ =>
      if (0 <? length batch)%nat then (writeBatch s batch, [], true)
      else (s, [], true)
  | Received None :: rest => batchWriter rest batch s
  | Received (Some msg) :: rest =>
      let batch := batch ++ [msg] in
      if (batchSize <=? length batch)%nat
      then batchWriter rest [] (writeBatch s batch)
      else batchWriter rest batch s
  | Tick :: rest =>
      if (0 <? length batch)%nat
      then batchWriter rest [] (writeBatch s batch)
      else batchWriter rest batch s
  end.

End Loop.

(** The loop of [MessageWriter], which starts from an empty batch. *)
Definition run (wakes : list wake) (w : persistence.World)
    : persistence.World * list Message * bool :=
  batchWriter (fun w batch => fst (fst (persistence.writeBatch w batch))) wakes [] w.

(** The same loop, recording the batches it hands to [writeBatch]. *)
Definition batches (wakes : list wake) (batch : list Message)
    : list (list Message) * list Message * bool :=
  batchWriter (fun log batch => log ++ [batch]) wakes batch [].

(** The messages taken from the queue before the loop returns. *)
Fixpoint received (wakes : list wake) : list Message :=
  match wakes with
  | [] => []
  | CtxDone :: _ | Done :: _ => []
  | Received None :: rest => received rest
  | Received (Some msg) :: rest => msg :: received rest
  | Tick :: rest => received rest
  end.

End batching.

Section Batching.
Import models batching.

Lemma batchWriter_log {S : Type} (writeBatch : S -> list Message -> S)
    (wakes : list wake) :
  forall (batch : list Message) (s : S) (log : list (list Message)),
    let r := batchWriter (fun log batch => log ++ [batch]) wakes batch log in
    batchWriter writeBatch wakes batch (fold_left writeBatch log s)
    = (fold_left writeBatch (fst (fst r)) s, snd (fst r), snd r).
Proof.
  induction wakes as [|wk rest IH]; intros batch s log;
    cbn [batchWriter]; cbv zeta; [reflexivity|].
  destruct wk as [| |[msg|]|]; cbn [batchWriter]; cbv zeta.
  - destruct (0 <? length batch)%nat; simpl; [|reflexivity].
    now rewrite fold_left_app.
  - destruct (0 <? length batch)%nat; simpl; [|reflexivity].
    now rewrite fold_left_app.
  - destruct (batchSize <=? length (batch ++ [msg]))%nat.
    + specialize (IH [] s (log ++ [batch ++ [msg]])).
      rewrite fold_left_app in IH. cbv zeta in IH. exact IH.
    + apply IH.
  - apply IH.
  - destruct (0 <? length batch)%nat.
    + specialize (IH [] s (log ++ [batch])).
      rewrite fold_left_app in IH. cbv zeta in IH. exact IH.
    + apply IH.
Qed.

Lemma batches_shape (wakes : list wake) :
  forall (batch : list Message) (log : list (list Message)),
    (length batch < batchSize)%nat ->
    Forall (fun b => (1 <= length b <= batchSize)%nat) log ->
    let r := batchWriter (fun log batch => log ++ [batch]) wakes batch log in
    Forall (fun b => (1 <= length b <= batchSize)%nat) (fst (fst r))
    /\ (length (snd (fst r)) < batchSize)%nat
    /\ concat (fst (fst r)) ++ snd (fst r) = concat log ++ batch ++ received wakes
    /\ (snd r = true -> snd (fst r) = []).
Proof.
  assert (Hsize : (0 < batchSize)%nat) by (unfold batchSize; lia).
  induction wakes as [|wk rest IH]; intros batch log Hlen Hlog;
    cbn [batchWriter received]; cbv zeta.
  - cbn [fst snd]. rewrite app_nil_r. repeat split; auto. discriminate.
  - destruct wk as [| |[msg|]|]; cbn [batchWriter received]; cbv zeta.
    + destruct (Nat.ltb_spec 0 (length batch)); simpl.
      * split; [apply Forall_app; split; [exact Hlog | constructor; [lia|constructor]]|].
        split; [lia|]. split; [|reflexivity].
        rewrite concat_app. simpl. now rewrite !app_nil_r.
      * destruct batch; simpl in *; [|lia]. rewrite !app_nil_r. auto.
    + destruct (Nat.ltb_spec 0 (length batch)); simpl.
      * split; [apply Forall_app; split; [exact Hlog | constructor; [lia|constructor]]|].
        split; [lia|]. split; [|reflexivity].
        rewrite concat_app. simpl. now rewrite !app_nil_r.
      * destruct batch; simpl in *; [|lia]. rewrite !app_nil_r. auto.
    + assert (Hl : length (batch ++ [msg]) = S (length batch))
        by (rewrite length_app; simpl; lia).
      destruct (Nat.leb_spec batchSize (length (batch ++ [msg]))).
      * destruct (IH [] (log ++ [batch ++ [msg]])) as (H1 & H2 & H3 & H4).
        { simpl. lia. }
        { apply Forall_app. split; [exact Hlog|]. constructor; [lia|constructor]. }
        split; [exact H1|]. split; [exact H2|]. split; [|exact H4].
        rewrite H3, concat_app. simpl. now rewrite app_nil_r, <- !app_assoc.
      * destruct (IH (batch ++ [msg]) log) as (H1 & H2 & H3 & H4); [lia|exact Hlog|].
        split; [exact H1|]. split; [exact H2|]. split; [|exact H4].
        rewrite H3. now rewrite <- !app_assoc.
    + apply IH; assumption.
    + destruct (Nat.ltb_spec 0 (length batch)).
      * destruct (IH [] (log ++ [batch])) as (H1 & H2 & H3 & H4).
        { simpl. lia. }
        { apply Forall_app. split; [exact Hlog|]. constructor; [lia|constructor]. }
        split; [exact H1|]. split; [exact H2|]. split; [|exact H4].
        rewrite H3, concat_app. simpl. now rewrite ?app_nil_r, <- ?app_assoc.
      * apply IH; assumption.
Qed.

(** X9. The batching loop loses nothing it has taken from the queue and
    keeps the order: the batches it hands to [writeBatch], one after the
    other, followed by the batch still pending, are exactly the non-nil
    messages received before the loop returned, in the order received;
    every batch handed over has between 1 and 50 messages; fewer than 50
    are ever pending; and when the loop returns (context or [done]) the
    pending batch has been handed over too. What [run] does to the store
    is [writeBatch] applied to those batches in turn. *)
Theorem batchWriter_flushes_in_order (wakes : list wake) (w : persistence.World) :
  let '(flushed, pending, returned) := batches wakes [] in
  run wakes w
    = (fold_left (fun w batch => fst (fst (persistence.writeBatch w batch))) flushed w,
       pending, returned)
  /\ Forall (fun b => (1 <= length b <= 50)%nat) flushed
  /\ (length pending < 50)%nat
  /\ concat flushed ++ pending = received wakes
  /\ (returned = true -> pending = []).
Proof.
  pose proof (batchWriter_log
                (fun w batch => fst (fst (persistence.writeBatch w batch)))
                wakes [] w []) as Hrun.
  pose proof (batches_shape wakes [] []) as Hshape.
  unfold run, batches.
  destruct (batchWriter (fun log batch => log ++ [batch]) wakes [] [])
    as [[flushed pending] returned].
  simpl in Hrun, Hshape.
  split; [exact Hrun|].
  apply Hshape; [unfold batchSize; lia | constructor].
Qed.

End Batching.

(** Fifty-one messages, then the ticker, then [done]: one batch of fifty
    at the fiftieth message, one of one at the tick, nothing left at the
    end. *)
Example batchWriter_fifty_one :
  let msg := models.mkMessage 0 1%N 7%N "hi" "text" "" None None None 5 in
  let wakes := repeat (batching.Received (Some msg)) 51
                 ++ [batching.Tick; batching.Done] in
  map (@length _) (fst (fst (batching.batches wakes []))) = [50%nat; 1%nat]
  /\ snd (batching.batches wakes []) = true.
Proof. vm_compute. split; reflexivity. Qed.

(** ** The cached ids *)

Module cachedids.

Section Parse.

(** [strconv.ParseInt(s, 10, 64)], outside the repository: the value, or
    [None] for an error. *)
Variable ParseInt : string -> option Z.

(** [parseMessageID]: the parsed id, stored through the pointer only when
    parsing succeeds. *)
Definition parseMessageID (s : string) : option Z := ParseInt s.

(** The loop of [GetCachedMessages] over the reply of ZREVRANGE, from
    index [i]: [messageIDs[i] = id] when the entry parses, [continue]
    otherwise. *)
Fixpoint fill (vals : list string) (i : nat) (messageIDs : list Z) : list Z :=
  match vals with
  | [] => messageIDs
  | v :: rest =>
      match parseMessageID v with
      | None => fill rest (S i) messageIDs
      | Some id => fill rest (S i) (<[i := id]> messageIDs)
      end
  end.

(** [GetCachedMessages] given the reply: an error is passed on, otherwise
    the slice made with [make([]int64, len(vals))] is filled. *)
Definition GetCachedMessages {E : Type} (reply : E + list string) : E + list Z :=
  match reply with
  | inl err => inl err
  | inr vals => inr (fill vals 0 (replicate (length vals) 0))
  end.

End Parse.

End cachedids.

Section CachedIds.
Import cachedids.
Variable ParseInt : string -> option Z.

Lemma fill_spec (vals : list string) :
  forall (done : list Z),
    fill ParseInt vals (length done) (done ++ replicate (length vals) 0)
    = done ++ map (fun v => default 0 (ParseInt v)) vals.
Proof.
  induction vals as [|v rest IH]; intros done; simpl; [reflexivity|].
  unfold parseMessageID.
  destruct (ParseInt v) as [id|]; simpl.
  - rewrite insert_app_r_alt by lia. rewrite Nat.sub_diag. simpl.
    specialize (IH (done ++ [id])).
    rewrite length_app, <- !app_assoc in IH. simpl in IH.
    now rewrite Nat.add_1_r in IH.
  - specialize (IH (done ++ [0])).
    rewrite length_app, <- !app_assoc in IH. simpl in IH.
    now rewrite Nat.add_1_r in IH.
Qed.

(** X10. [GetCachedMessages] returns one id per entry of the cache reply,
    in the order of the reply: the parsed id where the entry parses and 0
    where it does not (such an entry is not skipped, it leaves a 0 in the
    result); an error of the cache is passed on unchanged. *)
Theorem GetCachedMessages_one_id_per_entry {E : Type} (vals : list string) :
  @GetCachedMessages ParseInt E (inr vals)
    = inr (map (fun v => default 0 (ParseInt v)) vals)
  /\ (exists ids, @GetCachedMessages ParseInt E (inr vals) = inr ids
                  /\ length ids = length vals).
Proof.
  simpl. pose proof (fill_spec vals []) as H. simpl in H. rewrite H.
  split; [reflexivity|]. eexists. split; [reflexivity|]. apply length_map.
Qed.

End CachedIds.

(* ===================================================================== *)
(** * More on the registry *)
(* ===================================================================== *)

Section Sweeper.
Import rooms.

(** The test of the sweep on one room: idle for more than the threshold,
    registered, and without clients. *)
Definition cold (now : Z) (lastActive : Z) (room : option Room) : bool :=
  (inactivityThreshold <? time.Sub now lastActive)
  && match room with
     | Some r => bool_decide (size (clients r) = 0%nat)
     | None => false
     end.

(** A room the sweep at [now] evicts: it has a last-activity entry and
    passes the test. *)
Definition evictable (now : Z) (m : Manager) (roomID : N) : bool :=
  match lastActivity m !! roomID with
  | Some lastActive => cold now lastActive (rooms m !! roomID)
  | None => false
  end.

Lemma evict_one_at (now : Z) (m : Manager) (k0 : N) (t0 : Z) (k : N) :
  let m' := evict_one now m (k0, t0) in
  rooms m' !! k
    = (if decide (k = k0)
       then if cold now t0 (rooms m !! k0) then None else rooms m !! k0
       else rooms m !! k)
  /\ lastActivity m' !! k
     = (if decide (k = k0)
        then if cold now t0 (rooms m !! k0) then None else lastActivity m !! k0
        else lastActivity m !! k)
  /\ unregisterRoom m' = unregisterRoom m /\ probes m' = probes m.
Proof.
  unfold evict_one, cold.
  destruct (inactivityThreshold <? time.Sub now t0); simpl.
  - destruct (rooms m !! k0) as [room|] eqn:Hk0.
    + case_bool_decide as Hempty; simpl.
      * destruct (decide (k = k0)) as [->|Hne].
        -- now rewrite !lookup_delete_eq.
        -- rewrite !lookup_delete_ne by congruence. auto.
      * destruct (decide (k = k0)) as [->|Hne]; auto.
    + destruct (decide (k = k0)) as [->|Hne]; auto.
  - destruct (decide (k = k0)) as [->|Hne]; auto.
Qed.

Lemma sweep_fold (now : Z) (entries : list (N * Z)) :
  forall (m : Manager),
    NoDup (entries.*1) ->
    let m' := fold_left (evict_one now) entries m in
    (forall k, k ∉ entries.*1 ->
       rooms m' !! k = rooms m !! k /\ lastActivity m' !! k = lastActivity m !! k)
    /\ (forall k t, (k, t) ∈ entries ->
          rooms m' !! k = (if cold now t (rooms m !! k) then None else rooms m !! k)
          /\ lastActivity m' !! k
             = (if cold now t (rooms m !! k) then None else lastActivity m !! k))
    /\ unregisterRoom m' = unregisterRoom m /\ probes m' = probes m.
Proof.
  induction entries as [|[k0 t0] rest IH]; intros m Hnd; cbn [fold_left]; cbv zeta.
  - split; [auto|]. split; [|auto]. intros k t Hin. inversion Hin.
  - simpl in Hnd. apply NoDup_cons in Hnd as [Hk0 Hnd].
    destruct (IH (evict_one now m (k0, t0)) Hnd) as (Hout & Hin & Hu & Hp).
    cbv zeta in Hout, Hin, Hu, Hp.
    split; [|split].
    + intros k Hk. apply not_elem_of_cons in Hk as [Hne Hk].
      destruct (Hout k Hk) as [-> ->].
      destruct (evict_one_at now m k0 t0 k) as (-> & -> & _).
      now rewrite !decide_False by exact Hne.
    + intros k t Hkt. apply elem_of_cons in Hkt as [[= -> ->]|Hkt].
      * destruct (Hout k0 Hk0) as [-> ->].
        destruct (evict_one_at now m k0 t0 k0) as (-> & -> & _).
        now rewrite !decide_True by reflexivity.
      * assert (Hne : k <> k0).
        { intros ->. apply Hk0. apply list_elem_of_fmap. now exists (k0, t). }
        destruct (Hin k t Hkt) as [-> ->].
        destruct (evict_one_at now m k0 t0 k) as (-> & -> & _).
        now rewrite !decide_False by exact Hne.
    + destruct (evict_one_at now m k0 t0 k0) as (_ & _ & Hu1 & Hp1).
      split; congruence.
Qed.

(** What a sweep leaves, room by room. *)
Lemma evictColdRooms_at (m : Manager) (now : Z) (k : N) :
  rooms (evictColdRooms m now) !! k
    = (if evictable now m k then None else rooms m !! k)
  /\ lastActivity (evictColdRooms m now) !! k
     = (if evictable now m k then None else lastActivity m !! k)
  /\ unregisterRoom (evictColdRooms m now) = unregisterRoom m
  /\ probes (evictColdRooms m now) = probes m.
Proof.
  unfold evictColdRooms, evictable.
  destruct (sweep_fold now (map_to_list (lastActivity m)) m
              (NoDup_fst_map_to_list _)) as (Hout & Hin & Hu & Hp).
  split; [|split; [|auto]].
  - destruct (lastActivity m !! k) as [t|] eqn:Hk.
    + apply elem_of_map_to_list in Hk. now destruct (Hin k t Hk) as [-> _].
    + apply Hout. intros Hel. apply list_elem_of_fmap in Hel as ([k' t] & -> & Hel).
      apply elem_of_map_to_list in Hel. simpl in Hk. congruence.
  - destruct (lastActivity m !! k) as [t|] eqn:Hk.
    + pose proof Hk as Hk'. apply elem_of_map_to_list in Hk'.
      destruct (Hin k t Hk') as [_ ->]. now rewrite Hk.
    + destruct (Hout k) as [_ ->]; [|exact Hk].
      intros Hel. apply list_elem_of_fmap in Hel as ([k' t] & -> & Hel).
      apply elem_of_map_to_list in Hel. simpl in Hk. congruence.
Qed.

Lemma Manager_eq (a b : Manager) :
  rooms a = rooms b -> lastActivity a = lastActivity b ->
  unregisterRoom a = unregisterRoom b -> probes a = probes b -> a = b.
Proof. destruct a, b. simpl. intros -> -> -> ->. reflexivity. Qed.

(** X11. One tick of the sweeper removes from the registry, together with
    their last-activity entries, exactly the rooms that have a
    last-activity entry older than the threshold and no client; every
    other room and entry is left as it is, as are the pending probes; and
    sweeping again at the same instant changes nothing more. *)
Theorem evictColdRooms_exact_and_idempotent (m : Manager) (now : Z) :
  (forall k,
     rooms (evictColdRooms m now) !! k
       = (if evictable now m k then None else rooms m !! k)
     /\ lastActivity (evictColdRooms m now) !! k
        = (if evictable now m k then None else lastActivity m !! k))
  /\ unregisterRoom (evictColdRooms m now) = unregisterRoom m
  /\ probes (evictColdRooms m now) = probes m
  /\ evictColdRooms (evictColdRooms m now) now = evictColdRooms m now.
Proof.
  split; [|split; [|split]].
  - intros k. destruct (evictColdRooms_at m now k) as (H1 & H2 & _). auto.
  - apply (evictColdRooms_at m now 0%N).
  - apply (evictColdRooms_at m now 0%N).
  - apply Manager_eq.
    + apply map_eq. intros k.
      destruct (evictColdRooms_at (evictColdRooms m now) now k) as (-> & _).
      destruct (evictColdRooms_at m now k) as (Hr & Hl & _).
      unfold evictable at 1. rewrite Hr, Hl.
      unfold evictable. destruct (lastActivity m !! k) as [t|]; [|reflexivity].
      destruct (cold now t (rooms m !! k)) eqn:Hc; [reflexivity|].
      now rewrite Hc.
    + apply map_eq. intros k.
      destruct (evictColdRooms_at (evictColdRooms m now) now k) as (_ & -> & _).
      destruct (evictColdRooms_at m now k) as (Hr & Hl & _).
      unfold evictable at 1. rewrite Hr, Hl.
      unfold evictable. destruct (lastActivity m !! k) as [t|]; [|reflexivity].
      destruct (cold now t (rooms m !! k)) eqn:Hc; [reflexivity|].
      now rewrite Hc.
    + destruct (evictColdRooms_at (evictColdRooms m now) now 0%N) as (_ & _ & -> & _).
      reflexivity.
    + destruct (evictColdRooms_at (evictColdRooms m now) now 0%N) as (_ & _ & _ & ->).
      reflexivity.
Qed.

(** Sweeps one after the other, at the given instants. *)
Definition sweeps (nows : list Z) (m : Manager) : Manager :=
  fold_left evictColdRooms nows m.

(** X12. The last-activity entry of a room that [removeRoom] took out of
    the registry is never cleaned up: [removeRoom] leaves the entry where
    it is, and no number of later sweeps deletes it (the sweep only
    deletes entries of rooms it finds in the registry). *)
Theorem removeRoom_leaks_lastActivity
    (m : Manager) (roomID : N) (room : Room) (lastActive : Z) (nows : list Z) :
  rooms m !! roomID = Some room ->
  lastActivity m !! roomID = Some lastActive ->
  let m1 := fst (removeRoom m roomID) in
  rooms (sweeps nows m1) !! roomID = None
  /\ lastActivity (sweeps nows m1) !! roomID = Some lastActive.
Proof.
  intros Hroom Hact. simpl.
  assert (H1 : rooms (fst (removeRoom m roomID)) !! roomID = None
               /\ lastActivity (fst (removeRoom m roomID)) !! roomID = Some lastActive).
  { unfold removeRoom. rewrite Hroom. simpl. split; [apply lookup_delete_eq | exact Hact]. }
  revert H1. generalize (fst (removeRoom m roomID)) as m1.
  unfold sweeps. induction nows as [|now rest IH]; intros m1 [Hr Hl]; simpl; [auto|].
  apply IH.
  destruct (evictColdRooms_at m1 now roomID) as (-> & -> & _).
  unfold evictable, cold. rewrite Hl, Hr, andb_false_r. auto.
Qed.

(** X13. [GetOrCreateRoom] never replaces a room the registry holds: the
    room, with its clients, inbox and typing entries, is the same after
    the call, and only its last-activity entry is refreshed; but once
    [removeRoom] has taken the room out, the next [GetOrCreateRoom]
    registers a new empty room under the id, without the clients of the
    old one. *)
Theorem GetOrCreateRoom_keeps_or_starts_afresh
    (m : Manager) (now : Z) (roomID : N) (room : Room) :
  rooms m !! roomID = Some room ->
  rooms (GetOrCreateRoom m now roomID) = rooms m
  /\ lastActivity (GetOrCreateRoom m now roomID) !! roomID = Some now
  /\ rooms (GetOrCreateRoom (fst (removeRoom m roomID)) now roomID) !! roomID
     = Some (mkRoom roomID ∅ [] false ∅).
Proof.
  intros Hroom. split; [|split].
  - unfold GetOrCreateRoom. now rewrite Hroom.
  - unfold GetOrCreateRoom. rewrite Hroom. simpl. apply lookup_insert_eq.
  - unfold removeRoom. rewrite Hroom. simpl.
    unfold GetOrCreateRoom. simpl. rewrite lookup_delete_eq. simpl.
    apply lookup_insert_eq.
Qed.

End Sweeper.

(** A registry holding room 1, created at instant 0. *)
Definition lone_room_manager : rooms.Manager :=
  rooms.GetOrCreateRoom rooms.NewManager 0 1%N.

Lemma lone_room_manager_room :
  rooms.rooms lone_room_manager !! 1%N = Some (rooms.mkRoom 1%N ∅ [] false ∅).
Proof. reflexivity. Qed.

Lemma removeRoom_leaks_lastActivity_witness :
  rooms.lastActivity
    (sweeps [700 * time.Second; 1400 * time.Second]
            (fst (rooms.removeRoom lone_room_manager 1%N))) !! 1%N
  = Some 0.
Proof.
  apply (removeRoom_leaks_lastActivity lone_room_manager 1%N
           (rooms.mkRoom 1%N ∅ [] false ∅) 0
           [700 * time.Second; 1400 * time.Second]).
  - exact lone_room_manager_room.
  - reflexivity.
Defined.

Lemma GetOrCreateRoom_keeps_or_starts_afresh_witness :
  rooms.rooms (rooms.GetOrCreateRoom lone_room_manager 99 1%N)
  = rooms.rooms lone_room_manager.
Proof.
  apply (GetOrCreateRoom_keeps_or_starts_afresh lone_room_manager 99 1%N
           (rooms.mkRoom 1%N ∅ [] false ∅)).
  exact lone_room_manager_room.
Defined.

Section Delivery.
Import rooms.

(** What a client's queue is after being offered the events in turn: the
    events are appended in order for as long as there is room, the rest
    is dropped. *)
Lemma offer_all (events : list Event) :
  forall c : Client,
    fold_left (fun c e => offer e c) events c
    = mkClient (room c) (userID c)
               (send c ++ firstn (sendCapacity - length (send c)) events)
               (closed c).
Proof.
  induction events as [|e rest IH]; intros c; simpl.
  - rewrite firstn_nil, app_nil_r. now destruct c.
  - rewrite IH. unfold offer.
    destruct (Nat.ltb_spec (length (send c)) sendCapacity) as [Hlt|Hge]; simpl.
    + rewrite length_app. simpl.
      replace (sendCapacity - length (send c))%nat
        with (S (sendCapacity - (length (send c) + 1)))%nat by lia.
      simpl. now rewrite <- app_assoc.
    + replace (sendCapacity - length (send c))%nat with 0%nat by lia.
      reflexivity.
Qed.

Lemma fan_out_all_lookup (events : list Event) :
  forall (r : Room) (p : nat),
    clients (fan_out_all events r) !! p
    = (fun c => fold_left (fun c e => offer e c) events c) <$> clients r !! p.
Proof.
  unfold fan_out_all.
  induction events as [|e rest IH]; intros r p; simpl.
  - now destruct (clients r !! p).
  - rewrite IH, fan_out_lookup. now destruct (clients r !! p).
Qed.

Lemma fan_out_all_clients (events : list Event) :
  forall r : Room,
    fan_out_all events r
    = set_clients r (fold_left (fun cs e => offer e <$> cs) events (clients r)).
Proof.
  unfold fan_out_all.
  induction events as [|e rest IH]; intros r; simpl; [now destruct r|].
  now rewrite IH.
Qed.

(** The broadcast case of the loop, run once per instant of [nows]. *)
Definition drain (nows : list Z) (roomID : N) (m : Manager) : Manager :=
  fold_left (fun m now => handle_broadcast m now roomID) nows m.

Lemma drain_room (nows : list Z) (roomID : N) :
  forall (m : Manager) (r : Room),
    rooms m !! roomID = Some r ->
    length nows = length (broadcast r) ->
    rooms (drain nows roomID m) !! roomID
    = Some (set_broadcast (fan_out_all (broadcast r) r) []).
Proof.
  unfold drain.
  induction nows as [|now rest IH]; intros m r Hr Hlen; simpl.
  - destruct (broadcast r) eqn:Hb; [|discriminate]. rewrite Hr. f_equal.
    destruct r. simpl in *. now subst.
  - destruct (broadcast r) as [|e inbox] eqn:Hb; [discriminate|].
    simpl in Hlen.
    assert (Hstep : rooms (handle_broadcast m now roomID) !! roomID
                    = Some (fan_out e (set_broadcast r inbox))).
    { unfold handle_broadcast. rewrite Hr, Hb. simpl. apply lookup_insert_eq. }
    rewrite (IH _ _ Hstep) by (simpl; lia). simpl. f_equal.
    rewrite !fan_out_all_clients. reflexivity.
Qed.

(** X14. Fan-out keeps the order of the room: after the loop has handled
    every event of the inbox, the queue of an attached session is what it
    was followed by the events of the inbox in inbox order, up to the
    capacity of the queue (256): the events that no longer fit are
    dropped, none is reordered or duplicated, and the inbox is empty. *)
Theorem broadcast_preserves_inbox_order
    (m : Manager) (roomID : N) (r : Room) (p : nat) (c : Client) (nows : list Z) :
  rooms m !! roomID = Some r ->
  clients r !! p = Some c ->
  length nows = length (broadcast r) ->
  exists r',
    rooms (drain nows roomID m) !! roomID = Some r'
    /\ broadcast r' = []
    /\ clients r' !! p
       = Some (mkClient (room c) (userID c)
                        (send c ++ firstn (sendCapacity - length (send c)) (broadcast r))
                        (closed c)).
Proof.
  intros Hr Hp Hlen. eexists. split; [exact (drain_room nows roomID m r Hr Hlen)|].
  split; [reflexivity|]. simpl.
  rewrite fan_out_all_lookup, Hp. simpl. now rewrite offer_all.
Qed.

End Delivery.

(** Room 1 with one attached session and three events waiting. *)
Definition manager_with_inbox : rooms.Manager :=
  rooms.mkManager
    {[ 1%N := rooms.mkRoom 1%N {[ 2%nat := fast_client ]}
                [rooms.Payload "a"; rooms.Payload "b"; rooms.Payload "c"] false ∅ ]}
    {[ 1%N := 0 ]} [] [].

Lemma broadcast_preserves_inbox_order_witness :
  exists r',
    rooms.rooms (drain [10; 20; 30] 1%N manager_with_inbox) !! 1%N = Some r'
    /\ rooms.send <$> rooms.clients r' !! 2%nat
       = Some [rooms.Payload "a"; rooms.Payload "b"; rooms.Payload "c"].
Proof.
  destruct (broadcast_preserves_inbox_order manager_with_inbox 1%N
              (rooms.mkRoom 1%N {[ 2%nat := fast_client ]}
                 [rooms.Payload "a"; rooms.Payload "b"; rooms.Payload "c"] false ∅)
              2%nat fast_client [10; 20; 30])
    as (r' & Hr' & _ & Hc).
  - reflexivity.
  - reflexivity.
  - reflexivity.
  - exists r'. split; [exact Hr'|]. rewrite Hc. reflexivity.
Defined.

Section AttachDetach.
Import rooms.

Lemma send_broadcast_open (r : Room) (event : Event) :
  broadcast_closed r = false ->
  (length (broadcast r) < broadcastCapacity)%nat ->
  send_broadcast r event = Some (set_broadcast r (broadcast r ++ [event])).
Proof. intros Hopen Hlen. apply send_broadcast_Some. auto. Qed.

Lemma handle_register_attached (m : Manager) (now : Z) (roomID : N) (r : Room)
    (p : nat) (c : Client) :
  rooms m !! roomID = Some r ->
  broadcast_closed r = false ->
  (length (broadcast r) < broadcastCapacity)%nat ->
  handle_register m now roomID p c
  = Some (mkManager
            (<[roomID := mkRoom (ID r) (<[p := c]> (clients r))
                           (broadcast r ++ [UserEvent "join" (userID c) roomID])
                           (broadcast_closed r) (typingTrackers r)]> (rooms m))
            (<[roomID := now]> (lastActivity m)) (unregisterRoom m) (probes m)).
Proof.
  intros Hr Hopen Hlen.
  unfold handle_register. rewrite Hr. unfold BroadcastUserEvent. simpl.
  rewrite lookup_insert_eq. rewrite send_broadcast_open by assumption. simpl.
  unfold set_rooms. simpl. now rewrite insert_insert_eq.
Qed.

Lemma handle_unregister_attached (m : Manager) (now : Z) (roomID : N) (r : Room)
    (p : nat) (c : Client) :
  rooms m !! roomID = Some r ->
  clients r !! p = Some c ->
  broadcast_closed r = false ->
  (length (broadcast r) < broadcastCapacity)%nat ->
  handle_unregister m now roomID p
  = Some (mkManager
            (<[roomID := mkRoom (ID r) (delete p (clients r))
                           (broadcast r ++ [UserEvent "leave" (userID c) roomID])
                           (broadcast_closed r) (typingTrackers r)]> (rooms m))
            (lastActivity m) (unregisterRoom m)
            (probes m ++ (if bool_decide (size (delete p (clients r)) = 0%nat)
                          then [(now + emptyRoomGrace, roomID)] else [])),
          Some (close_send c)).
Proof.
  intros Hr Hp Hopen Hlen.
  unfold handle_unregister. rewrite Hr, Hp. unfold BroadcastUserEvent. simpl.
  rewrite lookup_insert_eq. rewrite send_broadcast_open by assumption. simpl.
  rewrite lookup_insert_eq. simpl. rewrite insert_insert_eq.
  case_bool_decide; simpl; [reflexivity|].
  unfold set_rooms. simpl. now rewrite app_nil_r.
Qed.

Lemma handle_unregister_absent (m : Manager) (now : Z) (roomID : N) (r : Room) (p : nat) :
  rooms m !! roomID = Some r ->
  clients r !! p = None ->
  handle_unregister m now roomID p
  = Some (if bool_decide (size (clients r) = 0%nat)
          then schedule_probe m now roomID else m, None).
Proof.
  intros Hr Hp. unfold handle_unregister. rewrite Hr, Hp. simpl. rewrite Hr. simpl.
  now case_bool_decide.
Qed.

(** On a closed inbox the join of the register case panics: the step
    does not complete. *)
Lemma handle_register_closed (m : Manager) (now : Z) (roomID : N) (r : Room)
    (p : nat) (c : Client) :
  rooms m !! roomID = Some r ->
  broadcast_closed r = true ->
  broadcast_send (set_clients r (<[p := c]> (clients r)))
                 (UserEvent "join" (userID c) roomID) = Panics
  /\ handle_register m now roomID p c = None.
Proof.
  intros Hr Hclosed. split.
  - unfold broadcast_send. simpl. now rewrite Hclosed.
  - unfold handle_register. rewrite Hr. unfold BroadcastUserEvent. simpl.
    rewrite lookup_insert_eq. unfold send_broadcast, broadcast_send. simpl.
    now rewrite Hclosed.
Qed.

(** X15. Attach and detach undo each other on the client set, while the
    inbox of the room is open: registering a session that is not yet
    attached and then unregistering it leaves the room with the clients
    it had, and the join and the leave event at the end of its inbox; the
    unregister hands back the session with its outbound channel closed.
    Unregistering the same session again closes nothing and changes no
    room: the session's channel is closed once. On a room whose inbox is
    closed, as [Manager.Stop] leaves every room of the registry, the
    register case does not complete: its send of the join event
    panics. *)
Theorem register_then_unregister
    (m : Manager) (roomID : N) (r : Room) (p : nat) (c : Client) (t1 t2 t3 : Z) :
  rooms m !! roomID = Some r ->
  clients r !! p = None ->
  (broadcast_closed r = false ->
   (length (broadcast r) + 2 <= broadcastCapacity)%nat ->
   exists m1 m2 m3 r2,
     handle_register m t1 roomID p c = Some m1
     /\ handle_unregister m1 t2 roomID p = Some (m2, Some (close_send c))
     /\ rooms m2 !! roomID = Some r2
     /\ clients r2 = clients r
     /\ broadcast r2
        = broadcast r ++ [UserEvent "join" (userID c) roomID;
                          UserEvent "leave" (userID c) roomID]
     /\ typingTrackers r2 = typingTrackers r
     /\ handle_unregister m2 t3 roomID p = Some (m3, None)
     /\ rooms m3 = rooms m2)
  /\ (broadcast_closed r = true ->
      broadcast_send (set_clients r (<[p := c]> (clients r)))
                     (UserEvent "join" (userID c) roomID) = Panics
      /\ handle_register m t1 roomID p c = None)
  /\ (exists closed,
        rooms (Stop m) !! roomID = Some closed
        /\ broadcast_closed closed = true
        /\ clients closed = clients r /\ broadcast closed = broadcast r
        /\ handle_register (Stop m) t1 roomID p c = None).
Proof.
  intros Hr Hp. split; [|split].
  - intros Hopen Hlen.
    pose proof (handle_register_attached m t1 roomID r p c Hr Hopen ltac:(lia)) as H1.
    set (r1 := mkRoom (ID r) (<[p := c]> (clients r))
                 (broadcast r ++ [UserEvent "join" (userID c) roomID])
                 (broadcast_closed r) (typingTrackers r)) in H1.
    set (m1 := mkManager (<[roomID := r1]> (rooms m)) (<[roomID := t1]> (lastActivity m))
                 (unregisterRoom m) (probes m)) in H1.
    assert (Hr1 : rooms m1 !! roomID = Some r1) by apply lookup_insert_eq.
    assert (Hp1 : clients r1 !! p = Some c) by apply lookup_insert_eq.
    assert (Ho1 : broadcast_closed r1 = false) by exact Hopen.
    assert (Hl1 : (length (broadcast r1) < broadcastCapacity)%nat).
    { simpl. rewrite length_app. simpl. lia. }
    pose proof (handle_unregister_attached m1 t2 roomID r1 p c Hr1 Hp1 Ho1 Hl1) as H2.
    set (r2 := mkRoom (ID r1) (delete p (clients r1))
                 (broadcast r1 ++ [UserEvent "leave" (userID c) roomID])
                 (broadcast_closed r1) (typingTrackers r1)) in H2.
    set (m2 := mkManager (<[roomID := r2]> (rooms m1)) (lastActivity m1)
                 (unregisterRoom m1) _) in H2.
    assert (Hr2 : rooms m2 !! roomID = Some r2) by apply lookup_insert_eq.
    assert (Hc2 : clients r2 = clients r) by (simpl; now apply delete_insert_id).
    assert (Hp2 : clients r2 !! p = None) by (rewrite Hc2; exact Hp).
    pose proof (handle_unregister_absent m2 t3 roomID r2 p Hr2 Hp2) as H3.
    exists m1, m2,
      (if bool_decide (size (clients r2) = 0%nat) then schedule_probe m2 t3 roomID else m2),
      r2.
    split; [exact H1|]. split; [exact H2|]. split; [exact Hr2|]. split; [exact Hc2|].
    split; [simpl; now rewrite <- app_assoc|]. split; [reflexivity|].
    split; [exact H3|]. now case_bool_decide.
  - intros Hclosed. now apply handle_register_closed with (r := r).
  - assert (Hstop : rooms (Stop m) !! roomID
                    = Some (mkRoom (ID r) (clients r) (broadcast r) true
                                   (typingTrackers r))).
    { unfold Stop. simpl. rewrite lookup_fmap, Hr. reflexivity. }
    eexists. split; [exact Hstop|]. repeat (split; [reflexivity|]).
    now apply (handle_register_closed (Stop m) t1 roomID _ p c Hstop).
Qed.

End AttachDetach.

Lemma register_then_unregister_witness :
  (exists m1 m2,
     rooms.handle_register lone_room_manager 5 1%N 1%nat first_client = Some m1
     /\ rooms.handle_unregister m1 9 1%N 1%nat
        = Some (m2, Some (rooms.close_send first_client)))
  /\ rooms.handle_register (rooms.Stop lone_room_manager) 5 1%N 1%nat first_client = None.
Proof.
  destruct (register_then_unregister lone_room_manager 1%N
              (rooms.mkRoom 1%N ∅ [] false ∅) 1%nat first_client 5 9 12
              lone_room_manager_room eq_refl)
    as (Hopen & _ & closed & _ & _ & _ & _ & Hstopped).
  split; [|exact Hstopped].
  destruct Hopen as (m1 & m2 & _ & _ & H1 & H2 & _).
  - reflexivity.
  - vm_compute. lia.
  - exists m1, m2. split; [exact H1 | exact H2].
Defined.

Section TypingMore.
Import rooms.

(** X16. What a tick of the room leaves in the typing tracker: exactly the
    entries that are at most three seconds old at the tick, each with the
    instant it had; an entry older than that is gone, and no entry is
    added or changed. *)
Theorem expire_typing_keeps_recent (now : Z) (r : Room) (u : N) (t : Z) :
  typingTrackers (expire_typing now r) !! u = Some t
  <-> typingTrackers r !! u = Some t /\ now - t <= typingExpiry.
Proof.
  rewrite expire_typing_lookup.
  destruct (typingTrackers r !! u) as [t0|]; [|split; [discriminate | tauto]].
  destruct (stale now t0) eqn:Hs.
  - apply stale_spec in Hs. split; [discriminate|].
    intros [[= ->] Hle]. lia.
  - split.
    + intros [= ->]. split; [reflexivity|].
      destruct (Z.le_gt_cases (now - t) typingExpiry) as [H|H]; [exact H|].
      apply stale_spec in H. congruence.
    + tauto.
Qed.

(** [HandleTypingEvent] goes through exactly when the inbox of the room
    is open and has a free slot; it blocks on a full inbox and panics on
    a closed one. When it goes through, a typing_start records the
    instant for the user (replacing an earlier one), a typing_stop
    removes the user's entry (harmless when there is none), the entries
    of the other users are untouched, and one typing_update event with
    the same flag is put last in the inbox. *)
Lemma HandleTypingEvent_effect (r : Room) (now : Z) (u : N) (isTyping : bool) :
  if negb (broadcast_closed r) && (length (broadcast r) <? broadcastCapacity)%nat then
    exists r',
      HandleTypingEvent r now u isTyping = Some r'
      /\ typingTrackers r' !! u = (if isTyping then Some now else None)
      /\ (forall v, v <> u -> typingTrackers r' !! v = typingTrackers r !! v)
      /\ broadcast r' = broadcast r ++ [TypingUpdate u isTyping]
      /\ clients r' = clients r
  else HandleTypingEvent r now u isTyping = None.
Proof.
  unfold HandleTypingEvent, send_broadcast, broadcast_send. simpl.
  destruct (broadcast_closed r); [reflexivity|]. simpl.
  destruct (length (broadcast r) <? broadcastCapacity)%nat; [|reflexivity].
  eexists. split; [reflexivity|]. simpl.
  split; [|split; [|auto]].
  - destruct isTyping; [apply lookup_insert_eq | apply lookup_delete_eq].
  - intros v Hv. destruct isTyping;
      [apply lookup_insert_ne | apply lookup_delete_ne]; congruence.
Qed.

End TypingMore.

(* ===================================================================== *)
(** * More on the session *)
(* ===================================================================== *)

Section FrameIdentity.
Import models rooms.

(** X17. A session acts in its own name only: whatever the frame says,
    each frame has exactly one effect; a message handed to the writer
    carries the room and the user of the session and comes from a frame
    of type "message"; a typing event and a read receipt are for the user
    of the session; and the only frames put in the room's inbox as they
    came are those of the four types message_edited, message_deleted,
    reaction_added and reaction_removed. *)
Theorem readPump_frame_acts_for_its_session
    (c : Client) (now : Z) (decoded : option (gmap string JSON)) :
  let effects := readPump_frame c now decoded in
  length effects = 1%nat
  /\ (forall m, In (QueueMessage m) effects ->
        RoomID m = room c /\ UserID m = userID c /\ CreatedAt m = now
        /\ models.ID m = 0
        /\ exists msg, decoded = Some msg
                       /\ msg !! "type" = Some (JString "message")
                       /\ msg !! "content" = Some (JString (Content m)))
  /\ (forall u isTyping, In (TypingEvent u isTyping) effects -> u = userID c)
  /\ (forall messageID u, In (MarkMessageRead messageID u) effects -> u = userID c)
  /\ (forall msg, In (ToBroadcast msg) effects ->
        decoded = Some msg
        /\ exists type, msg !! "type" = Some (JString type)
             /\ (type = "message_edited" \/ type = "message_deleted"
                 \/ type = "reaction_added" \/ type = "reaction_removed")).
Proof.
  unfold readPump_frame.
  destruct decoded as [msg|]; [|simpl; repeat split; intros; intuition discriminate].
  destruct (msg !! "type") as [[| | |type| |]|] eqn:Htype; simpl;
    try (repeat split; intros; intuition discriminate).
  destruct (String.eqb_spec type "message") as [->|_].
  { destruct (msg !! "content") as [[| | |content| |]|] eqn:Hc; simpl;
      try (repeat split; intros; intuition discriminate).
    unfold handleChatMessage. simpl.
    split; [reflexivity|]. split; [|repeat split; intros; intuition discriminate].
    intros m [[= <-]|[]]. simpl. repeat split. exists msg. auto. }
  destruct (String.eqb_spec type "typing_start") as [->|_].
  { simpl. split; [reflexivity|]. split; [intros; intuition discriminate|].
    split; [intros u b [[= <- _]|[]]; reflexivity|].
    split; intros; intuition discriminate. }
  destruct (String.eqb_spec type "typing_stop") as [->|_].
  { simpl. split; [reflexivity|]. split; [intros; intuition discriminate|].
    split; [intros u b [[= <- _]|[]]; reflexivity|].
    split; intros; intuition discriminate. }
  destruct (String.eqb_spec type "read") as [->|_].
  { destruct (as_float64 (msg !! "message_id")) as [f|]; simpl;
      [|repeat split; intros; intuition discriminate].
    split; [reflexivity|]. split; [intros; intuition discriminate|].
    split; [intros; intuition discriminate|].
    split; [intros id u [[= _ <-]|[]]; reflexivity|].
    intros; intuition discriminate. }
  destruct (String.eqb_spec type "message_edited") as [->|_].
  { simpl. split; [reflexivity|]. do 3 (split; [intros; intuition discriminate|]).
    intros f [[= <-]|[]]. split; [reflexivity|]. eexists. split; [exact Htype|]. auto. }
  destruct (String.eqb_spec type "message_deleted") as [->|_].
  { simpl. split; [reflexivity|]. do 3 (split; [intros; intuition discriminate|]).
    intros f [[= <-]|[]]. split; [reflexivity|]. eexists. split; [exact Htype|]. auto. }
  destruct (String.eqb_spec type "reaction_added") as [->|_].
  { simpl. split; [reflexivity|]. do 3 (split; [intros; intuition discriminate|]).
    intros f [[= <-]|[]]. split; [reflexivity|]. eexists. split; [exact Htype|]. auto. }
  destruct (String.eqb_spec type "reaction_removed") as [->|_].
  { simpl. split; [reflexivity|]. do 3 (split; [intros; intuition discriminate|]).
    intros f [[= <-]|[]]. split; [reflexivity|]. eexists. split; [exact Htype|]. auto. }
  simpl. repeat split; intros; intuition discriminate.
Qed.

(** The id a read frame is converted to is an int64, whatever number the
    frame carries. *)
Lemma int64_of_float64_range (f : Z * positive) :
  - 2 ^ 63 <= int64_of_float64 f < 2 ^ 63.
Proof.
  unfold int64_of_float64. cbv zeta.
  destruct (_ && _) eqn:Hin; [|lia].
  apply andb_true_iff in Hin as [Hlo Hhi].
  apply Z.leb_le in Hlo. apply Z.ltb_lt in Hhi. lia.
Qed.

End FrameIdentity.

(** ** The write pump *)

Module pump.
Import rooms.

(** What goes on the wire. *)
Inductive wire :=
| Data (message : Event)      (* WriteJSON(message) *)
| PingFrame
| CloseFrame.

(** The case the [select] of [writePump] takes. *)
Inductive wake :=
| FromSend
| Ticker.

(** The outcome of the next write on the connection ([true] when it
    succeeds), and the outcomes after it; a connection whose list is used
    up keeps working. *)
Definition next_write (outcomes : list bool) : bool * list bool :=
  match outcomes with
  | [] => (true, [])
  | ok :: rest => (ok, rest)
  end.

(** [writePump] run on the given wake-ups: the frames written, the client
    as the pump leaves it, and whether the pump has returned (and closed
    the connection). A receive from [send] yields the next buffered
    message, also after the channel was closed, and reports the closure
    once the buffer is empty; with an empty open channel the case is not
    ready and the wake-up is void. *)
Fixpoint writePump (wakes : list wake) (outcomes : list bool) (c : Client)
    : list wire * Client * bool :=
  match wakes with
  | [] => ([], c, false)
  | FromSend :: rest =>
      match send c with
      | message :: queue =>
          let c := mkClient (room c) (userID c) queue (closed c) in
          let '(ok, outcomes) := next_write outcomes in
          if ok then
            let '(out, c, returned) := writePump rest outcomes c in
            (Data message :: out, c, returned)
          else ([], c, true)
      | [] =>
          if closed c then ([CloseFrame], c, true)
          else writePump rest outcomes c
      end
  | Ticker :: rest =>
      let '(ok, outcomes) := next_write outcomes in
      if ok then
        let '(out, c, returned) := writePump rest outcomes c in
        (PingFrame :: out, c, returned)
      else ([], c, true)
  end.

(** The messages among the frames. *)
Fixpoint data_of (out : list wire) : list Event :=
  match out with
  | [] => []
  | Data message :: rest => message :: data_of rest
  | _ :: rest => data_of rest
  end.

End pump.

Section WritePump.
Import rooms pump.

(** X18. The write pump writes the queued messages in queue order: the
    messages on the wire are a prefix of the queue as it was, nothing is
    written twice or out of order. A close frame is written only after
    the channel was closed and every queued message has been written; it
    is the last frame, and the pump has then returned. *)
Theorem writePump_writes_queue_in_order
    (wakes : list wake) (outcomes : list bool) (c : Client) :
  let '(out, c', returned) := writePump wakes outcomes c in
  (exists n, data_of out = firstn n (send c))
  /\ (In CloseFrame out ->
      closed c = true /\ data_of out = send c /\ returned = true
      /\ exists before, out = before ++ [CloseFrame]).
Proof.
  revert outcomes c. induction wakes as [|wk rest IH]; intros outcomes c; simpl.
  - split; [exists 0%nat; reflexivity | tauto].
  - destruct wk.
    + destruct (send c) as [|message queue] eqn:Hsend.
      * destruct (closed c) eqn:Hclosed.
        -- split; [exists 0%nat; reflexivity|].
           intros _. repeat split. exists []. reflexivity.
        -- specialize (IH outcomes c). rewrite Hsend, Hclosed in IH.
           destruct (writePump rest outcomes c) as [[out c'] returned].
           destruct IH as [[n Hn] Hclose]. split.
           ++ exists 0%nat. rewrite Hn. now destruct n.
           ++ intros Hin. destruct (Hclose Hin) as [? _]. discriminate.
      * destruct (next_write outcomes) as [[|] outcomes'].
        -- specialize (IH outcomes' (mkClient (room c) (userID c) queue (closed c))).
           destruct (writePump rest outcomes' _) as [[out c'] returned].
           simpl in IH. destruct IH as [[n Hn] Hclose]. split.
           ++ exists (S n). simpl. now rewrite Hn.
           ++ intros [Hin|Hin]; [discriminate|].
              destruct (Hclose Hin) as (Hc & Hd & Hr & before & ->).
              split; [exact Hc|]. split; [simpl; now rewrite Hd|].
              split; [exact Hr|]. exists (Data message :: before). reflexivity.
        -- split; [exists 0%nat; reflexivity | intros []].
    + destruct (next_write outcomes) as [[|] outcomes'].
      * specialize (IH outcomes' c).
        destruct (writePump rest outcomes' c) as [[out c'] returned].
        destruct IH as [[n Hn] Hclose]. split.
        -- exists n. exact Hn.
        -- intros [Hin|Hin]; [discriminate|].
           destruct (Hclose Hin) as (Hc & Hd & Hr & before & ->).
           split; [exact Hc|]. split; [exact Hd|].
           split; [exact Hr|]. exists (PingFrame :: before). reflexivity.
      * split; [exists 0%nat; reflexivity | intros []].
Qed.

End WritePump.

(** A queue of two frames, closed by the room: both frames are written,
    then the close frame. *)
Example writePump_drains_before_close :
  pump.writePump [pump.FromSend; pump.Ticker; pump.FromSend; pump.FromSend] []
    (rooms.mkClient 1%N 7%N [rooms.Payload "a"; rooms.Payload "b"] true)
  = ([pump.Data (rooms.Payload "a"); pump.PingFrame; pump.Data (rooms.Payload "b");
      pump.CloseFrame],
     rooms.mkClient 1%N 7%N [] true, true).
Proof. reflexivity. Qed.

(* ===================================================================== *)
(** * internal/persistence: the sync engine *)
(* ===================================================================== *)

Module syncengine.
Import rooms.

(** [Manager.BroadcastMessage]: a send to the inbox of the room the
    registry holds under [roomID], if any ([None] when the send blocks). *)
Definition BroadcastMessage (m : Manager) (roomID : N) (message : Event)
    : option Manager :=
  match rooms m !! roomID with
  | Some room =>
      room' ← send_broadcast room message;
      Some (set_rooms m (<[roomID := room']> (rooms m)))
  | None => Some m
  end.

Section Handlers.

(** [uuid.Parse], outside the repository. The payloads are given as
    [json.Unmarshal] decodes them into a map, [None] when it fails. *)
Variable uuid_Parse : string -> option N.

(** [handleMessageDelivered]. *)
Definition handleMessageDelivered (m : Manager) (decoded : option (gmap string JSON))
    : option Manager :=
  match decoded with
  | None => Some m
  | Some event =>
      match as_string (event !! "room_id") with
      | None => Some m
      | Some roomIDStr =>
          match uuid_Parse roomIDStr with
          | None => Some m
          | Some roomID => BroadcastMessage m roomID (Frame event)
          end
      end
  end.

(** [handleRoomEvent]. *)
Definition handleRoomEvent (m : Manager) (decoded : option (gmap string JSON))
    : option Manager :=
  match decoded with
  | None => Some m
  | Some event =>
      match as_string (event !! "type") with
      | None => Some m
      | Some eventType =>
          match as_string (event !! "room_id") with
          | None => Some m
          | Some roomIDStr =>
              match uuid_Parse roomIDStr with
              | None => Some m
              | Some roomID =>
                  if String.eqb eventType "reaction_added"
                     || String.eqb eventType "reaction_removed"
                  then BroadcastMessage m roomID (Frame event)
                  else Some m
              end
          end
      end
  end.

(** [handleUserEvent]; [now] is the clock read by [GetOrCreateRoom]. *)
Definition handleUserEvent (m : Manager) (now : Z) (decoded : option (gmap string JSON))
    : option Manager :=
  match decoded with
  | None => Some m
  | Some event =>
      match as_string (event !! "type") with
      | None => Some m
      | Some eventType =>
          if String.eqb eventType "status_change" then
            match as_string (event !! "user_id") with
            | None => Some m
            | Some userIDStr =>
                match uuid_Parse userIDStr with
                | None => Some m
                | Some userID =>
                    match as_string (event !! "status") with
                    | None => Some m
                    | Some _ =>
                        match as_string (event !! "room_id") with
                        | Some roomIDStr =>
                            if negb (String.eqb roomIDStr "") then
                              match uuid_Parse roomIDStr with
                              | Some roomID =>
                                  let m := GetOrCreateRoom m now roomID in
                                  BroadcastUserEvent m roomID userID eventType
                              | None => Some m
                              end
                            else Some m
                        | None => Some m
                        end
                    end
                end
            end
          else Some m
      end
  end.

End Handlers.

End syncengine.

Section SyncEngine.
Import rooms syncengine.
Variable uuid_Parse : string -> option N.

(** The manager [m'] is [m] with [event] put last in the inbox of the
    registered room [roomID]. *)
Definition enqueued_in (m m' : Manager) (roomID : N) (event : Event) : Prop :=
  exists r, rooms m !! roomID = Some r
            /\ m' = set_rooms m (<[roomID := set_broadcast r (broadcast r ++ [event])]>
                                   (rooms m)).

Lemma BroadcastMessage_cases (m m' : Manager) (roomID : N) (event : Event) :
  BroadcastMessage m roomID event = Some m' ->
  (rooms m !! roomID = None /\ m' = m) \/ enqueued_in m m' roomID event.
Proof.
  unfold BroadcastMessage.
  destruct (rooms m !! roomID) as [r|] eqn:Hr; [|intros [= <-]; now left].
  destruct (send_broadcast r event) as [r'|] eqn:Hsend; simpl; [|discriminate].
  apply send_broadcast_Some in Hsend as (_ & _ & ->).
  intros [= <-]. right. exists r. auto.
Qed.

(** X19. Events from the bus never register a room: a delivered message
    or a room event that the engine passes on is put last in the inbox of
    the room its [room_id] names, and only if the registry already holds
    that room; otherwise, and for every payload that does not decode or
    names no parsable room, the manager is left exactly as it is. Of the
    room events only reaction_added and reaction_removed are passed on. *)
Theorem bus_events_reach_registered_rooms_only
    (m m' : Manager) (decoded : option (gmap string JSON)) :
  (handleMessageDelivered uuid_Parse m decoded = Some m' ->
   m' = m
   \/ exists event roomIDStr roomID,
        decoded = Some event
        /\ event !! "room_id" = Some (JString roomIDStr)
        /\ uuid_Parse roomIDStr = Some roomID
        /\ enqueued_in m m' roomID (Frame event))
  /\ (handleRoomEvent uuid_Parse m decoded = Some m' ->
      m' = m
      \/ exists event roomIDStr roomID,
           decoded = Some event
           /\ event !! "room_id" = Some (JString roomIDStr)
           /\ uuid_Parse roomIDStr = Some roomID
           /\ (event !! "type" = Some (JString "reaction_added")
               \/ event !! "type" = Some (JString "reaction_removed"))
           /\ enqueued_in m m' roomID (Frame event)).
Proof.
  split.
  - unfold handleMessageDelivered.
    destruct decoded as [event|]; [|intros [= <-]; now left].
    destruct (event !! "room_id") as [[| | |roomIDStr| |]|] eqn:Hroom; simpl;
      try (intros [= <-]; now left).
    destruct (uuid_Parse roomIDStr) as [roomID|] eqn:Hparse;
      [|intros [= <-]; now left].
    intros H. apply BroadcastMessage_cases in H as [[_ ->]|H]; [now left|].
    right. exists event, roomIDStr, roomID. auto.
  - unfold handleRoomEvent.
    destruct decoded as [event|]; [|intros [= <-]; now left].
    destruct (event !! "type") as [[| | |eventType| |]|] eqn:Htype; simpl;
      try (intros [= <-]; now left).
    destruct (event !! "room_id") as [[| | |roomIDStr| |]|] eqn:Hroom; simpl;
      try (intros [= <-]; now left).
    destruct (uuid_Parse roomIDStr) as [roomID|] eqn:Hparse;
      [|intros [= <-]; now left].
    destruct (String.eqb_spec eventType "reaction_added") as [->|_]; simpl.
    + intros H. apply BroadcastMessage_cases in H as [[_ ->]|H]; [now left|].
      right. exists event, roomIDStr, roomID. auto 10.
    + destruct (String.eqb_spec eventType "reaction_removed") as [->|_];
        [|intros [= <-]; now left].
      intros H. apply BroadcastMessage_cases in H as [[_ ->]|H]; [now left|].
      right. exists event, roomIDStr, roomID. auto 10.
Qed.

(** X20. A status_change event that names a room registers it: when its
    [user_id] and [room_id] parse and it has a status, the engine calls
    [GetOrCreateRoom] first, so afterwards the registry holds the room
    (created empty if it was not there, as it was otherwise) with its
    last activity set to the present instant and the user event last in
    its inbox. *)
Theorem status_change_registers_the_room
    (m m' : Manager) (now : Z) (event : gmap string JSON)
    (userIDStr roomIDStr status : string) (userID roomID : N) :
  event !! "type" = Some (JString "status_change") ->
  event !! "user_id" = Some (JString userIDStr) ->
  event !! "status" = Some (JString status) ->
  event !! "room_id" = Some (JString roomIDStr) ->
  roomIDStr <> "" ->
  uuid_Parse userIDStr = Some userID ->
  uuid_Parse roomIDStr = Some roomID ->
  handleUserEvent uuid_Parse m now (Some event) = Some m' ->
  lastActivity m' !! roomID = Some now
  /\ exists r',
       rooms m' !! roomID = Some r'
       /\ broadcast r'
          = match rooms m !! roomID with
            | Some r => broadcast r
            | None => []
            end ++ [UserEvent "status_change" userID roomID]
       /\ clients r' = match rooms m !! roomID with
                       | Some r => clients r
                       | None => ∅
                       end.
Proof.
  intros Htype Huser Hstatus Hroom Hne Hpu Hpr.
  unfold handleUserEvent. rewrite Htype, Huser, Hstatus, Hroom. simpl.
  rewrite Hpu. apply String.eqb_neq in Hne. rewrite Hne. simpl. rewrite Hpr.
  unfold BroadcastUserEvent, GetOrCreateRoom.
  destruct (rooms m !! roomID) as [r|] eqn:Hr; simpl.
  - rewrite Hr. simpl.
    destruct (send_broadcast r _) as [r'|] eqn:Hsend; simpl; [|discriminate].
    apply send_broadcast_Some in Hsend as (_ & _ & ->).
    intros [= <-]. simpl. split; [apply lookup_insert_eq|].
    eexists. split; [apply lookup_insert_eq|]. auto.
  - rewrite lookup_insert_eq. simpl.
    intros [= <-]. simpl. split; [apply lookup_insert_eq|].
    eexists. split; [apply lookup_insert_eq|]. auto.
Qed.

End SyncEngine.

(** A delivered-message event for room 1 on a node that holds room 1, and
    a status_change event naming room 2, which the node does not hold. *)
Definition delivered_event : gmap string rooms.JSON :=
  <["type" := rooms.JString "message_delivered"]>
    (<["room_id" := rooms.JString "room-1"]>
       {[ "content" := rooms.JString "hi" ]}).

Definition status_event : gmap string rooms.JSON :=
  <["type" := rooms.JString "status_change"]>
    (<["user_id" := rooms.JString "room-1"]>
       (<["status" := rooms.JString "online"]>
          {[ "room_id" := rooms.JString "room-2" ]})).

Definition delivered_manager : rooms.Manager :=
  rooms.set_rooms lone_room_manager
    (<[1%N := rooms.mkRoom 1%N ∅ [rooms.Frame delivered_event] false ∅]>
       (rooms.rooms lone_room_manager)).

Definition status_manager : rooms.Manager :=
  let m := rooms.GetOrCreateRoom lone_room_manager 50 2%N in
  rooms.set_rooms m
    (<[2%N := rooms.mkRoom 2%N ∅ [rooms.UserEvent "status_change" 1%N 2%N] false ∅]>
       (rooms.rooms m)).

Lemma bus_events_reach_registered_rooms_only_witness :
  syncengine.handleMessageDelivered two_rooms lone_room_manager (Some delivered_event)
    = Some delivered_manager
  /\ (delivered_manager = lone_room_manager
      \/ exists event roomIDStr roomID,
           Some delivered_event = Some event
           /\ event !! "room_id" = Some (rooms.JString roomIDStr)
           /\ two_rooms roomIDStr = Some roomID
           /\ enqueued_in lone_room_manager delivered_manager roomID
                (rooms.Frame event)).
Proof.
  split; [reflexivity|].
  apply (proj1 (bus_events_reach_registered_rooms_only two_rooms lone_room_manager
                  delivered_manager (Some delivered_event))).
  reflexivity.
Defined.

Lemma status_change_registers_the_room_witness :
  syncengine.handleUserEvent two_rooms lone_room_manager 50 (Some status_event)
    = Some status_manager
  /\ rooms.lastActivity status_manager !! 2%N = Some 50.
Proof.
  split; [reflexivity|].
  apply (status_change_registers_the_room two_rooms lone_room_manager status_manager 50
           status_event "room-1" "room-2" "online" 1%N 2%N);
    try reflexivity.
  discriminate.
Defined.

(* ===================================================================== *)
(** * internal/api: the REST handlers *)
(* ===================================================================== *)

Module rest.
Import models db queries.

(** The request as the REST handlers read it: the user id the context
    carries under [ContextKeyUserID], if it carries a uuid there, the
    headers, the path values and the query parameters ([Get] and
    [PathValue] give the empty string for an absent key). *)
Record Request := mkRequest {
  ctxUserID : option N;
  header : gmap string string;
  pathValues : gmap string string;
  urlQuery : gmap string string
}.

Definition Header_Get (req : Request) (key : string) : string :=
  default "" (header req !! key).

Definition PathValue (req : Request) (key : string) : string :=
  default "" (pathValues req !! key).

Definition URLQuery_Get (req : Request) (key : string) : string :=
  default "" (urlQuery req !! key).

Definition WithContext (req : Request) (userID : N) : Request :=
  mkRequest (Some userID) (header req) (pathValues req) (urlQuery req).

(** [getUserIDFromContext]. *)
Definition getUserIDFromContext (req : Request) : option N := ctxUserID req.

(** What a handler writes: [http.Error], or a JSON body: a list of
    messages, the enriched list of [GetRoomMessagesHandler] (each message
    with the user found for it, of whom the store keeps the id), one
    message, or an object with one entry under a status code. *)
Inductive reply :=
| http_Error (status : Z) (body : string)
| JSONMessages (ms : list Message)
| JSONEnriched (rows : list (Message * N))
| JSONMessage (m : Message)
| JSONObject (status : Z) (key value : string).

Definition StatusOK : Z := 200.
Definition StatusCreated : Z := 201.
Definition StatusBadRequest : Z := 400.
Definition StatusUnauthorized : Z := 401.
Definition StatusForbidden : Z := 403.
Definition StatusTooManyRequests : Z := 429.
Definition StatusInternalServerError : Z := 500.

(** [strings.TrimPrefix]. *)
Definition TrimPrefix (s p : string) : string :=
  if String.prefix p s
  then String.substring (String.length p) (String.length s - String.length p) s
  else s.

(** [GetUserByID]: [&user] in every case, the zero user when Scan
    fails. *)
Definition GetUserByID (d : Database) (userID : N) : N * option error :=
  if online d then
    if bool_decide (userID ∈ users d) then (userID, None) else (0%N, Some ErrNoRows)
  else (0%N, Some ErrConn).

Section Handlers.

(** Outside the repository: [uuid.Parse], [strconv.Atoi],
    [strconv.ParseInt(s, 10, 64)], [time.Parse(time.RFC3339, s)], the JWT
    library behind [ValidateToken] with the text of its error, and the
    text search of the server. Request bodies are given as
    [json.Decoder.Decode] leaves them, [None] when it fails. *)
Variable uuid_Parse : string -> option N.
Variable Atoi : string -> option Z.
Variable ParseInt : string -> option Z.
Variable time_Parse : string -> option Z.
Variable ValidateToken : string -> option api.Claims.
Variable ValidateToken_error : string -> string.
Variable tsv_matches : string -> string -> bool.
Variable ts_rank : string -> string -> Z.

(** [AuthMiddleware]. *)
Definition AuthMiddleware {T} (reject : reply -> T) (next : Request -> T)
    (req : Request) : T :=
  let tokenString := TrimPrefix (Header_Get req "Authorization") "Bearer " in
  if String.eqb tokenString ""
  then reject (http_Error StatusUnauthorized "Authorization token required")
  else
    match ValidateToken tokenString with
    | None =>
        reject (http_Error StatusUnauthorized
                  ("Invalid token: " +:+ ValidateToken_error tokenString))
    | Some claims => next (WithContext req (api.UserID claims))
    end.

(** [RateLimiter.Middleware]; [Allow] is the answer of the token bucket
    kept in Redis for the user at the time of the request. *)
Definition Middleware {T} (Allow : N -> bool) (reject : reply -> T)
    (next : Request -> T) (req : Request) : T :=
  match ctxUserID req with
  | None =>
      reject (http_Error StatusUnauthorized "Unauthorized: User ID not found in context")
  | Some userID =>
      if (userID =? 0)%N
      then reject (http_Error StatusUnauthorized
                     "Unauthorized: User ID not found in context")
      else if negb (Allow userID)
      then reject (http_Error StatusTooManyRequests "Too many requests")
      else next req
  end.

(** The page size both listing handlers read off the [limit]
    parameter. *)
Definition page_limit (limitStr : string) : Z :=
  let limit := 50 in
  if negb (String.eqb limitStr "") then
    match Atoi limitStr with
    | Some l => if (0 <? l) && (l <=? 100) then l else limit
    | None => limit
    end
  else limit.

(** [GetRoomMessagesHandler]. *)
Definition GetRoomMessagesHandler (d : Database) (req : Request) : reply :=
  match uuid_Parse (Header_Get req "X-User-ID") with
  | None => http_Error StatusBadRequest "Invalid user ID"
  | Some userID =>
      match uuid_Parse (PathValue req "id") with
      | None => http_Error StatusBadRequest "Invalid room ID"
      | Some roomID =>
          let '(isMember, err) := IsRoomMember d roomID userID in
          if bool_decide (err ≠ None) || negb isMember
          then http_Error StatusForbidden "Not a member of this room"
          else
            let limit := page_limit (URLQuery_Get req "limit") in
            let beforeStr := URLQuery_Get req "before" in
            let before :=
              if negb (String.eqb beforeStr "") then
                match ParseInt beforeStr with
                | Some b => b
                | None => 0
                end
              else 0 in
            match GetRoomMessages d roomID limit before with
            | (_, Some _) =>
                http_Error StatusInternalServerError "Failed to fetch messages"
            | (messages, None) =>
                JSONEnriched
                  (map (fun msg => (msg, fst (GetUserByID d (UserID msg)))) messages)
            end
      end
  end.

(** An optional query parameter with a parser: absent, malformed, or
    present. *)
Definition optional (parse : string -> option Z) (s : string) (invalid : string)
    : reply + option Z :=
  if negb (String.eqb s "") then
    match parse s with
    | None => inl (http_Error StatusBadRequest invalid)
    | Some t => inr (Some t)
    end
  else inr None.

(** [SearchMessagesHandler]. *)
Definition SearchMessagesHandler (d : Database) (req : Request) : reply :=
  match getUserIDFromContext req with
  | None => http_Error StatusUnauthorized "Unauthorized"
  | Some userID =>
      match uuid_Parse (PathValue req "id") with
      | None => http_Error StatusBadRequest "Invalid room ID"
      | Some roomID =>
          let '(isMember, err) := IsRoomMember d roomID userID in
          if bool_decide (err ≠ None) || negb isMember
          then http_Error StatusForbidden "Not a member of this room"
          else
            let query := URLQuery_Get req "q" in
            if String.eqb query ""
            then http_Error StatusBadRequest "Missing search query"
            else
              let limit := page_limit (URLQuery_Get req "limit") in
              let senderIDStr := URLQuery_Get req "sender_id" in
              match (if negb (String.eqb senderIDStr "") then
                       match uuid_Parse senderIDStr with
                       | None => inl (http_Error StatusBadRequest "Invalid sender_id")
                       | Some sID => inr (Some sID)
                       end
                     else inr None) with
              | inl r => r
              | inr senderID =>
                  match optional time_Parse (URLQuery_Get req "before_time")
                                 "Invalid before_time format" with
                  | inl r => r
                  | inr beforeTime =>
                      match optional time_Parse (URLQuery_Get req "after_time")
                                     "Invalid after_time format" with
                      | inl r => r
                      | inr afterTime =>
                          match SearchMessages tsv_matches ts_rank d roomID query limit
                                               senderID beforeTime afterTime with
                          | (_, Some _) =>
                              http_Error StatusInternalServerError
                                         "Failed to search messages"
                          | (messages, None) => JSONMessages messages
                          end
                      end
                  end
              end
      end
  end.

(** [EditMessageHandler]: the store after it, the messages handed to
    [syncEngine.PublishMessage], and the reply. [now] is the [NOW()] of
    the update; [body] is the decoded [content], if the body decodes. *)
Definition EditMessageHandler (d : Database) (now : Z) (req : Request)
    (body : option string) : Database * list Message * reply :=
  match getUserIDFromContext req with
  | None => (d, [], http_Error StatusUnauthorized "Unauthorized")
  | Some userID =>
      match ParseInt (PathValue req "messageID") with
      | None => (d, [], http_Error StatusBadRequest "Invalid message ID")
      | Some messageID =>
          match body with
          | None => (d, [], http_Error StatusBadRequest "Invalid request")
          | Some content =>
              let '(message, err) := GetMessageByID d messageID in
              if bool_decide (err ≠ None) || negb (UserID message =? userID)%N
              then (d, [], http_Error StatusForbidden
                                      "Message not found or unauthorized to edit")
              else
                let '(d, err) := EditMessage d now messageID userID content in
                match err with
                | Some _ =>
                    (d, [], http_Error StatusInternalServerError "Failed to edit message")
                | None =>
                    let '(updatedMessage, err) := GetMessageByID d messageID in
                    match err with
                    | Some _ =>
                        (d, [],
                         JSONObject StatusOK "message"
                           "Message edited successfully, but failed to fetch updated message.")
                    | None => (d, [updatedMessage], JSONMessage updatedMessage)
                    end
                end
          end
      end
  end.

(** The message [SoftDeleteMessageHandler] publishes:
    [&models.Message{ID: messageID, RoomID: message.RoomID, DeletedAt:
    &message.CreatedAt}]. *)
Definition deletion_notice (messageID : Z) (message : Message) : Message :=
  mkMessage messageID (RoomID message) 0%N "" "" "" None None
            (Some (CreatedAt message)) 0.

(** [SoftDeleteMessageHandler]. *)
Definition SoftDeleteMessageHandler (d : Database) (now : Z) (req : Request)
    : Database * list Message * reply :=
  match getUserIDFromContext req with
  | None => (d, [], http_Error StatusUnauthorized "Unauthorized")
  | Some userID =>
      match ParseInt (PathValue req "messageID") with
      | None => (d, [], http_Error StatusBadRequest "Invalid message ID")
      | Some messageID =>
          let '(message, err) := GetMessageByID d messageID in
          if bool_decide (err ≠ None) || negb (UserID message =? userID)%N
          then (d, [], http_Error StatusForbidden
                                  "Message not found or unauthorized to delete")
          else
            let '(d, err) := SoftDeleteMessage d now messageID userID in
            match err with
            | Some _ =>
                (d, [], http_Error StatusInternalServerError "Failed to delete message")
            | None =>
                (d, [deletion_notice messageID message],
                 JSONObject StatusOK "message" "Message deleted successfully")
            end
      end
  end.

(** [AddMemberHandler]; [body] is the decoded [AddMemberRequest], its
    [user_id] and its [role]. *)
Definition AddMemberHandler (d : Database) (req : Request)
    (body : option (string * string)) : Database * reply :=
  match uuid_Parse (Header_Get req "X-User-ID") with
  | None => (d, http_Error StatusBadRequest "Invalid user ID")
  | Some requesterID =>
      match uuid_Parse (PathValue req "id") with
      | None => (d, http_Error StatusBadRequest "Invalid room ID")
      | Some roomID =>
          match body with
          | None => (d, http_Error StatusBadRequest "Invalid request")
          | Some (addReq_UserID, addReq_Role) =>
              match uuid_Parse addReq_UserID with
              | None => (d, http_Error StatusBadRequest "Invalid member ID")
              | Some memberID =>
                  let '(d, err) := AddRoomMember d roomID memberID addReq_Role in
                  match err with
                  | Some _ =>
                      (d, http_Error StatusInternalServerError "Failed to add member")
                  | None => (d, JSONObject StatusCreated "status" "success")
                  end
              end
          end
      end
  end.

(** [RemoveMemberHandler]. *)
Definition RemoveMemberHandler (d : Database) (req : Request) : Database * reply :=
  match uuid_Parse (Header_Get req "X-User-ID") with
  | None => (d, http_Error StatusBadRequest "Invalid user ID")
  | Some requesterID =>
      match uuid_Parse (PathValue req "id") with
      | None => (d, http_Error StatusBadRequest "Invalid room ID")
      | Some roomID =>
          match uuid_Parse (PathValue req "user_id") with
          | None => (d, http_Error StatusBadRequest "Invalid member ID")
          | Some memberID =>
              let '(d, err) := RemoveRoomMember d roomID memberID in
              match err with
              | Some _ =>
                  (d, http_Error StatusInternalServerError "Failed to remove member")
              | None => (d, JSONObject StatusOK "status" "success")
              end
          end
      end
  end.

End Handlers.

End rest.

Section Rest.
Import models db queries rest.

Variable uuid_Parse : string -> option N.
Variable Atoi : string -> option Z.
Variable ParseInt : string -> option Z.
Variable time_Parse : string -> option Z.
Variable ValidateToken : string -> option api.Claims.
Variable ValidateToken_error : string -> string.
Variable tsv_matches : string -> string -> bool.
Variable ts_rank : string -> string -> Z.

Lemma page_limit_bounds (limitStr : string) :
  1 <= page_limit Atoi limitStr <= 100.
Proof.
  unfold page_limit. destruct (negb _); [|lia].
  destruct (Atoi limitStr) as [l|]; [|lia].
  destruct (0 <? l) eqn:H0; simpl; [|lia].
  destruct (l <=? 100) eqn:H1; [|lia].
  apply Z.ltb_lt in H0. apply Z.leb_le in H1. lia.
Qed.

Lemma optional_inl (parse : string -> option Z) (s invalid : string) (r : reply) :
  optional parse s invalid = inl r -> r = http_Error StatusBadRequest invalid.
Proof.
  unfold optional. destruct (negb _); [|discriminate].
  destruct (parse s); [discriminate|]. now intros [= <-].
Qed.

Lemma SearchMessages_rows (d : Database) (roomID : N) (query : string) (limit : Z)
    (senderID : option N) (beforeTime afterTime : option Z) (ms : list Message) :
  SearchMessages tsv_matches ts_rank d roomID query limit senderID beforeTime afterTime
    = (ms, None) ->
  (length ms <= Z.to_nat limit)%nat
  /\ forall m, In m ms ->
       In m (messages d)
       /\ search_selects tsv_matches roomID query senderID beforeTime afterTime m = true.
Proof.
  unfold SearchMessages.
  destruct (SearchMessages_query senderID beforeTime afterTime) as [text nargs].
  destruct (Query _ _ _ _) as [e|out] eqn:HQ; [discriminate|].
  destruct (sql.text_accepted query);
    [|unfold Query in HQ; destruct (online d), (sql.prepares text nargs); discriminate].
  intros [= <-]. split.
  - unfold Query, limit_rows in HQ.
    destruct (online d); [|discriminate].
    destruct (sql.prepares text nargs); [|discriminate].
    destruct (limit <? 0); [discriminate|].
    injection HQ as <-. apply firstn_le_length.
  - intros m Hm. exact (In_limit_sorted _ _ _ _ _ _ _ _ HQ Hm).
Qed.

(** What [SearchMessagesHandler] has checked when it answers with
    messages. *)
Lemma SearchMessagesHandler_rows (d : Database) (req : Request) (ms : list Message) :
  SearchMessagesHandler uuid_Parse Atoi time_Parse tsv_matches ts_rank d req
    = JSONMessages ms ->
  exists userID roomID,
    ctxUserID req = Some userID
    /\ uuid_Parse (PathValue req "id") = Some roomID
    /\ (roomID, userID) ∈ room_members d
    /\ (length ms <= 100)%nat
    /\ forall m, In m ms ->
         In m (messages d) /\ RoomID m = roomID /\ DeletedAt m = None
         /\ tsv_matches (Content m) (URLQuery_Get req "q") = true.
Proof.
  unfold SearchMessagesHandler, getUserIDFromContext.
  destruct (ctxUserID req) as [userID|]; [|discriminate].
  destruct (uuid_Parse (PathValue req "id")) as [roomID|]; [|discriminate].
  destruct (IsRoomMember d roomID userID) as [isMember err] eqn:Hmem.
  destruct err as [e|]; [discriminate|]. destruct isMember; [|discriminate].
  apply IsRoomMember_granted in Hmem as [_ Hin]. simpl.
  destruct (String.eqb (URLQuery_Get req "q") ""); [discriminate|].
  set (limit := page_limit Atoi (URLQuery_Get req "limit")).
  assert (Hlimit : 1 <= limit <= 100) by apply page_limit_bounds.
  destruct (if negb (String.eqb (URLQuery_Get req "sender_id") "")
            then match uuid_Parse (URLQuery_Get req "sender_id") with
                 | Some sID => inr (Some sID)
                 | None => inl (http_Error StatusBadRequest "Invalid sender_id")
                 end
            else inr None) as [r|senderID] eqn:Hsender.
  { destruct (negb _); [|discriminate].
    destruct (uuid_Parse (URLQuery_Get req "sender_id")); [discriminate|].
    injection Hsender as <-. discriminate. }
  destruct (optional time_Parse (URLQuery_Get req "before_time") _)
    as [r|beforeTime] eqn:Hbefore.
  { apply optional_inl in Hbefore as ->. discriminate. }
  destruct (optional time_Parse (URLQuery_Get req "after_time") _)
    as [r|afterTime] eqn:Hafter.
  { apply optional_inl in Hafter as ->. discriminate. }
  destruct (SearchMessages _ _ _ _ _ _ _ _ _) as [out [e|]] eqn:HS; [discriminate|].
  intros [= <-]. apply SearchMessages_rows in HS as [Hlen Hrows].
  exists userID, roomID.
  split; [reflexivity|]. split; [reflexivity|]. split; [exact Hin|].
  split; [lia|].
  intros m Hm. destruct (Hrows m Hm) as [Hmem Hsel]. split; [exact Hmem|].
  unfold search_selects in Hsel.
  do 3 (apply andb_true_iff in Hsel as [Hsel _]).
  apply andb_true_iff in Hsel as [Hsel Htsv].
  apply andb_true_iff in Hsel as [Hroom Hlive].
  apply N.eqb_eq in Hroom. unfold live in Hlive.
  destruct (DeletedAt m); [discriminate|]. auto.
Qed.

(** The search endpoint as the router wires it: the handler behind the
    rate limiter behind the authentication. *)
Definition search_endpoint (Allow : N -> bool) (d : Database) (req : Request) : reply :=
  AuthMiddleware ValidateToken ValidateToken_error (fun r => r)
    (Middleware Allow (fun r => r)
       (SearchMessagesHandler uuid_Parse Atoi time_Parse tsv_matches ts_rank d))
    req.

(** X21. The search endpoint hands out messages only to a member of the
    room: when it answers with a list, the Authorization header (with or
    without its Bearer prefix) is a token the JWT manager accepts, the
    user it names is not the nil uuid, passed the rate limiter and is a
    member of the room of the path; the list has at most 100 messages,
    and each of them is a row of the store, of that room, not
    soft-deleted, and matches the query text. *)
Theorem search_endpoint_serves_members_only
    (Allow : N -> bool) (d : Database) (req : Request) (ms : list Message) :
  search_endpoint Allow d req = JSONMessages ms ->
  exists claims roomID,
    ValidateToken (TrimPrefix (Header_Get req "Authorization") "Bearer ") = Some claims
    /\ api.UserID claims <> 0%N
    /\ Allow (api.UserID claims) = true
    /\ uuid_Parse (PathValue req "id") = Some roomID
    /\ (roomID, api.UserID claims) ∈ room_members d
    /\ (length ms <= 100)%nat
    /\ forall m, In m ms ->
         In m (messages d) /\ RoomID m = roomID /\ DeletedAt m = None
         /\ tsv_matches (Content m) (URLQuery_Get req "q") = true.
Proof.
  unfold search_endpoint, AuthMiddleware.
  destruct (String.eqb (TrimPrefix _ _) ""); [discriminate|].
  destruct (ValidateToken _) as [claims|] eqn:Hvalid; [|discriminate].
  unfold Middleware. cbn [ctxUserID WithContext].
  destruct (N.eqb_spec (api.UserID claims) 0) as [|Hnil]; [discriminate|].
  destruct (Allow (api.UserID claims)) eqn:Hallow; simpl; [|discriminate].
  intros H. apply SearchMessagesHandler_rows in H
    as (userID & roomID & [= <-] & Hroom & Hin & Hlen & Hrows).
  exists claims, roomID. auto 10.
Qed.

Lemma GetRoomMessages_fails (d : Database) (roomID : N) (limit before : Z) :
  snd (GetRoomMessages d roomID limit before) <> None.
Proof.
  assert (Hrej := GetRoomMessages_query_rejected before).
  unfold GetRoomMessages.
  destruct (GetRoomMessages_query before) as [query nargs].
  simpl in Hrej. unfold Query, sql.prepares. rewrite Hrej.
  destruct (online d); discriminate.
Qed.

(** X22. [GetRoomMessagesHandler] never lists a message: every request
    is answered with an HTTP error, and a request of a member (by the id
    of its X-User-ID header) for a room id that parses, on a reachable
    store, with 500, whatever [limit] and [before] it carries, because
    the statement [GetRoomMessages] builds is refused. *)
Theorem GetRoomMessagesHandler_never_lists (d : Database) (req : Request) :
  (exists status body,
     GetRoomMessagesHandler uuid_Parse Atoi ParseInt d req = http_Error status body)
  /\ forall userID roomID,
       uuid_Parse (Header_Get req "X-User-ID") = Some userID ->
       uuid_Parse (PathValue req "id") = Some roomID ->
       online d = true ->
       (roomID, userID) ∈ room_members d ->
       GetRoomMessagesHandler uuid_Parse Atoi ParseInt d req
       = http_Error StatusInternalServerError "Failed to fetch messages".
Proof.
  unfold GetRoomMessagesHandler. split.
  - destruct (uuid_Parse (Header_Get req "X-User-ID")) as [userID|]; [|eauto].
    destruct (uuid_Parse (PathValue req "id")) as [roomID|]; [|eauto].
    destruct (IsRoomMember d roomID userID) as [isMember err].
    destruct (_ || _); [eauto|].
    match goal with
    | |- context [GetRoomMessages ?d ?r ?l ?b] =>
        pose proof (GetRoomMessages_fails d r l b) as Hfail;
        destruct (GetRoomMessages d r l b) as [out [e|]]
    end; [eauto|]. now contradiction Hfail.
  - intros userID roomID -> -> Hon Hin.
    rewrite (proj2 (IsRoomMember_granted d roomID userID) (conj Hon Hin)). simpl.
    match goal with
    | |- context [GetRoomMessages ?d ?r ?l ?b] =>
        pose proof (GetRoomMessages_fails d r l b) as Hfail;
        destruct (GetRoomMessages d r l b) as [out [e|]]
    end; [reflexivity|]. now contradiction Hfail.
Qed.

Lemma find_map_commute {A} (f : A -> bool) (g : A -> A) (l : list A) :
  (forall x, f (g x) = f x) -> List.find f (map g l) = g <$> List.find f l.
Proof.
  intros Hf. induction l as [|x l IH]; simpl; [reflexivity|].
  rewrite Hf. destruct (f x); [reflexivity | exact IH].
Qed.

Lemma GetMessageByID_found (d : Database) (messageID : Z) (m : Message) :
  GetMessageByID d messageID = (m, None) ->
  online d = true
  /\ List.find (fun m => (ID m =? messageID) && live m) (messages d) = Some m
  /\ In m (messages d) /\ ID m = messageID /\ DeletedAt m = None.
Proof.
  unfold GetMessageByID. destruct (online d); [|discriminate].
  destruct (List.find _ _) as [x|] eqn:Hfind; [|discriminate].
  intros [= <-]. split; [reflexivity|]. split; [reflexivity|].
  apply find_some in Hfind as [Hin Hp].
  apply andb_true_iff in Hp as [Hid Hlive]. apply Z.eqb_eq in Hid.
  unfold live in Hlive. destruct (DeletedAt x); [discriminate|]. auto.
Qed.

(** After the author's edit the lookup finds the edited row. *)
Lemma GetMessageByID_after_edit
    (d : Database) (now messageID : Z) (content : string) (m : Message) :
  GetMessageByID d messageID = (m, None) ->
  sql.text_accepted content = true ->
  EditMessage d now messageID (UserID m) content
    = (fst (EditMessage d now messageID (UserID m) content), None)
  /\ GetMessageByID (fst (EditMessage d now messageID (UserID m) content)) messageID
     = (with_content m content now, None).
Proof.
  intros Hget Htext.
  apply GetMessageByID_found in Hget as (Hon & Hfind & _ & Hid & Hlive).
  unfold EditMessage. rewrite Hon, Htext. cbn [negb]. split; [reflexivity|].
  unfold GetMessageByID. cbn [fst online messages set_messages]. rewrite Hon.
  rewrite find_map_commute.
  - rewrite Hfind. cbn [fmap option_fmap option_map].
    rewrite Hid, Z.eqb_refl, N.eqb_refl. unfold live. rewrite Hlive. reflexivity.
  - intros x.
    destruct ((ID x =? messageID) && (UserID x =? UserID m)%N && live x);
      reflexivity.
Qed.

(** X23. [EditMessageHandler] changes the store only for the author of a
    live message: a reply with an HTTP error leaves the store as it was
    and publishes nothing, and a reply with a message means that the user
    of the context is the author of a row of the store with the id of the
    path that is not soft-deleted; the reply is that row with the content
    of the body and the edit time set, it is the one message published,
    and the store afterwards returns it under that id. *)
Theorem EditMessageHandler_edits_authors_live_message
    (d d' : Database) (now : Z) (req : Request) (body : option string)
    (published : list Message) (r : reply) :
  EditMessageHandler ParseInt d now req body = (d', published, r) ->
  (forall status text, r = http_Error status text -> d' = d /\ published = [])
  /\ (forall m', r = JSONMessage m' ->
       exists userID messageID content m,
         ctxUserID req = Some userID
         /\ ParseInt (PathValue req "messageID") = Some messageID
         /\ body = Some content
         /\ In m (messages d) /\ ID m = messageID /\ UserID m = userID
         /\ DeletedAt m = None
         /\ m' = with_content m content now
         /\ published = [m']
         /\ d' = fst (EditMessage d now messageID userID content)
         /\ GetMessageByID d' messageID = (m', None)).
Proof.
  unfold EditMessageHandler, getUserIDFromContext.
  destruct (ctxUserID req) as [userID|];
    [|intros [= <- <- <-]; split; [auto | discriminate]].
  destruct (ParseInt _) as [messageID|];
    [|intros [= <- <- <-]; split; [auto | discriminate]].
  destruct body as [content|];
    [|intros [= <- <- <-]; split; [auto | discriminate]].
  destruct (GetMessageByID d messageID) as [message [e|]] eqn:Hget;
    [intros [= <- <- <-]; split; [auto | discriminate]|].
  destruct (N.eqb_spec (UserID message) userID) as [<-|_]; simpl;
    [|intros [= <- <- <-]; split; [auto | discriminate]].
  destruct (sql.text_accepted content) eqn:Htext.
  2: { apply GetMessageByID_found in Hget as (Hon & _).
       unfold EditMessage. rewrite Hon, Htext. simpl.
       intros [= <- <- <-]; split; [auto | discriminate]. }
  destruct (GetMessageByID_after_edit d now messageID content message Hget Htext)
    as [Hedit Hagain].
  rewrite Hedit, Hagain. intros [= <- <- <-]. split; [discriminate|].
  intros m' [= <-].
  apply GetMessageByID_found in Hget as (_ & _ & Hin & Hid & Hlive).
  exists (UserID message), messageID, content, message. auto 12.
Qed.

(** Once the author has deleted the message, a live row the lookup still
    finds under that id belongs to somebody else. *)
Lemma GetMessageByID_after_delete
    (d : Database) (now messageID : Z) (userID : N) (m : Message) :
  online d = true ->
  GetMessageByID (fst (SoftDeleteMessage d now messageID userID)) messageID = (m, None) ->
  UserID m <> userID.
Proof.
  intros Hon Hget. apply GetMessageByID_found in Hget as (_ & _ & Hin & Hid & Hlive).
  unfold SoftDeleteMessage in Hin. rewrite Hon in Hin.
  cbn [fst messages set_messages] in Hin.
  apply in_map_iff in Hin as (x & Hx & _).
  destruct (Z.eqb_spec (ID x) messageID) as [Hxid|Hxid];
    destruct (N.eqb_spec (UserID x) userID) as [Hxu|Hxu]; simpl in Hx; subst m;
    try congruence.
  discriminate Hlive.
Qed.

(** X24. A message is deleted through [SoftDeleteMessageHandler] at most
    once: when the handler has answered that the message was deleted, the
    same request again is answered with 403, changes nothing and
    publishes nothing; and the one notice the first request published
    carries the id and room of the message with the creation time of the
    message, not the time of the deletion, as its deleted-at. *)
Theorem SoftDeleteMessageHandler_deletes_once
    (d d' : Database) (now later : Z) (req : Request) (published : list Message) :
  SoftDeleteMessageHandler ParseInt d now req
    = (d', published, JSONObject StatusOK "message" "Message deleted successfully") ->
  SoftDeleteMessageHandler ParseInt d' later req
    = (d', [], http_Error StatusForbidden "Message not found or unauthorized to delete")
  /\ exists userID m,
       ctxUserID req = Some userID
       /\ In m (messages d) /\ UserID m = userID /\ DeletedAt m = None
       /\ ParseInt (PathValue req "messageID") = Some (ID m)
       /\ d' = fst (SoftDeleteMessage d now (ID m) userID)
       /\ published
          = [mkMessage (ID m) (RoomID m) 0%N "" "" "" None None (Some (CreatedAt m)) 0].
Proof.
  unfold SoftDeleteMessageHandler, getUserIDFromContext.
  destruct (ctxUserID req) as [userID|]; [|discriminate].
  destruct (ParseInt _) as [messageID|]; [|discriminate].
  destruct (GetMessageByID d messageID) as [message [e|]] eqn:Hget; [discriminate|].
  destruct (N.eqb_spec (UserID message) userID) as [Huser|_]; simpl; [|discriminate].
  apply GetMessageByID_found in Hget as (Hon & _ & Hin & Hid & Hlive).
  pose proof (GetMessageByID_after_delete d now messageID userID) as Hafter.
  unfold SoftDeleteMessage in *. rewrite Hon in *. cbn [fst] in Hafter.
  intros [= <- <-]. split.
  - destruct (GetMessageByID _ messageID) as [again [e|]] eqn:Hagain; [reflexivity|].
    specialize (Hafter again eq_refl eq_refl).
    destruct (N.eqb_spec (UserID again) userID); [contradiction | reflexivity].
  - exists userID, message. subst messageID. unfold deletion_notice. auto 10.
Qed.

(** X25. [AddMemberHandler] asks nothing of the requester but a header
    that parses: whoever sends the request, on a reachable store a user
    of the store is made a member of a room of the store under any of the
    three roles, the answer is 201, and from then on a websocket request
    of that user for that room passes the membership check and is
    upgraded. *)
Theorem AddMemberHandler_admits_for_any_requester
    (Upgrade : api.Request -> bool) (d : Database) (req : Request)
    (requesterID roomID memberID : N) (member role : string) :
  uuid_Parse (Header_Get req "X-User-ID") = Some requesterID ->
  uuid_Parse (PathValue req "id") = Some roomID ->
  uuid_Parse member = Some memberID ->
  online d = true -> valid_role role = true ->
  roomID ∈ rooms d -> memberID ∈ users d ->
  exists d',
    AddMemberHandler uuid_Parse d req (Some (member, role))
      = (d', JSONObject StatusCreated "status" "success")
    /\ IsRoomMember d' roomID memberID = (true, None)
    /\ forall wsreq claims,
         identified ValidateToken uuid_Parse wsreq claims roomID ->
         api.UserID claims = memberID ->
         Upgrade wsreq = true ->
         api.WebSocketHandler ValidateToken uuid_Parse Upgrade d' wsreq
         = api.Upgraded roomID memberID.
Proof.
  intros Hrequester Hroom Hmember Hon Hrole Hr Hu.
  unfold AddMemberHandler. rewrite Hrequester, Hroom, Hmember.
  assert (Hadd : exists d',
             AddRoomMember d roomID memberID role = (d', None)
             /\ IsRoomMember d' roomID memberID = (true, None)).
  { destruct (AddRoomMember_outcome d roomID memberID role)
      as [[e He]|[(He & _ & Hin)|(He & _)]].
    - exfalso. revert He. unfold AddRoomMember.
      rewrite Hon, (valid_role_text role Hrole), Hrole. simpl.
      case_bool_decide; [discriminate|].
      rewrite !bool_decide_eq_true_2 by assumption. discriminate.
    - exists d. split; [exact He|]. apply IsRoomMember_granted. auto.
    - eexists. split; [exact He|]. apply IsRoomMember_granted.
      split; [exact Hon|]. simpl. apply elem_of_union_l, elem_of_singleton.
      reflexivity. }
  destruct Hadd as (d' & -> & Hgranted).
  exists d'. split; [reflexivity|]. split; [exact Hgranted|].
  intros wsreq claims Hid <- Hup.
  rewrite (WebSocketHandler_identified ValidateToken uuid_Parse Upgrade
             d' wsreq claims roomID Hid), Hgranted, Hup.
  reflexivity.
Qed.

(** X26. [RemoveMemberHandler] asks nothing of the requester but a
    header that parses: on a reachable store any request whose header
    and path values parse is answered with 200, whether or not the user
    was a member, and afterwards a websocket request of that user for
    that room is answered with 403, while the membership of every other
    pair is as before. *)
Theorem RemoveMemberHandler_expels_for_any_requester
    (Upgrade : api.Request -> bool) (d : Database) (req : Request)
    (requesterID roomID memberID : N) :
  uuid_Parse (Header_Get req "X-User-ID") = Some requesterID ->
  uuid_Parse (PathValue req "id") = Some roomID ->
  uuid_Parse (PathValue req "user_id") = Some memberID ->
  online d = true ->
  exists d',
    RemoveMemberHandler uuid_Parse d req = (d', JSONObject StatusOK "status" "success")
    /\ (forall pair, pair <> (roomID, memberID) ->
          (pair ∈ room_members d' <-> pair ∈ room_members d))
    /\ forall wsreq claims,
         identified ValidateToken uuid_Parse wsreq claims roomID ->
         api.UserID claims = memberID ->
         api.WebSocketHandler ValidateToken uuid_Parse Upgrade d' wsreq
         = api.HttpError api.StatusForbidden "Not a member of this room".
Proof.
  intros Hrequester Hroom Hmember Hon.
  unfold RemoveMemberHandler. rewrite Hrequester, Hroom, Hmember.
  unfold RemoveRoomMember. rewrite Hon.
  eexists. split; [reflexivity|]. split.
  - intros pair Hne. simpl. rewrite elem_of_difference, elem_of_singleton. tauto.
  - intros wsreq claims Hid <-.
    rewrite (WebSocketHandler_identified ValidateToken uuid_Parse Upgrade
               _ wsreq claims roomID Hid).
    unfold IsRoomMember. simpl. rewrite Hon.
    rewrite (bool_decide_eq_false_2 (_ ∈ _)); [reflexivity|].
    rewrite elem_of_difference, elem_of_singleton. tauto.
Qed.

End Rest.

(** A small directory of ids for the handlers, a message-id parser that
    knows the numeral 1, and parsers that know nothing. *)
Definition small_ids (s : string) : option N :=
  if String.eqb s "room-1" then Some 1%N
  else if String.eqb s "user-7" then Some 7%N
  else if String.eqb s "user-8" then Some 8%N
  else None.

Definition only_one (s : string) : option Z :=
  if String.eqb s "1" then Some 1 else None.

Definition no_number (s : string) : option Z := None.

Definition no_reason (s : string) : string := "".

Definition search_request : rest.Request :=
  rest.mkRequest None {[ "Authorization" := "Bearer token-of-7" ]}
                 {[ "id" := "room-1" ]} {[ "q" := "hello" ]}.

Definition message_request (userID : N) : rest.Request :=
  rest.mkRequest (Some userID) ∅ (<["id" := "room-1"]> {[ "messageID" := "1" ]}) ∅.

Definition member_request (requester : string) : rest.Request :=
  rest.mkRequest None {[ "X-User-ID" := requester ]}
                 (<["id" := "room-1"]> {[ "user_id" := "user-7" ]}) ∅.

Definition store_with_stranger : db.Database :=
  db.mkDatabase true {[ 7%N; 8%N ]} {[ 1%N ]} ∅ [] 0 [].

Lemma search_endpoint_serves_members_only_witness :
  search_endpoint small_ids no_number no_number one_token no_reason
                  substring_matches no_rank (fun _ => true)
                  store_two_messages search_request
    = rest.JSONMessages [ models.mkMessage 1 1%N 7%N "hello" "text" "" None None None 1000 ]
  /\ exists claims,
       one_token "token-of-7" = Some claims
       /\ (1%N, api.UserID claims) ∈ db.room_members store_two_messages.
Proof.
  assert (H : search_endpoint small_ids no_number no_number one_token no_reason
                substring_matches no_rank (fun _ => true)
                store_two_messages search_request
              = rest.JSONMessages
                  [ models.mkMessage 1 1%N 7%N "hello" "text" "" None None None 1000 ])
    by (vm_compute; reflexivity).
  split; [exact H|].
  destruct (search_endpoint_serves_members_only
              small_ids no_number no_number one_token no_reason
              substring_matches no_rank (fun _ => true)
              store_two_messages search_request _ H)
    as (claims & roomID & Hvalid & _ & _ & Hroom & Hin & _).
  exists claims. split; [exact Hvalid|].
  vm_compute in Hroom. injection Hroom as <-. exact Hin.
Defined.

Lemma GetRoomMessagesHandler_never_lists_witness :
  rest.GetRoomMessagesHandler small_ids no_number no_number store_two_messages
                              (member_request "user-7")
  = rest.http_Error rest.StatusInternalServerError "Failed to fetch messages".
Proof.
  apply (proj2 (GetRoomMessagesHandler_never_lists small_ids no_number no_number
                  store_two_messages (member_request "user-7")) 7%N 1%N);
    vm_compute; reflexivity.
Defined.

Lemma EditMessageHandler_edits_authors_live_message_witness :
  let d' := fst (queries.EditMessage store_two_messages 9000 1 7%N "bye") in
  let m' := models.mkMessage 1 1%N 7%N "bye" "text" "" None (Some 9000) None 1000 in
  rest.EditMessageHandler only_one store_two_messages 9000 (message_request 7%N)
                          (Some "bye")
    = (d', [m'], rest.JSONMessage m')
  /\ db.GetMessageByID d' 1 = (m', None).
Proof.
  intros d' m'.
  assert (H : rest.EditMessageHandler only_one store_two_messages 9000
                (message_request 7%N) (Some "bye")
              = (d', [m'], rest.JSONMessage m')) by (vm_compute; reflexivity).
  split; [exact H|].
  destruct (EditMessageHandler_edits_authors_live_message
              only_one store_two_messages d' 9000 (message_request 7%N) (Some "bye")
              [m'] (rest.JSONMessage m') H) as [_ Hmessage].
  destruct (Hmessage m' eq_refl)
    as (userID & messageID & content & m & _ & Hid & _ & _ & _ & _ & _ & _ & _ & _ & Hget).
  vm_compute in Hid. injection Hid as <-. exact Hget.
Defined.

Lemma SoftDeleteMessageHandler_deletes_once_witness :
  exists d',
    rest.SoftDeleteMessageHandler only_one d' 9500 (message_request 7%N)
    = (d', [], rest.http_Error rest.StatusForbidden
                 "Message not found or unauthorized to delete").
Proof.
  eexists.
  apply (SoftDeleteMessageHandler_deletes_once only_one store_two_messages _ 9000 9500
           (message_request 7%N)
           [ models.mkMessage 1 1%N 0%N "" "" "" None None (Some 1000) 0 ]).
  vm_compute. reflexivity.
Defined.

Lemma AddMemberHandler_admits_for_any_requester_witness :
  exists d',
    rest.AddMemberHandler small_ids store_with_stranger (member_request "user-8")
                          (Some ("user-7", "member"))
      = (d', rest.JSONObject rest.StatusCreated "status" "success")
    /\ db.IsRoomMember d' 1%N 7%N = (true, None).
Proof.
  destruct (AddMemberHandler_admits_for_any_requester
              small_ids one_token (fun _ => true) store_with_stranger
              (member_request "user-8") 8%N 1%N 7%N "user-7" "member")
    as (d' & Hreply & Hmember & _); try (vm_compute; reflexivity).
  exists d'. split; assumption.
Defined.

Lemma RemoveMemberHandler_expels_for_any_requester_witness :
  exists d',
    rest.RemoveMemberHandler small_ids store_two_messages (member_request "user-8")
      = (d', rest.JSONObject rest.StatusOK "status" "success").
Proof.
  destruct (RemoveMemberHandler_expels_for_any_requester
              small_ids one_token (fun _ => true) store_two_messages
              (member_request "user-8") 8%N 1%N 7%N)
    as (d' & Hreply & _); try (vm_compute; reflexivity).
  exists d'. exact Hreply.
Defined.

(* ===================================================================== *)
(** * Presence events on the bus *)
(* ===================================================================== *)

Module userstatus.
Import rooms.

Section Publish.

(** [uuid.UUID.String] and the JSON text of a [time.Time], outside the
    repository. *)
Variable uuid_String : N -> string.
Variable time_Format : Z -> string.

(** [PublishUserStatus]: the channel and the event, as the subscriber
    decodes it. *)
Definition PublishUserStatus (userID : N) (status : string) (now : Z)
    : string * gmap string JSON :=
  ("user_events",
   <["type" := JString "status_change"]>
     (<["user_id" := JString (uuid_String userID)]>
        (<["status" := JString status]>
           {[ "timestamp" := JString (time_Format now) ]}))).

End Publish.

End userstatus.

Section Presence.
Import rooms syncengine userstatus.
Variable uuid_Parse : string -> option N.
Variable uuid_String : N -> string.
Variable time_Format : Z -> string.

(** X27. The status events the server publishes reach nobody: the event
    [PublishUserStatus] builds (for a session that starts or stops) has
    no [room_id], so [handleUserEvent] on any node leaves the manager
    exactly as it is, whatever the user, the status and the registry. *)
Theorem published_status_reaches_no_room
    (m : Manager) (userID : N) (status : string) (sent received : Z) :
  fst (PublishUserStatus uuid_String time_Format userID status sent) = "user_events"
  /\ handleUserEvent uuid_Parse m received
       (Some (snd (PublishUserStatus uuid_String time_Format userID status sent)))
     = Some m.
Proof.
  split; [reflexivity|].
  unfold handleUserEvent, PublishUserStatus. cbn [snd].
  assert (Htype : (<["type" := JString "status_change"]>
                     (<["user_id" := JString (uuid_String userID)]>
                        (<["status" := JString status]>
                           {[ "timestamp" := JString (time_Format sent) ]})) : gmap string JSON)
                  !! "type" = Some (JString "status_change"))
    by apply lookup_insert_eq.
  rewrite Htype. cbn [as_string String.eqb Ascii.eqb Bool.eqb].
  rewrite lookup_insert_ne, lookup_insert_eq by discriminate.
  cbn [as_string]. destruct (uuid_Parse (uuid_String userID)); [|reflexivity].
  rewrite !lookup_insert_ne, lookup_insert_eq by discriminate.
  cbn [as_string].
  rewrite !lookup_insert_ne, lookup_singleton_ne by discriminate.
  reflexivity.
Qed.

End Presence.

(* ===================================================================== *)
(** * internal/api: the route table *)
(* ===================================================================== *)

Module router.

Section Mux.

(** net/http: whether two patterns conflict. [ServeMux.Handle] panics
    when the pattern conflicts with one that is already registered. *)
Variable conflictsWith : string -> string -> bool.

(** The patterns registered so far, in order. *)
Definition ServeMux := list string.

Definition Handle (mux : ServeMux) (pattern : string) : option ServeMux :=
  if existsb (conflictsWith pattern) mux then None else Some (mux ++ [pattern]).

(** Registrations in sequence: the mux, or the pattern whose registration
    panicked. *)
Fixpoint register (mux : ServeMux) (patterns : list string) : string + ServeMux :=
  match patterns with
  | [] => inr mux
  | pattern :: rest =>
      match Handle mux pattern with
      | None => inl pattern
      | Some mux => register mux rest
      end
  end.

(** The registrations of [NewRouter], in the order of the source, each
    with the handler it is for. *)
Definition routes (BaseFileURL : string) : list (string * string) :=
  [ ("/auth/signup", "SignupHandler");
    ("/auth/login", "LoginHandler");
    ("/healthz", "HealthzHandler");
    ("/metrics", "promhttp.Handler");
    (BaseFileURL +:+ "/", "http.FileServer");
    ("/rooms", "GetRoomsHandler");
    ("/rooms", "CreateRoomHandler");
    ("/rooms/{id}", "GetRoomHandler");
    ("/rooms/{id}/messages", "GetRoomMessagesHandler");
    ("/rooms/{id}/search", "SearchMessagesHandler");
    ("/rooms/{id}/messages/{messageID}", "EditMessageHandler");
    ("/rooms/{id}/messages/{messageID}", "SoftDeleteMessageHandler");
    ("/rooms/{id}/messages/{messageID}/reactions", "AddReactionHandler");
    ("/rooms/{id}/messages/{messageID}/reactions/{emoji}", "RemoveReactionHandler");
    ("/files/upload", "UploadFileHandler");
    ("/ws", "WebSocketHandler") ].

Inductive started :=
| Fatalf                      (* log.Fatalf: the JWT manager did not initialize *)
| Panicked (pattern : string)
| Returned (mux : ServeMux).

(** [NewRouter]; [jwt] says whether [auth.NewJWTManager] accepted the keys
    of the configuration. *)
Definition NewRouter (jwt : bool) (BaseFileURL : string) : started :=
  if negb jwt then Fatalf
  else
    match register [] (map fst (routes BaseFileURL)) with
    | inl pattern => Panicked pattern
    | inr mux => Returned mux
    end.

End Mux.

End router.

Section RouteTable.
Import router.
Variable conflictsWith : string -> string -> bool.
Hypothesis conflictsWith_refl : forall pattern, conflictsWith pattern pattern = true.

Lemma Handle_registered (mux mux' : ServeMux) (pattern : string) :
  Handle conflictsWith mux pattern = Some mux' ->
  ~ In pattern mux /\ mux' = mux ++ [pattern].
Proof.
  unfold Handle. destruct (existsb _ mux) eqn:Hex; [discriminate|].
  intros [= <-]. split; [|reflexivity].
  intros Hin. apply Bool.not_true_iff_false in Hex. apply Hex.
  apply existsb_exists. exists pattern. auto.
Qed.

(** A pattern that is registered cannot be among those still to come. *)
Lemma register_fresh (patterns : list string) (mux mux' : ServeMux) (pattern : string) :
  register conflictsWith mux patterns = inr mux' ->
  In pattern mux -> ~ In pattern patterns.
Proof.
  revert mux. induction patterns as [|q rest IH]; simpl; intros mux Hreg Hin; [tauto|].
  destruct (Handle conflictsWith mux q) as [mux1|] eqn:Hq; [|discriminate].
  apply Handle_registered in Hq as [Hfresh ->].
  intros [->|Hrest]; [contradiction|].
  apply (IH _ Hreg); [|exact Hrest]. apply in_or_app. now left.
Qed.

Lemma register_app (l1 l2 : list string) (mux mux' : ServeMux) :
  register conflictsWith mux (l1 ++ l2) = inr mux' ->
  exists mux1, register conflictsWith mux1 l2 = inr mux'.
Proof.
  revert mux. induction l1 as [|q l1 IH]; simpl; intros mux Hreg; [eauto|].
  destruct (Handle conflictsWith mux q) as [mux1|]; [|discriminate]. eauto.
Qed.

Lemma register_twice (mux mux' : ServeMux) (pattern : string) (rest : list string) :
  register conflictsWith mux (pattern :: pattern :: rest) <> inr mux'.
Proof.
  simpl. destruct (Handle conflictsWith mux pattern) as [mux1|] eqn:H1; [|discriminate].
  apply Handle_registered in H1 as [_ ->].
  unfold Handle. rewrite existsb_app. simpl. rewrite conflictsWith_refl.
  rewrite Bool.orb_true_r. discriminate.
Qed.

(** X28. [NewRouter] never returns a router: it registers the pattern
    /rooms twice in a row (for [GetRoomsHandler] and for
    [CreateRoomHandler]), and a mux that refuses a pattern that conflicts
    with a registered one, as every pattern does with itself, panics
    there at the latest, whatever the configuration; when the keys of
    the JWT manager are refused the process has exited before. *)
Theorem NewRouter_never_returns (jwt : bool) (BaseFileURL : string) (mux : ServeMux) :
  NewRouter conflictsWith jwt BaseFileURL <> Returned mux.
Proof.
  unfold NewRouter. destruct jwt; simpl negb; cbv iota; [|discriminate].
  destruct (register conflictsWith [] (map fst (routes BaseFileURL)))
    as [pattern|mux'] eqn:Hreg; [discriminate|].
  exfalso.
  change (map fst (routes BaseFileURL))
    with ([ "/auth/signup"; "/auth/login"; "/healthz"; "/metrics"; BaseFileURL +:+ "/" ]
          ++ "/rooms" :: "/rooms" :: map fst (skipn 7 (routes BaseFileURL))) in Hreg.
  apply register_app in Hreg as [mux1 Hreg].
  exact (register_twice _ _ _ _ Hreg).
Qed.

End RouteTable.

Lemma NewRouter_never_returns_witness :
  router.NewRouter String.eqb true "/files" = router.Panicked "/rooms".
Proof.
  pose proof (NewRouter_never_returns String.eqb String.eqb_refl true "/files") as Hnever.
  destruct (router.NewRouter String.eqb true "/files") as [| pattern | mux] eqn:Hrun.
  - vm_compute in Hrun. discriminate Hrun.
  - vm_compute in Hrun. exact (eq_sym Hrun).
  - contradiction (Hnever mux eq_refl).
Defined.

(* ===================================================================== *)
(** * internal/auth: the token of the Authorization header *)
(* ===================================================================== *)

Module auth.

(** [ExtractTokenFromHeader]. *)
Definition ExtractTokenFromHeader (authHeader : string) : option string :=
  if (String.length authHeader <? 7)%nat
     || negb (String.eqb (String.substring 0 7 authHeader) "Bearer ")
  then None
  else Some (String.substring 7 (String.length authHeader - 7) authHeader).

End auth.

Section BearerToken.
Import auth rest.

Lemma substring_all (s : string) : String.substring 0 (String.length s) s = s.
Proof. induction s as [|c s IH]; simpl; [reflexivity | now rewrite IH]. Qed.

Lemma substring_none (s : string) : String.substring 0 0 s = "".
Proof. destruct s; reflexivity. Qed.

Lemma ExtractTokenFromHeader_Some (authHeader token : string) :
  ExtractTokenFromHeader authHeader = Some token <-> authHeader = "Bearer " +:+ token.
Proof.
  split.
  - unfold ExtractTokenFromHeader.
    destruct authHeader as [|c1 [|c2 [|c3 [|c4 [|c5 [|c6 [|c7 rest]]]]]]];
      try (simpl; discriminate).
    cbn [String.length Nat.ltb Nat.leb orb String.substring].
    rewrite substring_none.
    destruct (String.eqb_spec
                (String c1 (String c2 (String c3 (String c4 (String c5
                   (String c6 (String c7 ""))))))) "Bearer ") as [Heq|]; [|discriminate].
    injection Heq as -> -> -> -> -> -> ->.
    simpl. rewrite Nat.sub_0_r, substring_all. now intros [= <-].
  - intros ->. unfold ExtractTokenFromHeader. simpl.
    now rewrite substring_none, Nat.sub_0_r, substring_all.
Qed.

(** X29. The two readings of the Authorization header in the repository:
    [ExtractTokenFromHeader] succeeds exactly on a header that is Bearer,
    a space and the token, and gives that token back; [AuthMiddleware],
    which strips the prefix with [strings.TrimPrefix] instead, reads the
    same token from such a header, and takes every other header whole as
    the token it validates. *)
Theorem ExtractTokenFromHeader_round_trip (authHeader : string) :
  (forall token,
     ExtractTokenFromHeader authHeader = Some token
     <-> authHeader = "Bearer " +:+ token)
  /\ TrimPrefix authHeader "Bearer "
     = default authHeader (ExtractTokenFromHeader authHeader).
Proof.
  split; [intros token; apply ExtractTokenFromHeader_Some|].
  destruct (ExtractTokenFromHeader authHeader) as [token|] eqn:Hextract.
  - apply ExtractTokenFromHeader_Some in Hextract as ->.
    unfold TrimPrefix. simpl. change ("" +:+ token) with token.
    rewrite Nat.sub_0_r, substring_all. now destruct token.
  - simpl. unfold TrimPrefix.
    destruct (String.prefix "Bearer " authHeader) eqn:Hprefix; [|reflexivity].
    apply String.prefix_correct in Hprefix. exfalso.
    assert (Hsome : ExtractTokenFromHeader authHeader
                    = Some (String.substring 7 (String.length authHeader - 7) authHeader)).
    { unfold ExtractTokenFromHeader. simpl String.length in Hprefix.
      rewrite Hprefix.
      destruct authHeader as [|c1 [|c2 [|c3 [|c4 [|c5 [|c6 [|c7 rest]]]]]]];
        try discriminate Hprefix.
      reflexivity. }
    congruence.
Qed.

End BearerToken.

(* ===================================================================== *)
(** * From the frame to the writer *)
(* ===================================================================== *)

Section Poison.
Import models db persistence.

(** A batch with a message whose type the CHECK of the table refuses. *)
Definition poisoned (batch : list Message) : Prop :=
  Exists (fun m => valid_message_type (MessageType m) = false) batch.

Lemma CreateMessage_refuses_type (d : Database) (now : Z) (msg : Message) :
  valid_message_type (MessageType msg) = false ->
  exists d' e, CreateMessage d now msg = (d', msg, Some e).
Proof.
  intros Htype. unfold CreateMessage. rewrite Htype. simpl.
  destruct (online d); [|eauto].
  destruct (negb (_ && _ && _)); eauto.
Qed.

(** The inserts of a poisoned batch end in an error, and the batch is
    still poisoned afterwards. *)
Lemma insert_each_poisoned (batch : list Message) :
  forall w,
    poisoned batch ->
    snd (insert_each w batch) <> None /\ poisoned (snd (fst (insert_each w batch))).
Proof.
  unfold poisoned.
  induction batch as [|msg rest IH]; intros w Hp; [inversion Hp|].
  cbn [insert_each].
  destruct (decide (valid_message_type (MessageType msg) = false)) as [Hbad|Hgood].
  - destruct (CreateMessage_refuses_type (store (dial w)) (clock (dial w)) msg Hbad)
      as (d' & e & ->).
    simpl. split; [discriminate|]. now constructor.
  - assert (Hrest : Exists (fun m => valid_message_type (MessageType m) = false) rest).
    { inversion Hp; [contradiction | assumption]. }
    destruct (CreateMessage_cases (store (dial w)) (clock (dial w)) msg)
      as [[e0 H]|[[e H]|[H _]]]; rewrite H.
    + simpl. split; [discriminate|]. now apply Exists_cons_tl.
    + simpl. split; [discriminate|]. now apply Exists_cons_tl.
    + match goal with
      | |- context [insert_each ?w0 rest] =>
          destruct (IH w0 Hrest) as [Herr Hstill];
          destruct (insert_each w0 rest) as [[w2 rest'] err']
      end.
      simpl in *. split; [exact Herr|]. now apply Exists_cons_tl.
Qed.

Lemma attempts_poisoned (left : nat) :
  forall (batch : list Message) (i : nat) (lastErr : option error) (w : World),
    poisoned batch ->
    exists e, snd (attempts left i lastErr w batch) = GaveUp e.
Proof.
  induction left as [|left IH]; intros batch i lastErr w Hp; simpl; [eauto|].
  destruct (Begin (store (dial w))) as [e|x]; [now apply IH|].
  destruct (insert_each_poisoned batch (dial w) Hp) as [Herr Hstill].
  destruct (insert_each (dial w) batch) as [[w1 batch1] [e|]]; simpl in *;
    [|congruence].
  now apply IH.
Qed.

Lemma queued_message_type (c : rooms.Client) (now : Z)
    (frame : gmap string rooms.JSON) (m : Message) :
  In (rooms.QueueMessage m) (rooms.readPump_frame c now (Some frame)) ->
  MessageType m = default "" (rooms.as_string (frame !! "message_type")).
Proof.
  unfold rooms.readPump_frame.
  destruct (rooms.as_string (frame !! "type")) as [t|]; [|simpl; intuition discriminate].
  destruct (String.eqb t "message").
  - destruct (rooms.as_string (frame !! "content")); simpl; [|intuition discriminate].
    intros [[= <-]|[]]. reflexivity.
  - repeat match goal with
           | |- context [if ?b then _ else _] => destruct b
           end;
      try destruct (rooms.as_float64 _); simpl; intuition discriminate.
Qed.

(** X30. A frame of type message without a valid [message_type] sinks
    the batch it ends up in: the message the session queues for it has
    the type of the frame ([""] when the field is absent or not a
    string), the CHECK of the table refuses the insert in every attempt,
    so [writeBatch] gives up on every batch that contains the message,
    whatever else is in the batch and whatever the state of the server,
    and none of the messages of the batch is cached or published. *)
Theorem frame_without_valid_type_sinks_its_batch
    (c : rooms.Client) (now : Z) (frame : gmap string rooms.JSON)
    (m : Message) (w : World) (earlier later : list Message) :
  In (rooms.QueueMessage m) (rooms.readPump_frame c now (Some frame)) ->
  valid_message_type (default "" (rooms.as_string (frame !! "message_type"))) = false ->
  let r := writeBatch w (earlier ++ m :: later) in
  (exists lastErr, snd r = GaveUp lastErr)
  /\ published (fst (fst r)) = published w
  /\ cached (fst (fst r)) = cached w.
Proof.
  intros Hqueued Htype r.
  apply queued_message_type in Hqueued. rewrite <- Hqueued in Htype.
  assert (Hp : poisoned (earlier ++ m :: later)).
  { unfold poisoned. apply Exists_app. right. now constructor. }
  assert (Hr : r = attempts maxRetries 0 None w (earlier ++ m :: later)).
  { subst r. unfold writeBatch. destruct earlier; reflexivity. }
  destruct (attempts_poisoned maxRetries _ 0%nat None w Hp) as [e He].
  pose proof (attempts_effects maxRetries (earlier ++ m :: later) 0 None w) as Heff.
  cbv zeta in Heff. rewrite <- Hr in *. rewrite He in Heff.
  destruct Heff as (_ & _ & Hcached & Hpublished). eauto.
Qed.

End Poison.

(** A message frame that does not say what kind of message it is. *)
Definition untyped_frame : gmap string rooms.JSON :=
  <["type" := rooms.JString "message"]> {[ "content" := rooms.JString "hi" ]}.

Lemma frame_without_valid_type_sinks_its_batch_witness :
  persistence.published
    (fst (fst (persistence.writeBatch calm_world
                 [ models.mkMessage 0 1%N 7%N "first" "text" "" None None None 4;
                   models.mkMessage 0 1%N 7%N "hi" "" "" None None None 5 ])))
  = [].
Proof.
  apply (frame_without_valid_type_sinks_its_batch
           (rooms.NewClient 1%N 7%N) 5 untyped_frame
           (models.mkMessage 0 1%N 7%N "hi" "" "" None None None 5) calm_world
           [ models.mkMessage 0 1%N 7%N "first" "text" "" None None None 4 ] []).
  - left. reflexivity.
  - reflexivity.
Defined.
